(** * RTMP service detector (service_rtmp.cc): a shallow embedding

    The detector watches both directions of a TCP flow, follows the RTMP
    handshake (C0/C1/C2 and S0/S1/S2) with one state variable per side, and
    once the client has sent C2 parses the first chunked message of the
    client as an AMF0 [connect] command, keeping its [swfUrl] and [pageUrl]
    properties.

    Conventions of the embedding.
    - A [uint8_t] is a [Z] in 0..255; a [uint16_t] / [uint32_t] is a [Z]
      and every store into one goes through [wrap16] / [wrap32].
    - The C pair [(data, size)] (cursor and number of bytes left) is the
      list of the [size] bytes left: [data += n; size -= n] is [skipn n].
      [args->size] is a [uint16_t], so a payload has fewer than 65536 bytes.
    - A heap string ([char*]) is [option cstring]: [None] is [nullptr], and
      the [cstring] is the buffer with its terminating NUL.
    - [goto fail] / [return 0] is a failure constructor or [None]; loops
      that are not structural take fuel, and are shown never to run out. *)

From Stdlib Require Import String Ascii ZArith List Bool Lia.
Import ListNotations.
Open Scope Z_scope.

(** ** Constants (lines 33-56) *)

Definition RTMP_VER_3 : Z := 3.
Definition RTMP_HANDSHAKE1_SIZE : Z := 1536.
Definition RTMP_HANDSHAKE2_SIZE : Z := 1536.
Definition RTMP_CHUNK_SIZE : Z := 128.
Definition RTMP_AMF0_COMMAND_MESSAGE_ID : Z := 20.

Definition AMF0_TYPE_NUMBER : Z := 0x00.
Definition AMF0_TYPE_BOOLEAN : Z := 0x01.
Definition AMF0_TYPE_STRING : Z := 0x02.
Definition AMF0_TYPE_OBJECT : Z := 0x03.
Definition AMF0_TYPE_OBJECT_END : Z := 0x09.

(** A C string: the bytes of the buffer, the terminating NUL included. *)
Definition cstring := list Z.

(** The bytes of a string literal, followed by its NUL. *)
Definition c_literal (s : string) : cstring :=
  map (fun a => Z.of_N (N_of_ascii a)) (list_ascii_of_string s) ++ [0].

Definition RTMP_COMMAND_TYPE_CONNECT : cstring := c_literal "connect"%string.
Definition RTMP_COMMAND_TYPE_CONNECT_LEN : Z := 7.
Definition RTMP_PROPERTY_KEY_SWFURL : cstring := c_literal "swfUrl"%string.
Definition RTMP_PROPERTY_KEY_SWFURL_LEN : Z := 6.
Definition RTMP_PROPERTY_KEY_PAGEURL : cstring := c_literal "pageUrl"%string.
Definition RTMP_PROPERTY_KEY_PAGEURL_LEN : Z := 7.

(** ** Machine integers and buffers *)

Definition wrap16 (z : Z) : Z := z mod 65536.
Definition wrap32 (z : Z) : Z := z mod 4294967296.

(** [data[i]].  Past the end of the list the C read is out of bounds; the
    model yields 0 there, and the one place of the source that does such a
    read throws its value away. *)
Definition byte_at (data : list Z) (i : nat) : Z := nth i data 0.

(** [size], the number of bytes left under the cursor. *)
Definition size_of (data : list Z) : Z := Z.of_nat (length data).

(** [data += n; size -= n]. *)
Definition advance (n : Z) (data : list Z) : list Z := skipn (Z.to_nat n) data.

(** The first [n] bytes under the cursor ([memcpy] source). *)
Definition take (n : Z) (data : list Z) : list Z := firstn (Z.to_nat n) data.

(** [strncmp(s1, s2, n)]: compares at most [n] characters and stops at the
    first difference or at a NUL present in both. *)
Fixpoint strncmp (s1 s2 : list Z) (n : nat) : Z :=
  match n with
  | O => 0
  | S n' =>
      let c1 := hd 0 s1 in
      let c2 := hd 0 s2 in
      if negb (c1 =? c2) then c1 - c2
      else if c1 =? 0 then 0
      else strncmp (tl s1) (tl s2) n'
  end.

(** ** RTMPState and ServiceRTMPData (lines 61-81) *)

Inductive RTMPState : Type :=
  | RTMP_STATE_INIT
  | RTMP_STATE_SENT_HANDSHAKE0
  | RTMP_STATE_SENDING_HANDSHAKE1
  | RTMP_STATE_SENT_HANDSHAKE1
  | RTMP_STATE_SENDING_HANDSHAKE2
  | RTMP_STATE_SENT_HANDSHAKE2
  | RTMP_STATE_DONE.

(** The value of each enumerator; [<] on states is [<] on these. *)
Definition state_value (s : RTMPState) : Z :=
  match s with
  | RTMP_STATE_INIT => 0
  | RTMP_STATE_SENT_HANDSHAKE0 => 1
  | RTMP_STATE_SENDING_HANDSHAKE1 => 2
  | RTMP_STATE_SENT_HANDSHAKE1 => 3
  | RTMP_STATE_SENDING_HANDSHAKE2 => 4
  | RTMP_STATE_SENT_HANDSHAKE2 => 5
  | RTMP_STATE_DONE => 6
  end.

Definition state_eq_dec (a b : RTMPState) : {a = b} + {a <> b}.
Proof. decide equality. Defined.

Definition state_ltb (a b : RTMPState) : bool := state_value a <? state_value b.
Definition state_eqb (a b : RTMPState) : bool := state_value a =? state_value b.

Record ServiceRTMPData : Type := mkData {
  client_state : RTMPState;
  server_state : RTMPState;
  client_bytes_left : Z;
  server_bytes_left : Z;
  swfUrl : option cstring;
  pageUrl : option cstring
}.

(** [snort_calloc(sizeof(ServiceRTMPData))]: every field zero. *)
Definition fresh_data : ServiceRTMPData :=
  mkData RTMP_STATE_INIT RTMP_STATE_INIT 0 0 None None.

Definition set_client_state (ss : ServiceRTMPData) (s : RTMPState) :=
  mkData s (server_state ss) (client_bytes_left ss) (server_bytes_left ss)
         (swfUrl ss) (pageUrl ss).
Definition set_server_state (ss : ServiceRTMPData) (s : RTMPState) :=
  mkData (client_state ss) s (client_bytes_left ss) (server_bytes_left ss)
         (swfUrl ss) (pageUrl ss).
Definition set_client_bytes_left (ss : ServiceRTMPData) (n : Z) :=
  mkData (client_state ss) (server_state ss) (wrap16 n) (server_bytes_left ss)
         (swfUrl ss) (pageUrl ss).
Definition set_server_bytes_left (ss : ServiceRTMPData) (n : Z) :=
  mkData (client_state ss) (server_state ss) (client_bytes_left ss) (wrap16 n)
         (swfUrl ss) (pageUrl ss).
Definition set_swfUrl (ss : ServiceRTMPData) (s : option cstring) :=
  mkData (client_state ss) (server_state ss) (client_bytes_left ss)
         (server_bytes_left ss) s (pageUrl ss).
Definition set_pageUrl (ss : ServiceRTMPData) (s : option cstring) :=
  mkData (client_state ss) (server_state ss) (client_bytes_left ss)
         (server_bytes_left ss) (swfUrl ss) s.

(** ** Reads of the input buffer

    A computation that reads [data] returns, with its value, the indices it
    has read, in the order of the reads, so that the bounds of the reads of
    a function can be stated. *)

Definition Reads (A : Type) : Type := (list nat * A)%type.

Definition done {A : Type} (a : A) : Reads A := ([], a).

Definition and_then {A B : Type} (m : Reads A) (k : A -> Reads B) : Reads B :=
  let (r1, a) := m in
  let (r2, b) := k a in
  (r1 ++ r2, b).

(** [data[i]], logged. *)
Definition read (data : list Z) (i : nat) : Reads Z := ([i], byte_at data i).

Notation "x <- m ;; k" := (and_then m (fun x => k))
  (at level 61, m at next level, right associativity).

(** ** parse_rtmp_chunk_basic_header (lines 142-178)

    A successful result is the format, the chunk stream id and the cursor
    after the header; [None] is [return 0]. *)

Definition BasicHeader : Type := (Z * Z * list Z)%type.

Definition parse_rtmp_chunk_basic_header (data : list Z)
  : Reads (option BasicHeader) :=
  if size_of data <? 1 then done None
  else
    b0 <- read data 0 ;;
    let format := Z.shiftr (Z.land b0 0xC0) 6 in
    b0 <- read data 0 ;;
    let chunk_stream_id := Z.land b0 0x3F in
    if chunk_stream_id =? 0 then
      if size_of data <? 2 then done None
      else
        b1 <- read data 1 ;;
        done (Some (format, b1 + 64, advance 2 data))
    else if chunk_stream_id =? 1 then
      b2 <- read data 2 ;;
      b1 <- read data 1 ;;
      let chunk_stream_id := b2 * 256 + b1 + 64 in
      if size_of data <? 3 then done None
      else done (Some (format, chunk_stream_id, advance 3 data))
    else done (Some (format, chunk_stream_id, advance 1 data)).

(** The header alone, as the callers use it. *)
Definition basic_header (data : list Z) : option BasicHeader :=
  snd (parse_rtmp_chunk_basic_header data).

(** The indices read by the header reader. *)
Definition basic_header_reads (data : list Z) : list nat :=
  fst (parse_rtmp_chunk_basic_header data).

(** ** parse_rtmp_message_header (lines 180-214)

    Result: chunk stream id, message length, message type id, cursor. *)

Definition MessageHeader : Type := (Z * Z * Z * list Z)%type.

Definition parse_rtmp_message_header (data : list Z) : option MessageHeader :=
  match basic_header data with
  | None => None
  | Some (fmt, chunk_stream_id, data) =>
      let hdr_len :=
        if fmt =? 0 then Some 11
        else if fmt =? 1 then Some 7
        else None in
      match hdr_len with
      | None => None
      | Some hdr_len =>
          if size_of data <? hdr_len then None
          else
            let message_length :=
              wrap32 (Z.shiftl (byte_at data 3) 16
                      + Z.shiftl (byte_at data 4) 8 + byte_at data 5) in
            let message_type_id := byte_at data 6 in
            Some (chunk_stream_id, message_length, message_type_id,
                  advance hdr_len data)
      end
  end.

(** ** unchunk_rtmp_message_body (lines 216-255)

    [body] is what has been copied so far.  The outer [option] is the fuel:
    every turn of the loop takes at least one byte off [data]. *)

Fixpoint unchunk_loop (fuel : nat) (data : list Z)
    (chunk_stream_id message_length : Z) (body : list Z)
  : option (option (list Z * list Z)) :=
  if 0 <? message_length then
    match fuel with
    | O => None
    | S fuel' =>
        let chunk_len :=
          if RTMP_CHUNK_SIZE <? message_length then RTMP_CHUNK_SIZE
          else message_length in
        if size_of data <? chunk_len then Some None
        else
          let body := body ++ take chunk_len data in
          let data := advance chunk_len data in
          let message_length := message_length - chunk_len in
          if 0 <? message_length then
            match basic_header data with
            | None => Some None
            | Some (fmt, id, data) =>
                if negb (fmt =? 3) then Some None
                else if negb (id =? chunk_stream_id) then Some None
                else unchunk_loop fuel' data chunk_stream_id message_length body
            end
          else unchunk_loop fuel' data chunk_stream_id message_length body
    end
  else Some (Some (data, body)).

(** Result: the cursor after the message and the reassembled body. *)
Definition unchunk_rtmp_message_body (data : list Z)
    (chunk_stream_id message_length : Z) : option (list Z * list Z) :=
  match unchunk_loop (S (length data)) data chunk_stream_id message_length []
  with
  | Some r => r
  | None => None
  end.

(** ** duplicate_string (lines 257-286)

    Result: the new string (NUL terminated) and the cursor after it;
    [None] is [nullptr]. *)

Definition duplicate_string (data : list Z) : option (cstring * list Z) :=
  if size_of data <? 1 + 2 then None
  else if negb (byte_at data 0 =? AMF0_TYPE_STRING) then None
  else
    let field_len := wrap16 (Z.shiftl (byte_at data 1) 8 + byte_at data 2) in
    if field_len =? 0 then None
    else
      let data := advance (1 + 2) data in
      if size_of data <? field_len then None
      else
        let str := take field_len data ++ [0] in
        Some (str, advance field_len data).

(** ** skip_property_value (lines 288-337) *)

Definition skip_property_value (data : list Z) : option (list Z) :=
  if size_of data <? 1 then None
  else
    let type := byte_at data 0 in
    let data := advance 1 data in
    if type =? AMF0_TYPE_NUMBER then
      if size_of data <? 8 then None else Some (advance 8 data)
    else if type =? AMF0_TYPE_BOOLEAN then
      if size_of data <? 1 then None else Some (advance 1 data)
    else if type =? AMF0_TYPE_STRING then
      if size_of data <? 2 then None
      else
        let field_len := wrap16 (Z.shiftl (byte_at data 0) 8 + byte_at data 1) in
        let data := advance 2 data in
        if size_of data <? field_len then None
        else Some (advance field_len data)
    else None.

(** ** parse_rtmp_message (lines 339-448) *)

(** One turn of the [do ... while] over the command object (lines 394-437),
    up to the loop test. *)
Inductive PropertyExit : Type :=
  | PropertyBreak (ss : ServiceRTMPData)                   (* end of object *)
  | PropertyFail (ss : ServiceRTMPData)                    (* goto fail *)
  | PropertyNext (ss : ServiceRTMPData) (data : list Z).   (* to the loop test *)

Definition scan_property (ss : ServiceRTMPData) (data : list Z) : PropertyExit :=
  if size_of data <? 3 then PropertyFail ss
  else
    let field_len := wrap16 (Z.shiftl (byte_at data 0) 8 + byte_at data 1) in
    if field_len =? 0 then
      if byte_at data 2 =? AMF0_TYPE_OBJECT_END then PropertyBreak ss
      else PropertyFail ss
    else
      let data := advance 2 data in
      if size_of data <? field_len then PropertyFail ss
      else if match swfUrl ss with None => true | Some _ => false end
              && (field_len =? RTMP_PROPERTY_KEY_SWFURL_LEN)
              && (strncmp data RTMP_PROPERTY_KEY_SWFURL
                    (Z.to_nat RTMP_PROPERTY_KEY_SWFURL_LEN) =? 0)
      then
        let data := advance field_len data in
        match duplicate_string data with
        | Some (str, data) => PropertyNext (set_swfUrl ss (Some str)) data
        | None => PropertyFail (set_swfUrl ss None)
        end
      else if match pageUrl ss with None => true | Some _ => false end
              && (field_len =? RTMP_PROPERTY_KEY_PAGEURL_LEN)
              && (strncmp data RTMP_PROPERTY_KEY_PAGEURL
                    (Z.to_nat RTMP_PROPERTY_KEY_PAGEURL_LEN) =? 0)
      then
        let data := advance field_len data in
        match duplicate_string data with
        | Some (str, data) => PropertyNext (set_pageUrl ss (Some str)) data
        | None => PropertyFail (set_pageUrl ss None)
        end
      else
        let data := advance field_len data in
        match skip_property_value data with
        | Some data => PropertyNext ss data
        | None => PropertyFail ss
        end.

(** The [do ... while (size > 0)] loop (lines 392-439).  The result is
    [ret] and the flow data as the loop leaves it; the outer [option] is
    the fuel. *)
Fixpoint scan_properties_loop (fuel : nat) (ss : ServiceRTMPData)
    (data : list Z) : option (bool * ServiceRTMPData) :=
  match fuel with
  | O => None
  | S fuel' =>
      match scan_property ss data with
      | PropertyBreak ss => Some (true, ss)
      | PropertyFail ss => Some (false, ss)
      | PropertyNext ss data =>
          if 0 <? size_of data then scan_properties_loop fuel' ss data
          else Some (true, ss)
      end
  end.

Definition scan_properties (ss : ServiceRTMPData) (data : list Z)
  : bool * ServiceRTMPData :=
  match scan_properties_loop (S (length data)) ss data with
  | Some r => r
  | None => (false, ss)
  end.

(** The walk over the reassembled body (lines 362-439): [data = body;
    size = msg_len]. *)
Definition parse_command_body (ss : ServiceRTMPData) (data : list Z)
  : bool * ServiceRTMPData :=
  (* Make sure it's a connect command. *)
  if size_of data <? 1 + 2 then (false, ss)
  else if negb (byte_at data 0 =? AMF0_TYPE_STRING) then (false, ss)
  else
    let field_len := wrap16 (Z.shiftl (byte_at data 1) 8 + byte_at data 2) in
    if field_len =? 0 then (false, ss)
    else
      let data := advance (1 + 2) data in
      if size_of data <? field_len then (false, ss)
      else if negb (strncmp data RTMP_COMMAND_TYPE_CONNECT (Z.to_nat field_len)
                    =? 0)
      then (false, ss)
      else
        let data := advance field_len data in
        (* Make sure transaction ID is next. *)
        if size_of data <? 1 + 8 then (false, ss)
        else if negb (byte_at data 0 =? AMF0_TYPE_NUMBER) then (false, ss)
        else
          let data := advance (1 + 8) data in
          (* Make sure we have the command object next. *)
          if size_of data <? 1 then (false, ss)
          else if negb (byte_at data 0 =? AMF0_TYPE_OBJECT) then (false, ss)
          else
            let data := advance 1 data in
            (* Search command object for desired metadata. *)
            scan_properties ss data.

(** Result: [ret], the flow data, and the cursor written back through
    [data_inout] (moved only once the body has been reassembled). *)
Definition parse_rtmp_message (ss : ServiceRTMPData) (data : list Z)
  : bool * ServiceRTMPData * list Z :=
  match parse_rtmp_message_header data with
  | None => (false, ss, data)
  | Some (id, msg_len, msg_type, data') =>
      if negb (msg_type =? RTMP_AMF0_COMMAND_MESSAGE_ID) then (false, ss, data)
      else
        match unchunk_rtmp_message_body data' id msg_len with
        | None => (false, ss, data)
        | Some (data'', body) =>
            (* data = body; size = msg_len, [size] being a uint16_t *)
            let (ret, ss) := parse_command_body ss (take (wrap16 msg_len) body) in
            (ret, ss, data'')
        end
  end.

(** ** The session and the configuration (external to the file)

    Of [AppIdSession], [httpSession] and the module configuration only the
    fields that [rtmp_validate] reads or writes are kept.  The flow data
    that [data_get] returns is the field [flow_data]; [None] is "no state
    attached yet". *)

Record httpSession : Type := mkHttp {
  url : option cstring;
  referer : option cstring
}.

Record AppIdSession : Type := mkSession {
  flow_data : option ServiceRTMPData;
  hsession : option httpSession;
  scan_flags : Z;
  session_packet_count : Z
}.

Record AppIdModuleConfig : Type := mkConfig {
  rtmp_max_packets : Z;
  referred_appId_disabled : bool
}.

(** [args->dir]; the last constructor stands for any other value. *)
Inductive Direction : Type :=
  | APP_ID_FROM_INITIATOR
  | APP_ID_FROM_RESPONDER
  | APP_ID_DIRECTION_OTHER.

Inductive ServiceCode : Type :=
  | SERVICE_SUCCESS
  | SERVICE_INPROCESS
  | SERVICE_NOMATCH.

(** What a call leaves behind: the return code (each comes with the call of
    the matching reporter: [add_service], [service_inprocess],
    [fail_service]), the session, and the strings given to [snort_free]. *)
Record Outcome : Type := mkOutcome {
  ret : ServiceCode;
  asd_out : AppIdSession;
  released : list cstring
}.

Definition set_flow_data (asd : AppIdSession) (ss : ServiceRTMPData) :=
  mkSession (Some ss) (hsession asd) (scan_flags asd) (session_packet_count asd).
Definition set_hsession (asd : AppIdSession) (h : httpSession) :=
  mkSession (flow_data asd) (Some h) (scan_flags asd) (session_packet_count asd).
Definition set_scan_flags (asd : AppIdSession) (f : Z) :=
  mkSession (flow_data asd) (hsession asd) f (session_packet_count asd).

(** [snort_free(p)]: nothing for [nullptr]. *)
Definition snort_free (p : option cstring) : list cstring :=
  match p with
  | Some s => [s]
  | None => []
  end.

(** ** The two switches of rtmp_validate (lines 474-556 and 565-645)

    A [case] block ends in [break], runs into the next label, or jumps to
    [fail]. *)

Inductive BlockExit : Type :=
  | Break (ss : ServiceRTMPData) (data : list Z)
  | FallThrough (ss : ServiceRTMPData) (data : list Z)
  | GotoFail (ss : ServiceRTMPData).

(** Client -> Server (lines 476-552). *)
Definition client_case (label : RTMPState) (ss : ServiceRTMPData)
    (data : list Z) : BlockExit :=
  match label with
  | RTMP_STATE_INIT =>
      (* C0 is just a version number.  Must be valid. *)
      if negb (byte_at data 0 =? RTMP_VER_3) then GotoFail ss
      else Break (set_client_state ss RTMP_STATE_SENT_HANDSHAKE0)
                 (advance 1 data)
  | RTMP_STATE_SENT_HANDSHAKE0 =>
      FallThrough
        (set_client_bytes_left
           (set_client_state ss RTMP_STATE_SENDING_HANDSHAKE1)
           RTMP_HANDSHAKE1_SIZE)
        data
  | RTMP_STATE_SENDING_HANDSHAKE1 =>
      if size_of data <? client_bytes_left ss then
        Break (set_client_bytes_left ss (client_bytes_left ss - size_of data)) []
      else
        Break (set_client_state ss RTMP_STATE_SENT_HANDSHAKE1)
              (advance (client_bytes_left ss) data)
  | RTMP_STATE_SENT_HANDSHAKE1 =>
      (* Client can't start sending C2 until it has received S1. *)
      if state_ltb (server_state ss) RTMP_STATE_SENT_HANDSHAKE1 then GotoFail ss
      else
        FallThrough
          (set_client_bytes_left
             (set_client_state ss RTMP_STATE_SENDING_HANDSHAKE2)
             RTMP_HANDSHAKE2_SIZE)
          data
  | RTMP_STATE_SENDING_HANDSHAKE2 =>
      if size_of data <? client_bytes_left ss then
        Break (set_client_bytes_left ss (client_bytes_left ss - size_of data)) []
      else
        Break (set_client_state ss RTMP_STATE_SENT_HANDSHAKE2)
              (advance (client_bytes_left ss) data)
  | RTMP_STATE_SENT_HANDSHAKE2 =>
      match parse_rtmp_message ss data with
      | (true, ss, data) =>
          (* Got our connect command.  We're done. *)
          FallThrough (set_client_state ss RTMP_STATE_DONE) data
      | (false, ss, _) =>
          (* No connect command found.  Bail out. *)
          GotoFail ss
      end
  | RTMP_STATE_DONE =>
      (* We're done with client, so just blindly consume all data. *)
      Break ss []
  end.

(** Server -> Client (lines 567-641). *)
Definition server_case (label : RTMPState) (ss : ServiceRTMPData)
    (data : list Z) : BlockExit :=
  match label with
  | RTMP_STATE_INIT =>
      (* Client must initiate. *)
      if state_ltb (client_state ss) RTMP_STATE_SENT_HANDSHAKE0 then GotoFail ss
      (* S0 is just a version number.  Must be valid. *)
      else if negb (byte_at data 0 =? RTMP_VER_3) then GotoFail ss
      else Break (set_server_state ss RTMP_STATE_SENT_HANDSHAKE0)
                 (advance 1 data)
  | RTMP_STATE_SENT_HANDSHAKE0 =>
      FallThrough
        (set_server_bytes_left
           (set_server_state ss RTMP_STATE_SENDING_HANDSHAKE1)
           RTMP_HANDSHAKE1_SIZE)
        data
  | RTMP_STATE_SENDING_HANDSHAKE1 =>
      if size_of data <? server_bytes_left ss then
        Break (set_server_bytes_left ss (server_bytes_left ss - size_of data)) []
      else
        Break (set_server_state ss RTMP_STATE_SENT_HANDSHAKE1)
              (advance (server_bytes_left ss) data)
  | RTMP_STATE_SENT_HANDSHAKE1 =>
      (* Server can't start sending S2 until it has received C1. *)
      if state_ltb (client_state ss) RTMP_STATE_SENT_HANDSHAKE1 then GotoFail ss
      else
        FallThrough
          (set_server_bytes_left
             (set_server_state ss RTMP_STATE_SENDING_HANDSHAKE2)
             RTMP_HANDSHAKE2_SIZE)
          data
  | RTMP_STATE_SENDING_HANDSHAKE2 =>
      if size_of data <? server_bytes_left ss then
        (* Not done yet. *)
        Break (set_server_bytes_left ss (server_bytes_left ss - size_of data)) []
      else
        FallThrough (set_server_state ss RTMP_STATE_SENT_HANDSHAKE2)
                    (advance (server_bytes_left ss) data)
  | RTMP_STATE_SENT_HANDSHAKE2 =>
      (* No more interest in watching server. *)
      FallThrough (set_server_state ss RTMP_STATE_DONE) data
  | RTMP_STATE_DONE =>
      (* We're done with server, so just blindly consume all data. *)
      Break ss []
  end.

(** The labels of a switch in the order of the source. *)
Definition case_labels : list RTMPState :=
  [ RTMP_STATE_INIT; RTMP_STATE_SENT_HANDSHAKE0; RTMP_STATE_SENDING_HANDSHAKE1;
    RTMP_STATE_SENT_HANDSHAKE1; RTMP_STATE_SENDING_HANDSHAKE2;
    RTMP_STATE_SENT_HANDSHAKE2; RTMP_STATE_DONE ].

(** The labels from [s] on: where [switch (s)] jumps to.  Every value of
    [RTMPState] has its label, so [default:] is never taken. *)
Fixpoint labels_from (s : RTMPState) (labels : list RTMPState)
  : list RTMPState :=
  match labels with
  | [] => []
  | l :: rest => if state_eq_dec s l then labels else labels_from s rest
  end.

(** The blocks in sequence, from the first of [labels] to a [break], a
    [goto fail], or the end of the switch. *)
Fixpoint run_cases (block : RTMPState -> ServiceRTMPData -> list Z -> BlockExit)
    (labels : list RTMPState) (ss : ServiceRTMPData) (data : list Z)
  : BlockExit :=
  match labels with
  | [] => Break ss data
  | l :: rest =>
      match block l ss data with
      | FallThrough ss data => run_cases block rest ss data
      | exit => exit
      end
  end.

Definition switch (block : RTMPState -> ServiceRTMPData -> list Z -> BlockExit)
    (s : RTMPState) (ss : ServiceRTMPData) (data : list Z) : BlockExit :=
  run_cases block (labels_from s case_labels) ss data.

(** How a [while (size > 0)] loop over a packet ends. *)
Inductive LoopExit : Type :=
  | Consumed (ss : ServiceRTMPData)
  | Failed (ss : ServiceRTMPData).

(** [while (size > 0) switch (state) ...]; the outer [option] is the fuel. *)
Fixpoint consume_packet
    (block : RTMPState -> ServiceRTMPData -> list Z -> BlockExit)
    (state : ServiceRTMPData -> RTMPState)
    (fuel : nat) (ss : ServiceRTMPData) (data : list Z) : option LoopExit :=
  if 0 <? size_of data then
    match fuel with
    | O => None
    | S fuel' =>
        match switch block (state ss) ss data with
        | Break ss data | FallThrough ss data =>
            consume_packet block state fuel' ss data
        | GotoFail ss => Some (Failed ss)
        end
    end
  else Some (Consumed ss).

(** Every turn of the loop either empties the packet or moves the state
    forward, so the loop has at most seven turns. *)
Definition packet_fuel : nat := 8.

(** The loop with [packet_fuel]; should the fuel run out (it does not) the
    result is a failure. *)
Definition consume
    (block : RTMPState -> ServiceRTMPData -> list Z -> BlockExit)
    (state : ServiceRTMPData -> RTMPState)
    (ss : ServiceRTMPData) (data : list Z) : LoopExit :=
  match consume_packet block state packet_fuel ss data with
  | Some e => e
  | None => Failed ss
  end.

(** Lines 472-557. *)
Definition consume_client : ServiceRTMPData -> list Z -> LoopExit :=
  consume client_case client_state.

(** Lines 563-646. *)
Definition consume_server : ServiceRTMPData -> list Z -> LoopExit :=
  consume server_case server_state.

(** The flow data a loop leaves. *)
Definition exit_data (e : LoopExit) : ServiceRTMPData :=
  match e with
  | Consumed ss | Failed ss => ss
  end.

(** ** rtmp_validate (lines 450-707) *)

Section Validator.

(** [SCAN_HTTP_HOST_URL_FLAG], a bit of [scan_flags] declared outside the
    file. *)
Variable SCAN_HTTP_HOST_URL_FLAG : Z.

(** [snort_calloc(sizeof(httpSession))]. *)
Definition fresh_hsession : httpSession := mkHttp None None.

(** [inprocess:] (lines 662-664). *)
Definition inprocess (asd : AppIdSession) : Outcome :=
  mkOutcome SERVICE_INPROCESS asd [].

(** [fail:] (lines 666-672). *)
Definition fail (asd : AppIdSession) (ss : ServiceRTMPData) : Outcome :=
  let freed := snort_free (swfUrl ss) ++ snort_free (pageUrl ss) in
  let ss := set_pageUrl (set_swfUrl ss None) None in
  mkOutcome SERVICE_NOMATCH (set_flow_data asd ss) freed.

(** The hand-over of [swfUrl] (lines 675-690): the session, the flow data
    and the strings freed. *)
Definition hand_over_swfUrl (asd : AppIdSession) (ss : ServiceRTMPData)
  : AppIdSession * ServiceRTMPData * list cstring :=
  match swfUrl ss with
  | Some s =>
      let h := match hsession asd with
               | Some h => h
               | None => fresh_hsession
               end in
      let asd := set_hsession asd h in
      match url h with
      | None =>
          let asd := set_hsession asd (mkHttp (Some s) (referer h)) in
          let asd := set_scan_flags asd
                       (Z.lor (scan_flags asd) SCAN_HTTP_HOST_URL_FLAG) in
          (asd, set_swfUrl ss None, [])
      | Some _ => (asd, set_swfUrl ss None, [s])
      end
  | None => (asd, ss, [])
  end.

(** The hand-over of [pageUrl] (lines 691-702). *)
Definition hand_over_pageUrl (cfg : AppIdModuleConfig) (asd : AppIdSession)
    (ss : ServiceRTMPData) : AppIdSession * ServiceRTMPData * list cstring :=
  match pageUrl ss with
  | Some s =>
      let h := match hsession asd with
               | Some h => h
               | None => fresh_hsession
               end in
      let asd := set_hsession asd h in
      if negb (referred_appId_disabled cfg)
         && match referer h with None => true | Some _ => false end
      then (set_hsession asd (mkHttp (url h) (Some s)), set_pageUrl ss None, [])
      else (asd, set_pageUrl ss None, [s])
  | None => (asd, ss, [])
  end.

(** [success:] (lines 674-706). *)
Definition success (cfg : AppIdModuleConfig) (asd : AppIdSession)
    (ss : ServiceRTMPData) : Outcome :=
  let '(asd, ss, freed1) := hand_over_swfUrl asd ss in
  let '(asd, ss, freed2) := hand_over_pageUrl cfg asd ss in
  mkOutcome SERVICE_SUCCESS (set_flow_data asd ss) (freed1 ++ freed2).

Definition rtmp_validate (cfg : AppIdModuleConfig) (asd : AppIdSession)
    (dir : Direction) (data : list Z) : Outcome :=
  if size_of data =? 0 then inprocess asd
  else
    (* data_get, and data_add of a zeroed block when there is none *)
    let ss := match flow_data asd with
              | Some ss => ss
              | None => fresh_data
              end in
    let consumed :=
      match dir with
      | APP_ID_FROM_INITIATOR => consume_client ss data
      | APP_ID_FROM_RESPONDER => consume_server ss data
      | APP_ID_DIRECTION_OTHER => Consumed ss
      end in
    match consumed with
    | Failed ss => fail asd ss
    | Consumed ss =>
        (* Are we there yet? *)
        if state_eqb (client_state ss) RTMP_STATE_DONE
           && state_eqb (server_state ss) RTMP_STATE_DONE
        then success cfg asd ss
        (* Give up if it's taking us too long to figure out this thing. *)
        else if rtmp_max_packets cfg <=? session_packet_count asd then
          fail asd ss
        else inprocess (set_flow_data asd ss)
    end.

End Validator.

(** The fields the handshake uses are the same in both. *)
Definition same_handshake (ss ss' : ServiceRTMPData) : Prop :=
  client_state ss' = client_state ss /\
  server_state ss' = server_state ss /\
  client_bytes_left ss' = client_bytes_left ss /\
  server_bytes_left ss' = server_bytes_left ss.


(** * What the properties are stated with *)

(** The flow data a call starts from: what [data_get] returns, or the
    zeroed block added when there is none. *)
Definition flow_state (asd : AppIdSession) : ServiceRTMPData :=
  match flow_data asd with
  | Some ss => ss
  | None => fresh_data
  end.

(** The host counts the packets of the session. *)
Definition set_packet_count (asd : AppIdSession) (n : Z) : AppIdSession :=
  mkSession (flow_data asd) (hsession asd) (scan_flags asd) n.

(** Neither success nor failure yet (the test of lines 650-651 fails). *)
Definition indeterminate (ss : ServiceRTMPData) : bool :=
  negb (state_eqb (client_state ss) RTMP_STATE_DONE
        && state_eqb (server_state ss) RTMP_STATE_DONE).

(** The bytes of a string literal, without a NUL. *)
Definition text (s : string) : list Z :=
  map (fun a => Z.of_N (N_of_ascii a)) (list_ascii_of_string s).

(** An AMF0 string value: the tag, the length on two bytes, the bytes. *)
Definition amf0_string (content : list Z) : list Z :=
  [AMF0_TYPE_STRING; size_of content / 256; size_of content mod 256] ++ content.

(** An AMF0 number value; the eight bytes are not looked at. *)
Definition amf0_number : list Z := AMF0_TYPE_NUMBER :: repeat 0 8.

(** A property key: the length on two bytes, the bytes. *)
Definition amf0_key (name : list Z) : list Z :=
  [size_of name / 256; size_of name mod 256] ++ name.

(** The end of an object: an empty key and the object-end tag. *)
Definition amf0_object_end : list Z := [0; 0; AMF0_TYPE_OBJECT_END].

(** A command body whose first value is the string [name] and whose command
    object holds [properties]. *)
Definition command_body (name : list Z) (properties : list Z) : list Z :=
  amf0_string name ++ amf0_number ++ [AMF0_TYPE_OBJECT] ++ properties
  ++ amf0_object_end.

(** A body of at most 128 bytes as one chunk: basic header (format 0, chunk
    stream 3), timestamp, length, type 20, message stream id, body. *)
Definition single_chunk (body : list Z) : list Z :=
  [3; 0; 0; 0; 0; 0; size_of body; RTMP_AMF0_COMMAND_MESSAGE_ID; 0; 0; 0; 0]
  ++ body.

(** ** C4: a call without payload, read as one that applies the ceiling *)

Definition zero_payload_applies_ceiling (flag : Z) (cfg : AppIdModuleConfig)
    (asd : AppIdSession) (dir : Direction) : Prop :=
  let r := rtmp_validate flag cfg asd dir [] in
  asd_out r = asd /\
  ret r = if (rtmp_max_packets cfg <=? session_packet_count asd)
             && indeterminate (flow_state asd)
          then SERVICE_NOMATCH
          else SERVICE_INPROCESS.

(** ** The flow data at the end of the loop over a packet

    What the tests of lines 650-660 see, or what [fail:] starts from. *)
Definition after_packet (asd : AppIdSession) (dir : Direction)
    (data : list Z) : ServiceRTMPData :=
  exit_data
    match dir with
    | APP_ID_FROM_INITIATOR => consume_client (flow_state asd) data
    | APP_ID_FROM_RESPONDER => consume_server (flow_state asd) data
    | APP_ID_DIRECTION_OTHER => Consumed (flow_state asd)
    end.

(** A string the flow holds in [ss] is still held in [ss']. *)
Definition keeps_strings (ss ss' : ServiceRTMPData) : Prop :=
  (forall s, swfUrl ss = Some s -> swfUrl ss' = Some s) /\
  (forall s, pageUrl ss = Some s -> pageUrl ss' = Some s).

(** The fields of the session record the hand-over writes; a session
    without record has them empty. *)
Definition url_of (asd : AppIdSession) : option cstring :=
  match hsession asd with
  | Some h => url h
  | None => None
  end.

Definition referer_of (asd : AppIdSession) : option cstring :=
  match hsession asd with
  | Some h => referer h
  | None => None
  end.

(** ** The order of the states *)

Definition state_le (a b : RTMPState) : Prop := state_value a <= state_value b.

(** Neither side is further back in [ss'] than in [ss]. *)
Definition never_back (ss ss' : ServiceRTMPData) : Prop :=
  state_le (client_state ss) (client_state ss') /\
  state_le (server_state ss) (server_state ss').

(** The order the two sides keep (the three tests of lines 511, 569, 607). *)
Definition handshake_order (ss : ServiceRTMPData) : Prop :=
  (state_value RTMP_STATE_SENT_HANDSHAKE1 < state_value (client_state ss) ->
   state_le RTMP_STATE_SENT_HANDSHAKE1 (server_state ss)) /\
  (state_value RTMP_STATE_INIT < state_value (server_state ss) ->
   state_le RTMP_STATE_SENT_HANDSHAKE0 (client_state ss)) /\
  (state_value RTMP_STATE_SENT_HANDSHAKE1 < state_value (server_state ss) ->
   state_le RTMP_STATE_SENT_HANDSHAKE1 (client_state ss)).

(** ** Sequences of calls

    A call of the validator as the host makes it: the configuration and the
    packet count of the session at that moment, the direction and the
    payload of the packet. *)
Record Call : Type := mkCall {
  call_config : AppIdModuleConfig;
  call_packet_count : Z;
  call_dir : Direction;
  call_data : list Z
}.

Definition validate_call (flag : Z) (asd : AppIdSession) (c : Call) : Outcome :=
  rtmp_validate flag (call_config c)
    (set_packet_count asd (call_packet_count c)) (call_dir c) (call_data c).

(** The session after all of [calls], whatever they return. *)
Fixpoint run_calls (flag : Z) (asd : AppIdSession) (calls : list Call)
  : AppIdSession :=
  match calls with
  | [] => asd
  | c :: rest => run_calls flag (asd_out (validate_call flag asd c)) rest
  end.

(** ** The two sides, uniformly *)







(** ** How the loop over the command object ends well *)



(** ** Deliveries of the bytes of one direction *)

(** The two counters hold values of a [uint16_t]. *)
Definition uint16_fields (ss : ServiceRTMPData) : Prop :=
  0 <= client_bytes_left ss < 65536 /\ 0 <= server_bytes_left ss < 65536.

(** A packet as the host hands it to the validator: the packet count of the
    session at that call, and the payload. *)
Definition Packet : Type := (Z * list Z)%type.

(** The bytes of all the packets, in order. *)
Definition payload (packets : list Packet) : list Z :=
  concat (map snd packets).

(** The classification of the flow after the packets have been delivered
    in order, one call each, in direction [dir].  A failure ends the
    detection for the flow and a success closes it, so the first call that
    returns one of them decides; a flow that has seen neither is still in
    process. *)
Fixpoint deliver (flag : Z) (cfg : AppIdModuleConfig) (dir : Direction)
    (asd : AppIdSession) (packets : list Packet) : ServiceCode :=
  match packets with
  | [] => SERVICE_INPROCESS
  | (count, data) :: rest =>
      let r := rtmp_validate flag cfg (set_packet_count asd count) dir data in
      match ret r with
      | SERVICE_INPROCESS => deliver flag cfg dir (asd_out r) rest
      | code => code
      end
  end.

(** The ceiling is met by none of the calls. *)
Definition below_ceiling (cfg : AppIdModuleConfig) (packets : list Packet)
  : Prop :=
  Forall (fun p => fst p < rtmp_max_packets cfg) packets.

(** C1 as stated, for one way to cut the bytes into packets: the packets
    delivered one by one and their bytes delivered in one call (at packet
    count [count]) are classified alike, the ceiling being met in neither
    run. *)
Definition chunking_invariant (flag : Z) (cfg : AppIdModuleConfig)
    (dir : Direction) (asd : AppIdSession) (packets : list Packet)
    (count : Z) : Prop :=
  below_ceiling cfg packets ->
  count < rtmp_max_packets cfg ->
  deliver flag cfg dir asd packets
  = ret (rtmp_validate flag cfg (set_packet_count asd count) dir
           (payload packets)).

(** A packet other than the last one ends inside the client's command
    message: its call fails with the client in SentHandshake2, the state in
    which [parse_rtmp_message] is given what is left of the packet. *)
Fixpoint command_cut (flag : Z) (cfg : AppIdModuleConfig) (dir : Direction)
    (asd : AppIdSession) (packets : list Packet) : bool :=
  match packets with
  | [] => false
  | (count, data) :: rest =>
      match rest with
      | [] => false
      | _ :: _ =>
          let r := rtmp_validate flag cfg (set_packet_count asd count) dir data in
          match ret r with
          | SERVICE_INPROCESS => command_cut flag cfg dir (asd_out r) rest
          | SERVICE_NOMATCH =>
              match dir with
              | APP_ID_FROM_INITIATOR =>
                  state_eqb (client_state (flow_state (asd_out r)))
                            RTMP_STATE_SENT_HANDSHAKE2
              | _ => false
              end
          | SERVICE_SUCCESS => false
          end
      end
  end.

(** The states that count a budget down. *)
Definition sending (s : RTMPState) : bool :=
  match s with
  | RTMP_STATE_SENDING_HANDSHAKE1 | RTMP_STATE_SENDING_HANDSHAKE2 => true
  | _ => false
  end.

(** Two flow data that the code cannot tell apart: they agree on everything
    but a counter of a side that is not counting (the counter is written
    before it is read again). *)
Definition similar (ss ss' : ServiceRTMPData) : Prop :=
  client_state ss = client_state ss' /\
  server_state ss = server_state ss' /\
  swfUrl ss = swfUrl ss' /\
  pageUrl ss = pageUrl ss' /\
  (sending (client_state ss) = true ->
   client_bytes_left ss = client_bytes_left ss') /\
  (sending (server_state ss) = true ->
   server_bytes_left ss = server_bytes_left ss').

Definition exit_similar (e e' : LoopExit) : Prop :=
  match e, e' with
  | Consumed ss, Consumed ss' => similar ss ss'
  | Failed ss, Failed ss' => similar ss ss'
  | _, _ => False
  end.

Definition block_similar (e e' : BlockExit) : Prop :=
  match e, e' with
  | Break ss d, Break ss' d' => similar ss ss' /\ d = d'
  | FallThrough ss d, FallThrough ss' d' => similar ss ss' /\ d = d'
  | GotoFail ss, GotoFail ss' => similar ss ss'
  | _, _ => False
  end.

(** The loop of a call in direction [dir]. *)
Definition consume_dir (dir : Direction) (ss : ServiceRTMPData)
    (data : list Z) : LoopExit :=
  match dir with
  | APP_ID_FROM_INITIATOR => consume_client ss data
  | APP_ID_FROM_RESPONDER => consume_server ss data
  | APP_ID_DIRECTION_OTHER => Consumed ss
  end.

(** What a call with payload returns when the ceiling is not met. *)
Definition classify (e : LoopExit) : ServiceCode :=
  match e with
  | Failed _ => SERVICE_NOMATCH
  | Consumed ss =>
      if indeterminate ss then SERVICE_INPROCESS else SERVICE_SUCCESS
  end.

(** The handshake fields of [ss0] with the strings of [ss]. *)
Definition with_handshake_of (ss0 ss : ServiceRTMPData) : ServiceRTMPData :=
  mkData (client_state ss0) (server_state ss0) (client_bytes_left ss0)
         (server_bytes_left ss0) (swfUrl ss) (pageUrl ss).

(** [loop] goes over [a] and then [b] as it goes over [a ++ b], up to
    similarity, unless it fails on [a] with flow data that are [excused]. *)
Definition splits_well (excused : ServiceRTMPData -> Prop)
    (loop : ServiceRTMPData -> list Z -> LoopExit)
    (ss : ServiceRTMPData) (a b : list Z) : Prop :=
  match loop ss a with
  | Consumed ss1 => exit_similar (loop ss (a ++ b)) (loop ss1 b)
  | Failed ss1 => excused ss1 \/ exit_similar (loop ss (a ++ b)) (Failed ss1)
  end.

(** The failure of the client's loop that is left out: in SentHandshake2,
    where the command message is parsed. *)
Definition in_command (ss : ServiceRTMPData) : Prop :=
  client_state ss = RTMP_STATE_SENT_HANDSHAKE2.

(** No failure of the server's loop is left out. *)
Definition never_excused (ss : ServiceRTMPData) : Prop := False.

(** The failure that is left out when the loop of direction [dir] is split. *)
Definition cut_in (dir : Direction) (ss : ServiceRTMPData) : Prop :=
  dir = APP_ID_FROM_INITIATOR /\ in_command ss.

(** ** A flow for the examples *)

Definition example_config : AppIdModuleConfig := mkConfig 100 false.

(** The session once the client has sent C0, C1 and C2 and the server S0,
    S1 and S2: the client is in SentHandshake2, the server in Done. *)
Definition after_handshake : AppIdSession :=
  run_calls 4 (mkSession None None 0 0)
    [ mkCall example_config 1 APP_ID_FROM_INITIATOR (3 :: repeat 0 1536);
      mkCall example_config 2 APP_ID_FROM_RESPONDER (3 :: repeat 0 3072);
      mkCall example_config 3 APP_ID_FROM_INITIATOR (repeat 0 1536) ].

(** A [connect] command with an empty command object, in one chunk. *)
Definition connect_message : list Z :=
  single_chunk (command_body (text "connect") []).

(** * The rest of the file, and what its properties are stated with *)

(** ** rtmp_free (lines 134-140)

    The destructor of the flow data: the strings it gives to [snort_free]
    (the block itself goes too). *)
Definition rtmp_free (ss : ServiceRTMPData) : list cstring :=
  snort_free (swfUrl ss) ++ snort_free (pageUrl ss).

(** ** Writers for what the parsers read

    The wire formats of the RTMP chunk stream and of AMF0, written out so
    that reading can be compared with writing. *)

(** A basic header in its shortest form: one byte for chunk stream ids 2 to
    63, two for 64 to 319, three above (the id less 64, low byte first). *)
Definition basic_header_bytes (fmt csid : Z) : list Z :=
  if csid <? 64 then [fmt * 64 + csid]
  else if csid <? 320 then [fmt * 64; csid - 64]
  else [fmt * 64 + 1; (csid - 64) mod 256; (csid - 64) / 256].

(** The message header of a first chunk: basic header, timestamp (3
    bytes), message length (3 bytes, big endian), message type, and for
    format 0 the message stream id (4 bytes). *)
Definition message_header_bytes (fmt csid : Z) (timestamp : list Z)
    (len ty : Z) (stream_id : list Z) : list Z :=
  basic_header_bytes fmt csid ++ timestamp
  ++ [len / 65536; (len / 256) mod 256; len mod 256; ty]
  ++ (if fmt =? 0 then stream_id else []).

(** A message body in chunks of [RTMP_CHUNK_SIZE] bytes, each chunk after
    the first behind the bytes [continuation]; [n] bounds the number of
    chunks. *)
Fixpoint chunks (n : nat) (continuation body : list Z) : list Z :=
  match n with
  | O => body
  | S n' =>
      if size_of body <=? RTMP_CHUNK_SIZE then body
      else take RTMP_CHUNK_SIZE body ++ continuation
           ++ chunks n' continuation (advance RTMP_CHUNK_SIZE body)
  end.

(** The body of a message on chunk stream [csid], as it goes on the wire
    after the message header. *)
Definition chunked (csid : Z) (body : list Z) : list Z :=
  chunks (length body) (basic_header_bytes 3 csid) body.

(** The AMF0 values that [skip_property_value] knows. *)
Inductive Amf0Value : Type :=
  | Amf0Number (bytes : list Z)      (* the 8 bytes of an IEEE double *)
  | Amf0Boolean (b : Z)
  | Amf0String (content : list Z).

Definition amf0_value (v : Amf0Value) : list Z :=
  match v with
  | Amf0Number bytes => AMF0_TYPE_NUMBER :: bytes
  | Amf0Boolean b => [AMF0_TYPE_BOOLEAN; b]
  | Amf0String content => amf0_string content
  end.

(** A value the writer can write: a number has its 8 bytes, the length of a
    string fits its two bytes. *)
Definition value_ok (v : Amf0Value) : Prop :=
  match v with
  | Amf0Number bytes => size_of bytes = 8
  | Amf0Boolean _ => True
  | Amf0String content => size_of content < 65536
  end.

(** A property of an object: its key and its value. *)
Definition Property : Type := (list Z * Amf0Value)%type.

Definition property_bytes (p : Property) : list Z :=
  amf0_key (fst p) ++ amf0_value (snd p).

Definition properties_bytes (props : list Property) : list Z :=
  concat (map property_bytes props).

(** The key is not empty (an empty key is the end of the object) and its
    length fits two bytes. *)
Definition property_ok (p : Property) : Prop :=
  0 < size_of (fst p) < 65536 /\ value_ok (snd p).

(** ** What the loop over the command object does with one property

    Read off lines 409-437: the first [swfUrl] and the first [pageUrl]
    that come while the flow holds none are kept, if they are strings that
    are not empty, and anything else under such a key fails the message;
    every other property is passed over. *)

Definition same_bytes (a b : list Z) : bool :=
  if list_eq_dec Z.eq_dec a b then true else false.

Definition is_null (p : option cstring) : bool :=
  match p with
  | None => true
  | Some _ => false
  end.

(** The string a captured value becomes; [None] when the value cannot be
    captured. *)
Definition captured_string (v : Amf0Value) : option cstring :=
  match v with
  | Amf0String content =>
      if size_of content =? 0 then None else Some (content ++ [0])
  | _ => None
  end.

Definition capture_property (ss : ServiceRTMPData) (p : Property)
  : option ServiceRTMPData :=
  if is_null (swfUrl ss) && same_bytes (fst p) (text "swfUrl") then
    match captured_string (snd p) with
    | Some s => Some (set_swfUrl ss (Some s))
    | None => None
    end
  else if is_null (pageUrl ss) && same_bytes (fst p) (text "pageUrl") then
    match captured_string (snd p) with
    | Some s => Some (set_pageUrl ss (Some s))
    | None => None
    end
  else Some ss.

(** All the properties in order; the flow data at the failure when one of
    them fails. *)
Fixpoint capture (ss : ServiceRTMPData) (props : list Property)
  : bool * ServiceRTMPData :=
  match props with
  | [] => (true, ss)
  | p :: rest =>
      match capture_property ss p with
      | Some ss' => capture ss' rest
      | None => (false, ss)
      end
  end.

(** ** The budgets between calls *)

(** A counter is at most the size of a handshake block, and is not zero
    while its side is counting. *)
Definition budget_ok (ss : ServiceRTMPData) : Prop :=
  0 <= client_bytes_left ss <= RTMP_HANDSHAKE1_SIZE /\
  0 <= server_bytes_left ss <= RTMP_HANDSHAKE1_SIZE /\
  (sending (client_state ss) = true -> 1 <= client_bytes_left ss) /\
  (sending (server_state ss) = true -> 1 <= server_bytes_left ss).

(** The bytes of a packet are values of a [uint8_t]. *)
Definition bytes_ok (data : list Z) : Prop :=
  Forall (fun b => 0 <= b < 256) data.

(** The two strings the flow looks for, their keys, and where the flow
    data holds them. *)
Inductive UrlKey : Type :=
  | SwfUrlKey
  | PageUrlKey.

Definition key_text (which : UrlKey) : list Z :=
  match which with
  | SwfUrlKey => text "swfUrl"
  | PageUrlKey => text "pageUrl"
  end.

Definition held (which : UrlKey) (ss : ServiceRTMPData) : option cstring :=
  match which with
  | SwfUrlKey => swfUrl ss
  | PageUrlKey => pageUrl ss
  end.

(** What the first packet of a flow is answered with: from the client, a
    version byte of 3 followed by at most the 1536 bytes of C1, unless the
    packet count has reached the ceiling; nothing from the server. *)
Definition first_packet_verdict (cfg : AppIdModuleConfig) (count : Z)
    (dir : Direction) (data : list Z) : ServiceCode :=
  let ceiling :=
    if rtmp_max_packets cfg <=? count then SERVICE_NOMATCH
    else SERVICE_INPROCESS in
  match dir with
  | APP_ID_FROM_INITIATOR =>
      if negb (byte_at data 0 =? RTMP_VER_3) then SERVICE_NOMATCH
      else if 1 + RTMP_HANDSHAKE1_SIZE <? size_of data then SERVICE_NOMATCH
      else ceiling
  | APP_ID_FROM_RESPONDER => SERVICE_NOMATCH
  | APP_ID_DIRECTION_OTHER => ceiling
  end.

(** A [connect] command as it is on the wire: the message header with the
    length of the body and the type of an AMF0 command, then the body in
    chunks.  The body is the name, a transaction number and the command
    object with its end marker. *)
Definition connect_body (props : list Property) : list Z :=
  command_body (text "connect") (properties_bytes props).

Definition connect_packet (fmt csid : Z) (timestamp stream_id : list Z)
    (props : list Property) : list Z :=
  message_header_bytes fmt csid timestamp (size_of (connect_body props))
    RTMP_AMF0_COMMAND_MESSAGE_ID stream_id
  ++ chunked csid (connect_body props).

(** The conditions under which [connect_packet] is well formed and fits a
    packet. *)
Definition connect_ok (fmt csid : Z) (timestamp stream_id : list Z)
    (props : list Property) : Prop :=
  (fmt = 0 \/ fmt = 1) /\ 2 <= csid < 65600 /\
  size_of timestamp = 3 /\ size_of stream_id = 4 /\
  Forall property_ok props /\ size_of (connect_body props) < 65536.
(** * Properties *)

Arguments parse_rtmp_message : simpl never.
Arguments parse_command_body : simpl never.
Arguments scan_properties : simpl never.
Arguments wrap16 : simpl never.

(** ** Buffers *)

Lemma size_of_nonneg (data : list Z) : 0 <= size_of data.
Proof. unfold size_of. lia. Qed.

Lemma size_of_app (a b : list Z) : size_of (a ++ b) = size_of a + size_of b.
Proof. unfold size_of. rewrite length_app. lia. Qed.

Lemma size_of_nil_iff (data : list Z) : size_of data = 0 <-> data = [].
Proof.
  unfold size_of. destruct data as [|x data]; simpl; split; intros H;
    try reflexivity; try discriminate; lia.
Qed.

Lemma size_of_advance (n : Z) (data : list Z) :
  0 <= n <= size_of data -> size_of (advance n data) = size_of data - n.
Proof. unfold size_of, advance. intros H. rewrite length_skipn. lia. Qed.

Lemma advance_app (n : Z) (a b : list Z) :
  n <= size_of a -> advance n (a ++ b) = advance n a ++ b.
Proof.
  unfold size_of, advance. intros H. rewrite skipn_app.
  replace (Z.to_nat n - length a)%nat with 0%nat by lia. reflexivity.
Qed.

Lemma advance_app_past (n : Z) (a b : list Z) :
  size_of a <= n -> advance n (a ++ b) = advance (n - size_of a) b.
Proof.
  unfold size_of, advance. intros H. rewrite skipn_app.
  rewrite skipn_all2 by lia. simpl. f_equal. lia.
Qed.

Lemma advance_all (n : Z) (data : list Z) :
  size_of data <= n -> advance n data = [].
Proof. unfold size_of, advance. intros H. apply skipn_all2. lia. Qed.

Lemma take_app (n : Z) (a b : list Z) :
  n <= size_of a -> take n (a ++ b) = take n a.
Proof.
  unfold size_of, take. intros H. rewrite firstn_app.
  replace (Z.to_nat n - length a)%nat with 0%nat by lia.
  simpl. apply app_nil_r.
Qed.

Lemma byte_at_app (a b : list Z) (i : nat) :
  Z.of_nat i < size_of a -> byte_at (a ++ b) i = byte_at a i.
Proof. unfold size_of, byte_at. intros H. apply app_nth1. lia. Qed.

(** ** The packet loops never run out of fuel *)

Lemma state_value_range (s : RTMPState) : 0 <= state_value s <= 6.
Proof. destruct s; simpl; lia. Qed.

Lemma state_value_inj (a b : RTMPState) : state_value a = state_value b -> a = b.
Proof. destruct a, b; simpl; intros H; try reflexivity; discriminate. Qed.

Section PacketLoop.

Variable block : RTMPState -> ServiceRTMPData -> list Z -> BlockExit.
Variable state : ServiceRTMPData -> RTMPState.

(** One turn of the loop empties the packet or moves the state forward. *)
Hypothesis progress : forall ss data,
  match switch block (state ss) ss data with
  | Break ss' data' | FallThrough ss' data' =>
      data' = [] \/ state_value (state ss) < state_value (state ss')
  | GotoFail _ => True
  end.

Lemma consume_packet_S (fuel : nat) (ss : ServiceRTMPData) (data : list Z) :
  consume_packet block state (S fuel) ss data =
  if 0 <? size_of data then
    match switch block (state ss) ss data with
    | Break ss' data' | FallThrough ss' data' =>
        consume_packet block state fuel ss' data'
    | GotoFail ss' => Some (Failed ss')
    end
  else Some (Consumed ss).
Proof. reflexivity. Qed.

Lemma consume_packet_nil (fuel : nat) (ss : ServiceRTMPData) :
  consume_packet block state fuel ss [] = Some (Consumed ss).
Proof. destruct fuel; reflexivity. Qed.

Lemma consume_packet_total (fuel : nat) : forall ss data,
  6 - state_value (state ss) < Z.of_nat fuel ->
  consume_packet block state fuel ss data <> None.
Proof.
  induction fuel as [|fuel IH]; intros ss data Hfuel.
  - pose proof (state_value_range (state ss)). lia.
  - simpl. destruct (0 <? size_of data); [|discriminate].
    pose proof (progress ss data) as Hp.
    destruct (switch block (state ss) ss data) as [ss' d'|ss' d'|ss'];
      try discriminate.
    + destruct Hp as [-> | Hlt].
      * rewrite consume_packet_nil. discriminate.
      * apply IH. lia.
    + destruct Hp as [-> | Hlt].
      * rewrite consume_packet_nil. discriminate.
      * apply IH. lia.
Qed.

Lemma consume_packet_more_fuel (fuel : nat) : forall ss data e,
  consume_packet block state fuel ss data = Some e ->
  consume_packet block state (S fuel) ss data = Some e.
Proof.
  induction fuel as [|fuel IH]; intros ss data e H.
  - simpl in H. simpl. destruct (0 <? size_of data); [discriminate|exact H].
  - rewrite consume_packet_S in H. rewrite consume_packet_S.
    destruct (0 <? size_of data); [|exact H].
    destruct (switch block (state ss) ss data) as [ss' d'|ss' d'|ss'];
      try exact H; apply IH; exact H.
Qed.

Lemma consume_packet_enough (ss : ServiceRTMPData) (data : list Z) :
  consume_packet block state 7 ss data = Some (consume block state ss data).
Proof.
  unfold consume, packet_fuel.
  destruct (consume_packet block state 7 ss data) as [e|] eqn:E.
  - rewrite (consume_packet_more_fuel _ _ _ _ E). reflexivity.
  - exfalso. revert E. apply consume_packet_total.
    pose proof (state_value_range (state ss)). lia.
Qed.

(** The loop, one turn at a time. *)
Lemma consume_unfold (ss : ServiceRTMPData) (data : list Z) :
  consume block state ss data =
  if 0 <? size_of data then
    match switch block (state ss) ss data with
    | Break ss' data' | FallThrough ss' data' => consume block state ss' data'
    | GotoFail ss' => Failed ss'
    end
  else Consumed ss.
Proof.
  unfold consume at 1. unfold packet_fuel. rewrite consume_packet_S.
  destruct (0 <? size_of data); [|reflexivity].
  destruct (switch block (state ss) ss data) as [ss' d'|ss' d'|ss'];
    try reflexivity; rewrite consume_packet_enough; reflexivity.
Qed.

Lemma consume_nil (ss : ServiceRTMPData) : consume block state ss [] = Consumed ss.
Proof. rewrite consume_unfold. reflexivity. Qed.

(** A preorder that every turn of the loop respects relates the flow data
    before the loop and after it. *)
Lemma consume_packet_invariant (R : ServiceRTMPData -> ServiceRTMPData -> Prop) :
  (forall ss, R ss ss) ->
  (forall a b c, R a b -> R b c -> R a c) ->
  (forall ss data,
     match switch block (state ss) ss data with
     | Break ss' _ | FallThrough ss' _ | GotoFail ss' => R ss ss'
     end) ->
  forall fuel ss data e,
    consume_packet block state fuel ss data = Some e -> R ss (exit_data e).
Proof.
  intros Hrefl Htrans Hstep.
  induction fuel as [|fuel IH]; intros ss data e H.
  - simpl in H. destruct (0 <? size_of data); [discriminate|].
    injection H as <-. apply Hrefl.
  - rewrite consume_packet_S in H.
    destruct (0 <? size_of data); [|injection H as <-; apply Hrefl].
    pose proof (Hstep ss data) as Hs.
    destruct (switch block (state ss) ss data) as [ss' d'|ss' d'|ss'].
    + apply (Htrans _ ss'); [exact Hs|]. exact (IH _ _ _ H).
    + apply (Htrans _ ss'); [exact Hs|]. exact (IH _ _ _ H).
    + injection H as <-. exact Hs.
Qed.

Lemma consume_invariant (R : ServiceRTMPData -> ServiceRTMPData -> Prop) :
  (forall ss, R ss ss) ->
  (forall a b c, R a b -> R b c -> R a c) ->
  (forall ss data,
     match switch block (state ss) ss data with
     | Break ss' _ | FallThrough ss' _ | GotoFail ss' => R ss ss'
     end) ->
  forall ss data, R ss (exit_data (consume block state ss data)).
Proof.
  intros Hrefl Htrans Hstep ss data. unfold consume.
  destruct (consume_packet block state packet_fuel ss data) as [e|] eqn:E.
  - exact (consume_packet_invariant R Hrefl Htrans Hstep _ _ _ _ E).
  - apply Hrefl.
Qed.

End PacketLoop.

(** ** The parsers change nothing but the two strings *)

Lemma same_handshake_refl (ss : ServiceRTMPData) : same_handshake ss ss.
Proof. repeat split. Qed.

Lemma same_handshake_trans (a b c : ServiceRTMPData) :
  same_handshake a b -> same_handshake b c -> same_handshake a c.
Proof. unfold same_handshake. intuition congruence. Qed.

Lemma same_handshake_eta (ss ss' : ServiceRTMPData) :
  same_handshake ss ss' ->
  ss' = mkData (client_state ss) (server_state ss) (client_bytes_left ss)
               (server_bytes_left ss) (swfUrl ss') (pageUrl ss').
Proof.
  destruct ss'. unfold same_handshake. simpl.
  intros (-> & -> & -> & ->). reflexivity.
Qed.

Ltac split_branches :=
  repeat match goal with
  | |- context [if ?c then _ else _] => destruct c eqn:?
  | |- context [match ?x with Some _ => _ | None => _ end] => destruct x eqn:?
  | |- context [match ?x with (_, _) => _ end] => destruct x eqn:?
  end.

Lemma scan_property_handshake (ss : ServiceRTMPData) (data : list Z) :
  match scan_property ss data with
  | PropertyBreak ss' | PropertyFail ss' | PropertyNext ss' _ =>
      same_handshake ss ss'
  end.
Proof.
  unfold scan_property. split_branches; repeat split.
Qed.

Lemma scan_properties_loop_handshake (fuel : nat) :
  forall ss data r ss',
    scan_properties_loop fuel ss data = Some (r, ss') -> same_handshake ss ss'.
Proof.
  induction fuel as [|fuel IH]; intros ss data r ss' H; [discriminate|].
  simpl in H. pose proof (scan_property_handshake ss data) as Hs.
  destruct (scan_property ss data) as [s1|s1|s1 d1].
  - injection H as _ <-. exact Hs.
  - injection H as _ <-. exact Hs.
  - destruct (0 <? size_of d1).
    + apply (same_handshake_trans _ s1); [exact Hs|]. exact (IH _ _ _ _ H).
    + injection H as _ <-. exact Hs.
Qed.

Lemma scan_properties_handshake (ss : ServiceRTMPData) (data : list Z) :
  same_handshake ss (snd (scan_properties ss data)).
Proof.
  unfold scan_properties.
  destruct (scan_properties_loop (S (length data)) ss data) as [[r ss']|] eqn:E.
  - exact (scan_properties_loop_handshake _ _ _ _ _ E).
  - apply same_handshake_refl.
Qed.

Lemma parse_command_body_handshake (ss : ServiceRTMPData) (data : list Z) :
  same_handshake ss (snd (parse_command_body ss data)).
Proof.
  unfold parse_command_body.
  split_branches; try apply same_handshake_refl.
  apply scan_properties_handshake.
Qed.

Lemma parse_rtmp_message_handshake (ss : ServiceRTMPData) (data : list Z) :
  same_handshake ss (snd (fst (parse_rtmp_message ss data))).
Proof.
  unfold parse_rtmp_message.
  destruct (parse_rtmp_message_header data) as [[[[id len] ty] d1]|];
    [|apply same_handshake_refl].
  destruct (negb (ty =? RTMP_AMF0_COMMAND_MESSAGE_ID));
    [apply same_handshake_refl|].
  destruct (unchunk_rtmp_message_body d1 id len) as [[d2 body]|];
    [|apply same_handshake_refl].
  pose proof (parse_command_body_handshake ss (take (wrap16 len) body)) as H.
  destruct (parse_command_body ss (take (wrap16 len) body)) as [r ss'].
  exact H.
Qed.

(** ** One turn of each loop *)

(** Opens the branches of a block; the flow data out of
    [parse_rtmp_message] comes with the fields it has kept. *)
Ltac fields :=
  cbn [client_state server_state client_bytes_left server_bytes_left
       swfUrl pageUrl set_client_state set_server_state
       set_client_bytes_left set_server_bytes_left set_swfUrl set_pageUrl
       with_handshake_of sending].

Ltac block_cases :=
  repeat match goal with
  | |- _ => progress fields
  | |- context [match parse_rtmp_message ?ss ?d with _ => _ end] =>
      let H := fresh "Hkept" in
      pose proof (same_handshake_eta _ _ (parse_rtmp_message_handshake ss d)) as H;
      destruct (parse_rtmp_message ss d) as [[[] [? ? ? ? ? ?]] ?] eqn:?;
      cbn [fst snd client_state server_state client_bytes_left
           server_bytes_left swfUrl pageUrl] in H;
      inversion H; subst; clear H
  | |- context [if ?c then _ else _] => destruct c eqn:?
  end.

Lemma client_progress (ss : ServiceRTMPData) (data : list Z) :
  match switch client_case (client_state ss) ss data with
  | Break ss' data' | FallThrough ss' data' =>
      data' = [] \/ state_value (client_state ss) < state_value (client_state ss')
  | GotoFail _ => True
  end.
Proof.
  destruct ss as [cs sv cb sb su pu]; destruct cs; cbn;
    block_cases; cbn; auto; right; lia.
Qed.

Lemma server_progress (ss : ServiceRTMPData) (data : list Z) :
  match switch server_case (server_state ss) ss data with
  | Break ss' data' | FallThrough ss' data' =>
      data' = [] \/ state_value (server_state ss) < state_value (server_state ss')
  | GotoFail _ => True
  end.
Proof.
  destruct ss as [cs sv cb sb su pu]; destruct sv; cbn;
    block_cases; cbn; auto; right; lia.
Qed.

Lemma consume_client_unfold (ss : ServiceRTMPData) (data : list Z) :
  consume_client ss data =
  if 0 <? size_of data then
    match switch client_case (client_state ss) ss data with
    | Break ss' data' | FallThrough ss' data' => consume_client ss' data'
    | GotoFail ss' => Failed ss'
    end
  else Consumed ss.
Proof. exact (consume_unfold _ _ client_progress ss data). Qed.

Lemma consume_server_unfold (ss : ServiceRTMPData) (data : list Z) :
  consume_server ss data =
  if 0 <? size_of data then
    match switch server_case (server_state ss) ss data with
    | Break ss' data' | FallThrough ss' data' => consume_server ss' data'
    | GotoFail ss' => Failed ss'
    end
  else Consumed ss.
Proof. exact (consume_unfold _ _ server_progress ss data). Qed.

(** The fuel of the packet loops is never used up. *)
Lemma consume_client_fuel (ss : ServiceRTMPData) (data : list Z) :
  consume_packet client_case client_state packet_fuel ss data
  = Some (consume_client ss data).
Proof.
  unfold packet_fuel. apply consume_packet_more_fuel.
  exact (consume_packet_enough _ _ client_progress ss data).
Qed.

Lemma consume_server_fuel (ss : ServiceRTMPData) (data : list Z) :
  consume_packet server_case server_state packet_fuel ss data
  = Some (consume_server ss data).
Proof.
  unfold packet_fuel. apply consume_packet_more_fuel.
  exact (consume_packet_enough _ _ server_progress ss data).
Qed.

(** ** C2: the reads of the basic header reader *)

Lemma basic_header_short (data : list Z) :
  let id := Z.land (byte_at data 0) 0x3F in
  size_of data < (if id =? 0 then 2 else if id =? 1 then 3 else 1) ->
  basic_header data = None.
Proof.
  unfold basic_header, parse_rtmp_chunk_basic_header. cbn zeta.
  intros H. destruct (size_of data <? 1) eqn:E1; [reflexivity|].
  cbn. destruct (Z.land (byte_at data 0) 63 =? 0) eqn:E0.
  - destruct (size_of data <? 2) eqn:E2; [reflexivity|]. cbn. lia.
  - destruct (Z.land (byte_at data 0) 63 =? 1) eqn:E3.
    + destruct (size_of data <? 3) eqn:E2; [reflexivity|]. cbn. lia.
    + lia.
Qed.

(** In the one-byte and two-byte forms every read is inside the slice. *)
Lemma basic_header_reads_in_bounds (data : list Z) :
  Z.land (byte_at data 0) 0x3F <> 1 ->
  Forall (fun i => (i < length data)%nat) (basic_header_reads data).
Proof.
  unfold basic_header_reads, parse_rtmp_chunk_basic_header, size_of.
  intros H. destruct (Z.of_nat (length data) <? 1) eqn:E1; [constructor|].
  cbn. destruct (Z.land (byte_at data 0) 63 =? 0) eqn:E0.
  - destruct (Z.of_nat (length data) <? 2) eqn:E2; cbn;
      repeat constructor; lia.
  - destruct (Z.land (byte_at data 0) 63 =? 1) eqn:E3; [lia|].
    cbn. repeat constructor; lia.
Qed.

(** C2, the three-byte form: with raw id 1 and fewer than three bytes the
    reader does return "insufficient data", but only after it has read
    [data[2]], which is past the slice. *)
Theorem basic_header_reads_past_slice (data : list Z) :
  Z.land (byte_at data 0) 0x3F = 1 ->
  (1 <= length data < 3)%nat ->
  basic_header data = None /\
  In 2%nat (basic_header_reads data) /\ (length data <= 2)%nat.
Proof.
  intros Hid Hlen.
  unfold basic_header, basic_header_reads, parse_rtmp_chunk_basic_header, size_of.
  destruct (Z.of_nat (length data) <? 1) eqn:E1; [lia|].
  cbn. rewrite Hid. cbn.
  destruct (Z.of_nat (length data) <? 3) eqn:E3; [|lia].
  cbn. repeat split; lia.
Qed.

Lemma basic_header_reads_past_slice_witness :
  basic_header [1] = None /\
  In 2%nat (basic_header_reads [1]) /\ (length [1] <= 2)%nat.
Proof.
  apply (basic_header_reads_past_slice [1]).
  - reflexivity.
  - simpl. lia.
Defined.

(** ** The three ends of rtmp_validate *)

Lemma rtmp_validate_cases (flag : Z) (cfg : AppIdModuleConfig)
    (asd : AppIdSession) (dir : Direction) (data : list Z) :
  data <> [] ->
  rtmp_validate flag cfg asd dir data =
  match match dir with
        | APP_ID_FROM_INITIATOR => consume_client (flow_state asd) data
        | APP_ID_FROM_RESPONDER => consume_server (flow_state asd) data
        | APP_ID_DIRECTION_OTHER => Consumed (flow_state asd)
        end
  with
  | Failed ss => fail asd ss
  | Consumed ss =>
      if indeterminate ss then
        if rtmp_max_packets cfg <=? session_packet_count asd
        then fail asd ss
        else inprocess (set_flow_data asd ss)
      else success flag cfg asd ss
  end.
Proof.
  intros Hne. unfold rtmp_validate, indeterminate.
  destruct (size_of data =? 0) eqn:E.
  - apply Z.eqb_eq, size_of_nil_iff in E. contradiction.
  - fold (flow_state asd).
    destruct (match dir with
              | APP_ID_FROM_INITIATOR => consume_client (flow_state asd) data
              | APP_ID_FROM_RESPONDER => consume_server (flow_state asd) data
              | APP_ID_DIRECTION_OTHER => Consumed (flow_state asd)
              end) as [ss|ss]; [|reflexivity].
    destruct (state_eqb (client_state ss) RTMP_STATE_DONE
              && state_eqb (server_state ss) RTMP_STATE_DONE); reflexivity.
Qed.

Lemma ret_success (flag : Z) (cfg : AppIdModuleConfig) (asd : AppIdSession)
    (ss : ServiceRTMPData) :
  ret (success flag cfg asd ss) = SERVICE_SUCCESS.
Proof.
  unfold success.
  destruct (hand_over_swfUrl flag asd ss) as [[asd1 ss1] f1].
  destruct (hand_over_pageUrl cfg asd1 ss1) as [[asd2 ss2] f2].
  reflexivity.
Qed.

(** ** C4: a call without payload *)

(** C4, as the code has it: a call that carries no payload byte leaves the
    session, the flow data included, as it is and reports in-process,
    whatever the packet count: the jump of line 459 goes past the test of
    the ceiling.  The ceiling is applied by the calls that carry payload:
    such a call, when its loop leaves the flow indeterminate and the packet
    count has reached the maximum, reports failure. *)
Theorem zero_payload_in_process (flag : Z) (cfg : AppIdModuleConfig)
    (asd : AppIdSession) (dir : Direction) :
  rtmp_validate flag cfg asd dir [] = mkOutcome SERVICE_INPROCESS asd [] /\
  (forall data,
     data <> [] ->
     rtmp_max_packets cfg <= session_packet_count asd ->
     indeterminate (after_packet asd dir data) = true ->
     ret (rtmp_validate flag cfg asd dir data) = SERVICE_NOMATCH).
Proof.
  split; [reflexivity|].
  intros data Hne Hceiling Hind.
  rewrite (rtmp_validate_cases _ _ _ _ _ Hne).
  unfold after_packet in Hind.
  destruct (match dir with
            | APP_ID_FROM_INITIATOR => consume_client (flow_state asd) data
            | APP_ID_FROM_RESPONDER => consume_server (flow_state asd) data
            | APP_ID_DIRECTION_OTHER => Consumed (flow_state asd)
            end) as [ss|ss]; [|reflexivity].
  cbn [exit_data] in Hind. rewrite Hind.
  replace (rtmp_max_packets cfg <=? session_packet_count asd) with true
    by (symmetry; apply Z.leb_le; exact Hceiling).
  reflexivity.
Qed.

Lemma zero_payload_in_process_witness :
  let asd := mkSession None None 0 10 in
  rtmp_validate 4 (mkConfig 10 false) asd APP_ID_FROM_INITIATOR []
  = mkOutcome SERVICE_INPROCESS asd [] /\
  ret (rtmp_validate 4 (mkConfig 10 false) asd APP_ID_FROM_INITIATOR [3])
  = SERVICE_NOMATCH.
Proof.
  intros asd.
  pose proof (zero_payload_in_process 4 (mkConfig 10 false) asd
                APP_ID_FROM_INITIATOR) as [H0 H1].
  split; [exact H0|].
  apply (H1 [3]).
  - discriminate.
  - cbn. lia.
  - reflexivity.
Defined.

(** C4 as stated fails: the flow is indeterminate (the client has sent C0
    only) and the packet count has reached the maximum, yet the call
    without payload does not report failure. *)
Lemma zero_payload_skips_ceiling :
  ~ zero_payload_applies_ceiling 4 (mkConfig 10 false)
      (mkSession
         (Some (mkData RTMP_STATE_SENT_HANDSHAKE0 RTMP_STATE_INIT 0 0 None None))
         None 0 10)
      APP_ID_FROM_INITIATOR.
Proof.
  unfold zero_payload_applies_ceiling. cbn. intros [_ H]. discriminate H.
Qed.

(** ** C3: the command name *)

(** A body whose first string is not a prefix of the name is refused. *)
Lemma play_refused (ss : ServiceRTMPData) :
  parse_rtmp_message ss (single_chunk (command_body (text "play") []))
  = (false, ss, []).
Proof. reflexivity. Qed.

(** C3, where the code departs from it: [strncmp] is bounded by the length
    read from the message and that length is not compared with the length
    of the name, so a first string that is a strict prefix of the name
    (["con"], for one) passes the test of line 375, and a client in
    SentHandshake2 that sends such a command, otherwise well formed, has
    its flow reported as RTMP when the server is done. *)
Theorem connect_prefix_accepted (flag : Z) (cfg : AppIdModuleConfig)
    (asd : AppIdSession) (ss : ServiceRTMPData) (k : nat) :
  flow_data asd = Some ss ->
  client_state ss = RTMP_STATE_SENT_HANDSHAKE2 ->
  server_state ss = RTMP_STATE_DONE ->
  (1 <= k < 7)%nat ->
  let name := firstn k (text "connect") in
  fst (parse_command_body ss (command_body name [])) = true /\
  ret (rtmp_validate flag cfg asd APP_ID_FROM_INITIATOR
         (single_chunk (command_body name [])))
  = SERVICE_SUCCESS.
Proof.
  intros Hflow Hc Hs Hk name. subst name.
  destruct ss as [cs sv cb sb su pu]. simpl in Hc, Hs. subst cs sv.
  assert (Hcases : (k = 1 \/ k = 2 \/ k = 3 \/ k = 4 \/ k = 5 \/ k = 6)%nat)
    by lia.
  split.
  - destruct Hcases as [-> | [-> | [-> | [-> | [-> | ->]]]]]; reflexivity.
  - rewrite rtmp_validate_cases
      by (destruct Hcases as [-> | [-> | [-> | [-> | [-> | ->]]]]]; discriminate).
    unfold flow_state. rewrite Hflow.
    destruct Hcases as [-> | [-> | [-> | [-> | [-> | ->]]]]];
      (match goal with
       | |- ret (match ?c with _ => _ end) = _ =>
           let c' := eval vm_compute in c in
           change c with c'
       end; cbn; apply ret_success).
Qed.

Lemma connect_prefix_accepted_witness :
  fst (parse_command_body
         (mkData RTMP_STATE_SENT_HANDSHAKE2 RTMP_STATE_DONE 0 0 None None)
         (command_body (text "con") [])) = true /\
  ret (rtmp_validate 4 (mkConfig 10 false)
         (mkSession
            (Some (mkData RTMP_STATE_SENT_HANDSHAKE2 RTMP_STATE_DONE 0 0
                          None None))
            None 0 1)
         APP_ID_FROM_INITIATOR
         (single_chunk (command_body (text "con") [])))
  = SERVICE_SUCCESS.
Proof.
  apply (connect_prefix_accepted 4 (mkConfig 10 false)
           (mkSession
              (Some (mkData RTMP_STATE_SENT_HANDSHAKE2 RTMP_STATE_DONE 0 0
                            None None))
              None 0 1)
           (mkData RTMP_STATE_SENT_HANDSHAKE2 RTMP_STATE_DONE 0 0 None None)
           3%nat).
  - reflexivity.
  - reflexivity.
  - reflexivity.
  - lia.
Defined.

(** ** C7: the strings at a failure *)

Lemma keeps_strings_refl (ss : ServiceRTMPData) : keeps_strings ss ss.
Proof. split; auto. Qed.

Lemma keeps_strings_trans (a b c : ServiceRTMPData) :
  keeps_strings a b -> keeps_strings b c -> keeps_strings a c.
Proof. unfold keeps_strings. intros [H1 H2] [H3 H4]. split; auto. Qed.







(** Where a call with payload ends, by the flow data the loop leaves. *)
Lemma rtmp_validate_after_packet (flag : Z) (cfg : AppIdModuleConfig)
    (asd : AppIdSession) (dir : Direction) (data : list Z) :
  data <> [] ->
  let ss := after_packet asd dir data in
  let r := rtmp_validate flag cfg asd dir data in
  r = fail asd ss \/ r = success flag cfg asd ss \/
  r = inprocess (set_flow_data asd ss).
Proof.
  intros Hne. cbn zeta. rewrite (rtmp_validate_cases _ _ _ _ _ Hne).
  unfold after_packet.
  destruct (match dir with
            | APP_ID_FROM_INITIATOR => consume_client (flow_state asd) data
            | APP_ID_FROM_RESPONDER => consume_server (flow_state asd) data
            | APP_ID_DIRECTION_OTHER => Consumed (flow_state asd)
            end) as [ss|ss]; cbn [exit_data]; auto.
  destruct (indeterminate ss); auto.
  destruct (rtmp_max_packets cfg <=? session_packet_count asd); auto.
Qed.



(** ** C8: the hand-over at a success *)

Lemma success_hand_over (flag : Z) (cfg : AppIdModuleConfig)
    (asd : AppIdSession) (ss : ServiceRTMPData) :
  let r := success flag cfg asd ss in
  url_of (asd_out r)
  = match swfUrl ss, url_of asd with
    | Some s, None => Some s
    | _, u => u
    end /\
  referer_of (asd_out r)
  = match pageUrl ss, referer_of asd with
    | Some s, None => if referred_appId_disabled cfg then None else Some s
    | _, u => u
    end /\
  released r
  = match swfUrl ss, url_of asd with
    | Some s, Some _ => [s]
    | _, _ => []
    end
    ++ match pageUrl ss, referer_of asd with
       | Some s, None => if referred_appId_disabled cfg then [s] else []
       | Some s, Some _ => [s]
       | None, _ => []
       end /\
  swfUrl (flow_state (asd_out r)) = None /\
  pageUrl (flow_state (asd_out r)) = None.
Proof.
  destruct ss as [cs sv cb sb su pu]. destruct asd as [fd hs fl n].
  destruct cfg as [mx dis].
  unfold success, hand_over_swfUrl, hand_over_pageUrl, url_of, referer_of.
  destruct su as [s|], pu as [p|], hs as [[[u|] [rf|]]|], dis; cbn;
    repeat split.
Qed.

(** C8: when a call returns the success code, a captured [swfUrl] has gone
    into the URL field of the session record if that field was empty and has
    been freed if not; a captured [pageUrl] has gone into the referer field
    if that field was empty and the referrer is not disabled by the
    configuration, and has been freed if not; and the flow data the call
    leaves has both fields null. *)
Theorem success_hands_strings_over (flag : Z) (cfg : AppIdModuleConfig)
    (asd : AppIdSession) (dir : Direction) (data : list Z) :
  let r := rtmp_validate flag cfg asd dir data in
  let ss := after_packet asd dir data in
  ret r = SERVICE_SUCCESS ->
  url_of (asd_out r)
  = match swfUrl ss, url_of asd with
    | Some s, None => Some s
    | _, u => u
    end /\
  referer_of (asd_out r)
  = match pageUrl ss, referer_of asd with
    | Some s, None => if referred_appId_disabled cfg then None else Some s
    | _, u => u
    end /\
  released r
  = match swfUrl ss, url_of asd with
    | Some s, Some _ => [s]
    | _, _ => []
    end
    ++ match pageUrl ss, referer_of asd with
       | Some s, None => if referred_appId_disabled cfg then [s] else []
       | Some s, Some _ => [s]
       | None, _ => []
       end /\
  swfUrl (flow_state (asd_out r)) = None /\
  pageUrl (flow_state (asd_out r)) = None.
Proof.
  intros r ss Hret.
  destruct data as [|x data]; [discriminate Hret|].
  assert (Hne : x :: data <> []) by discriminate.
  destruct (rtmp_validate_after_packet flag cfg asd dir _ Hne)
    as [H | [H | H]]; fold r in H; fold ss in H.
  - rewrite H in Hret. discriminate.
  - rewrite H. apply success_hand_over.
  - rewrite H in Hret. discriminate.
Qed.

Lemma success_hands_strings_over_witness :
  let asd := mkSession
               (Some (mkData RTMP_STATE_SENT_HANDSHAKE2 RTMP_STATE_DONE 0 0
                             None None))
               (Some (mkHttp None (Some (c_literal "http://z/"%string)))) 0 1 in
  let data := single_chunk
                (command_body (text "connect")
                   (amf0_key (text "swfUrl")
                    ++ amf0_string (text "http://x/y.swf")
                    ++ amf0_key (text "pageUrl")
                    ++ amf0_string (text "http://x/"))) in
  let r := rtmp_validate 4 (mkConfig 10 false) asd APP_ID_FROM_INITIATOR data in
  let ss := after_packet asd APP_ID_FROM_INITIATOR data in
  (swfUrl ss = Some (c_literal "http://x/y.swf"%string) /\
   pageUrl ss = Some (c_literal "http://x/"%string)) /\
  url_of (asd_out r)
  = match swfUrl ss, url_of asd with
    | Some s, None => Some s
    | _, u => u
    end /\
  referer_of (asd_out r)
  = match pageUrl ss, referer_of asd with
    | Some s, None => if referred_appId_disabled (mkConfig 10 false)
                      then None else Some s
    | _, u => u
    end /\
  released r
  = match swfUrl ss, url_of asd with
    | Some s, Some _ => [s]
    | _, _ => []
    end
    ++ match pageUrl ss, referer_of asd with
       | Some s, None => if referred_appId_disabled (mkConfig 10 false)
                         then [s] else []
       | Some s, Some _ => [s]
       | None, _ => []
       end /\
  swfUrl (flow_state (asd_out r)) = None /\
  pageUrl (flow_state (asd_out r)) = None.
Proof.
  intros asd data r ss. split.
  - split; reflexivity.
  - apply (success_hands_strings_over 4 (mkConfig 10 false) asd
             APP_ID_FROM_INITIATOR data).
    reflexivity.
Defined.

(** ** C10: the states never go back *)

Lemma never_back_refl (ss : ServiceRTMPData) : never_back ss ss.
Proof. unfold never_back, state_le. lia. Qed.

Lemma never_back_trans (a b c : ServiceRTMPData) :
  never_back a b -> never_back b c -> never_back a c.
Proof. unfold never_back, state_le. lia. Qed.

Lemma same_handshake_never_back (ss ss' : ServiceRTMPData) :
  same_handshake ss ss' -> never_back ss ss'.
Proof.
  unfold same_handshake, never_back, state_le.
  intros (-> & -> & _). lia.
Qed.

Lemma client_switch_never_back (ss : ServiceRTMPData) (data : list Z) :
  match switch client_case (client_state ss) ss data with
  | Break ss' _ | FallThrough ss' _ | GotoFail ss' => never_back ss ss'
  end.
Proof.
  destruct ss as [cs sv cb sb su pu]; destruct cs; cbn;
    block_cases; cbn; unfold never_back, state_le; cbn; lia.
Qed.

Lemma server_switch_never_back (ss : ServiceRTMPData) (data : list Z) :
  match switch server_case (server_state ss) ss data with
  | Break ss' _ | FallThrough ss' _ | GotoFail ss' => never_back ss ss'
  end.
Proof.
  destruct ss as [cs sv cb sb su pu]; destruct sv; cbn;
    block_cases; cbn; unfold never_back, state_le; cbn; lia.
Qed.

Lemma after_packet_never_back (asd : AppIdSession) (dir : Direction)
    (data : list Z) :
  never_back (flow_state asd) (after_packet asd dir data).
Proof.
  unfold after_packet. destruct dir.
  - exact (consume_invariant client_case client_state never_back
             never_back_refl never_back_trans client_switch_never_back _ _).
  - exact (consume_invariant server_case server_state never_back
             never_back_refl never_back_trans server_switch_never_back _ _).
  - apply never_back_refl.
Qed.

Lemma success_handshake (flag : Z) (cfg : AppIdModuleConfig)
    (asd : AppIdSession) (ss : ServiceRTMPData) :
  same_handshake ss (flow_state (asd_out (success flag cfg asd ss))).
Proof.
  destruct ss as [cs sv cb sb su pu]. destruct asd as [fd hs fl n].
  destruct cfg as [mx dis].
  unfold success, hand_over_swfUrl, hand_over_pageUrl.
  destruct su as [s|], pu as [p|], hs as [[[u|] [rf|]]|], dis; cbn;
    repeat split.
Qed.

(** A call changes the handshake fields of the flow data only in its loop. *)
Lemma rtmp_validate_handshake (flag : Z) (cfg : AppIdModuleConfig)
    (asd : AppIdSession) (dir : Direction) (data : list Z) :
  data <> [] ->
  same_handshake (after_packet asd dir data)
    (flow_state (asd_out (rtmp_validate flag cfg asd dir data))).
Proof.
  intros Hne.
  destruct (rtmp_validate_after_packet flag cfg asd dir _ Hne)
    as [H | [H | H]]; rewrite H.
  - repeat split.
  - apply success_handshake.
  - repeat split.
Qed.

Lemma rtmp_validate_never_back (flag : Z) (cfg : AppIdModuleConfig)
    (asd : AppIdSession) (dir : Direction) (data : list Z) :
  never_back (flow_state asd)
    (flow_state (asd_out (rtmp_validate flag cfg asd dir data))).
Proof.
  destruct data as [|x data].
  - apply never_back_refl.
  - apply (never_back_trans _ (after_packet asd dir (x :: data))).
    + apply after_packet_never_back.
    + apply same_handshake_never_back, rtmp_validate_handshake. discriminate.
Qed.

Lemma run_calls_never_back (flag : Z) (calls : list Call) :
  forall asd, never_back (flow_state asd) (flow_state (run_calls flag asd calls)).
Proof.
  induction calls as [|c calls IH]; intros asd.
  - apply never_back_refl.
  - cbn [run_calls].
    apply (never_back_trans _ (flow_state (asd_out (validate_call flag asd c)))).
    + exact (rtmp_validate_never_back flag (call_config c)
               (set_packet_count asd (call_packet_count c))
               (call_dir c) (call_data c)).
    + apply IH.
Qed.

Lemma never_back_done (ss ss' : ServiceRTMPData) :
  never_back ss ss' ->
  (client_state ss = RTMP_STATE_DONE -> client_state ss' = RTMP_STATE_DONE) /\
  (server_state ss = RTMP_STATE_DONE -> server_state ss' = RTMP_STATE_DONE).
Proof.
  unfold never_back, state_le. intros [Hc Hs].
  pose proof (state_value_range (client_state ss')).
  pose proof (state_value_range (server_state ss')).
  split; intros E; rewrite E in *; apply state_value_inj; cbn in *; lia.
Qed.

(** C10: after a call of the validator, whatever it returns, each side is
    at its state of before the call or past it in the order of the
    enumeration; the same holds after any sequence of calls, so that a side
    in Done stays in Done. *)
Theorem states_never_go_back (flag : Z) :
  (forall cfg asd dir data,
     never_back (flow_state asd)
       (flow_state (asd_out (rtmp_validate flag cfg asd dir data)))) /\
  (forall asd calls,
     let ss := flow_state asd in
     let ss' := flow_state (run_calls flag asd calls) in
     never_back ss ss' /\
     (client_state ss = RTMP_STATE_DONE -> client_state ss' = RTMP_STATE_DONE) /\
     (server_state ss = RTMP_STATE_DONE -> server_state ss' = RTMP_STATE_DONE)).
Proof.
  split.
  - intros. apply rtmp_validate_never_back.
  - intros asd calls ss ss'.
    pose proof (run_calls_never_back flag calls asd) as H.
    split; [exact H|]. apply never_back_done. exact H.
Qed.

(** ** C6: the order between the two sides *)

Lemma client_switch_order (ss : ServiceRTMPData) (data : list Z) :
  match switch client_case (client_state ss) ss data with
  | Break ss' _ | FallThrough ss' _ | GotoFail ss' =>
      handshake_order ss -> handshake_order ss'
  end.
Proof.
  destruct ss as [cs sv cb sb su pu]; destruct cs, sv; cbn;
    block_cases; cbn; unfold handshake_order, state_le; cbn; lia.
Qed.

Lemma server_switch_order (ss : ServiceRTMPData) (data : list Z) :
  match switch server_case (server_state ss) ss data with
  | Break ss' _ | FallThrough ss' _ | GotoFail ss' =>
      handshake_order ss -> handshake_order ss'
  end.
Proof.
  destruct ss as [cs sv cb sb su pu]; destruct cs, sv; cbn;
    block_cases; cbn; unfold handshake_order, state_le; cbn; lia.
Qed.

Lemma after_packet_order (asd : AppIdSession) (dir : Direction)
    (data : list Z) :
  handshake_order (flow_state asd) ->
  handshake_order (after_packet asd dir data).
Proof.
  unfold after_packet. destruct dir.
  - exact (consume_invariant client_case client_state
             (fun a b => handshake_order a -> handshake_order b)
             (fun _ H => H) (fun _ _ _ H1 H2 H => H2 (H1 H))
             client_switch_order _ _).
  - exact (consume_invariant server_case server_state
             (fun a b => handshake_order a -> handshake_order b)
             (fun _ H => H) (fun _ _ _ H1 H2 H => H2 (H1 H))
             server_switch_order _ _).
  - exact (fun H => H).
Qed.

Lemma same_handshake_order (ss ss' : ServiceRTMPData) :
  same_handshake ss ss' -> handshake_order ss -> handshake_order ss'.
Proof.
  unfold same_handshake, handshake_order.
  intros (-> & -> & _). exact (fun H => H).
Qed.

Lemma rtmp_validate_order (flag : Z) (cfg : AppIdModuleConfig)
    (asd : AppIdSession) (dir : Direction) (data : list Z) :
  handshake_order (flow_state asd) ->
  handshake_order (flow_state (asd_out (rtmp_validate flag cfg asd dir data))).
Proof.
  intros H. destruct data as [|x data]; [exact H|].
  apply (same_handshake_order (after_packet asd dir (x :: data))).
  - apply rtmp_validate_handshake. discriminate.
  - apply after_packet_order, H.
Qed.

Lemma run_calls_order (flag : Z) (calls : list Call) :
  forall asd,
    handshake_order (flow_state asd) ->
    handshake_order (flow_state (run_calls flag asd calls)).
Proof.
  induction calls as [|c calls IH]; intros asd H; [exact H|].
  cbn [run_calls]. apply IH.
  exact (rtmp_validate_order flag (call_config c)
           (set_packet_count asd (call_packet_count c))
           (call_dir c) (call_data c) H).
Qed.

Lemma fresh_data_order : handshake_order fresh_data.
Proof. unfold handshake_order, state_le. cbn. lia. Qed.

(** A loop that fails at its first turn fails the call. *)
Lemma rtmp_validate_failed (flag : Z) (cfg : AppIdModuleConfig)
    (asd : AppIdSession) (dir : Direction) (data : list Z) (ss : ServiceRTMPData) :
  data <> [] ->
  match dir with
  | APP_ID_FROM_INITIATOR => consume_client (flow_state asd) data
  | APP_ID_FROM_RESPONDER => consume_server (flow_state asd) data
  | APP_ID_DIRECTION_OTHER => Consumed (flow_state asd)
  end = Failed ss ->
  rtmp_validate flag cfg asd dir data = fail asd ss.
Proof.
  intros Hne H. rewrite (rtmp_validate_cases _ _ _ _ _ Hne), H. reflexivity.
Qed.

Lemma size_of_pos (data : list Z) : data <> [] -> (0 <? size_of data) = true.
Proof.
  intros H. apply Z.ltb_lt. pose proof (size_of_nonneg data).
  destruct (Z.eq_dec (size_of data) 0) as [E|E]; [|lia].
  apply size_of_nil_iff in E. contradiction.
Qed.

(** C6: in the flow data that any sequence of calls leaves, starting from a
    session without flow data, the client is past SentHandshake1 only if the
    server has reached it, the server is past Init only if the client has
    reached SentHandshake0, and the server is past SentHandshake1 only if
    the client has reached it; and a loop that comes with bytes left to the
    client's SentHandshake1 while the server is below it, to the server's
    Init while the client is below SentHandshake0, or to the server's
    SentHandshake1 while the client is below it, jumps to [fail], so that
    the call returns the failure code. *)
Theorem handshake_order_kept (flag : Z) :
  (forall asd calls,
     flow_data asd = None ->
     handshake_order (flow_state (run_calls flag asd calls))) /\
  (forall ss data,
     data <> [] ->
     client_state ss = RTMP_STATE_SENT_HANDSHAKE1 ->
     state_value (server_state ss) < state_value RTMP_STATE_SENT_HANDSHAKE1 ->
     consume_client ss data = Failed ss /\
     forall cfg asd,
       flow_state asd = ss ->
       ret (rtmp_validate flag cfg asd APP_ID_FROM_INITIATOR data)
       = SERVICE_NOMATCH) /\
  (forall ss data,
     data <> [] ->
     server_state ss = RTMP_STATE_INIT ->
     state_value (client_state ss) < state_value RTMP_STATE_SENT_HANDSHAKE0 ->
     consume_server ss data = Failed ss /\
     forall cfg asd,
       flow_state asd = ss ->
       ret (rtmp_validate flag cfg asd APP_ID_FROM_RESPONDER data)
       = SERVICE_NOMATCH) /\
  (forall ss data,
     data <> [] ->
     server_state ss = RTMP_STATE_SENT_HANDSHAKE1 ->
     state_value (client_state ss) < state_value RTMP_STATE_SENT_HANDSHAKE1 ->
     consume_server ss data = Failed ss /\
     forall cfg asd,
       flow_state asd = ss ->
       ret (rtmp_validate flag cfg asd APP_ID_FROM_RESPONDER data)
       = SERVICE_NOMATCH).
Proof.
  split; [|split; [|split]].
  - intros asd calls Hnone. apply run_calls_order.
    unfold flow_state. rewrite Hnone. apply fresh_data_order.
  - intros ss data Hne Hc Hs.
    assert (Hloop : consume_client ss data = Failed ss).
    { rewrite consume_client_unfold, (size_of_pos _ Hne), Hc.
      destruct ss as [cs sv cb sb su pu]. cbn in Hc, Hs. subst cs.
      destruct sv; cbn in Hs; try lia; reflexivity. }
    split; [exact Hloop|]. intros cfg asd <-.
    rewrite (rtmp_validate_failed flag cfg asd APP_ID_FROM_INITIATOR data
               (flow_state asd) Hne Hloop).
    reflexivity.
  - intros ss data Hne Hs Hc.
    assert (Hloop : consume_server ss data = Failed ss).
    { rewrite consume_server_unfold, (size_of_pos _ Hne), Hs.
      destruct ss as [cs sv cb sb su pu]. cbn in Hc, Hs. subst sv.
      destruct cs; cbn in Hc; try lia; reflexivity. }
    split; [exact Hloop|]. intros cfg asd <-.
    rewrite (rtmp_validate_failed flag cfg asd APP_ID_FROM_RESPONDER data
               (flow_state asd) Hne Hloop).
    reflexivity.
  - intros ss data Hne Hs Hc.
    assert (Hloop : consume_server ss data = Failed ss).
    { rewrite consume_server_unfold, (size_of_pos _ Hne), Hs.
      destruct ss as [cs sv cb sb su pu]. cbn in Hc, Hs. subst sv.
      destruct cs; cbn in Hc; try lia; reflexivity. }
    split; [exact Hloop|]. intros cfg asd <-.
    rewrite (rtmp_validate_failed flag cfg asd APP_ID_FROM_RESPONDER data
               (flow_state asd) Hne Hloop).
    reflexivity.
Qed.

Lemma handshake_order_kept_witness :
  handshake_order
    (flow_state
       (run_calls 4 (mkSession None None 0 0)
          [ mkCall (mkConfig 10 false) 1 APP_ID_FROM_INITIATOR [3; 0; 0];
            mkCall (mkConfig 10 false) 2 APP_ID_FROM_RESPONDER [3; 0] ])) /\
  ret (rtmp_validate 4 (mkConfig 10 false)
         (mkSession
            (Some (mkData RTMP_STATE_SENT_HANDSHAKE1 RTMP_STATE_SENT_HANDSHAKE0
                          0 0 None None))
            None 0 3)
         APP_ID_FROM_INITIATOR [0])
  = SERVICE_NOMATCH.
Proof.
  split.
  - apply (proj1 (handshake_order_kept 4)). reflexivity.
  - apply (proj1 (proj2 (handshake_order_kept 4))
             (mkData RTMP_STATE_SENT_HANDSHAKE1 RTMP_STATE_SENT_HANDSHAKE0
                     0 0 None None) [0]).
    + discriminate.
    + reflexivity.
    + cbn. lia.
    + reflexivity.
Defined.

(** ** C5: the budget of a handshake block *)






(** ** C9: the end of the loop over the command object *)

Lemma length_advance_le (n : Z) (data : list Z) :
  (length (advance n data) <= length data)%nat.
Proof. unfold advance. rewrite length_skipn. lia. Qed.

Lemma duplicate_string_shrinks (data : list Z) (s : cstring) (rest : list Z) :
  duplicate_string data = Some (s, rest) -> (length rest <= length data)%nat.
Proof.
  unfold duplicate_string. split_branches; intros H; try discriminate.
  injection H as _ <-.
  etransitivity; [apply length_advance_le|apply length_advance_le].
Qed.

Lemma skip_property_value_shrinks (data rest : list Z) :
  skip_property_value data = Some rest -> (length rest <= length data)%nat.
Proof.
  unfold skip_property_value. split_branches; intros H; try discriminate;
    injection H as <-;
    repeat (etransitivity; [apply length_advance_le|]); lia.
Qed.

(** A complete pair takes at least the two bytes of the key length. *)
Lemma scan_property_shrinks (ss : ServiceRTMPData) (data : list Z)
    (ss' : ServiceRTMPData) (rest : list Z) :
  scan_property ss data = PropertyNext ss' rest ->
  (length rest < length data)%nat.
Proof.
  unfold scan_property.
  destruct (size_of data <? 3) eqn:Esize; [discriminate|].
  assert (Hkey : (length (advance 2 data) < length data)%nat).
  { unfold advance. rewrite length_skipn.
    apply Z.ltb_ge in Esize. unfold size_of in Esize. lia. }
  split_branches; intros H; try discriminate; injection H as _ <-.
  - apply duplicate_string_shrinks in Heqo.
    pose proof (length_advance_le
                  (wrap16 (Z.shiftl (byte_at data 0) 8 + byte_at data 1))
                  (advance 2 data)). lia.
  - apply duplicate_string_shrinks in Heqo.
    pose proof (length_advance_le
                  (wrap16 (Z.shiftl (byte_at data 0) 8 + byte_at data 1))
                  (advance 2 data)). lia.
  - apply skip_property_value_shrinks in Heqo.
    pose proof (length_advance_le
                  (wrap16 (Z.shiftl (byte_at data 0) 8 + byte_at data 1))
                  (advance 2 data)). lia.
Qed.

(** The fuel of the loop is never used up, and more of it changes nothing. *)
Lemma scan_properties_loop_total (fuel : nat) : forall ss data,
  (length data < fuel)%nat ->
  scan_properties_loop fuel ss data <> None.
Proof.
  induction fuel as [|fuel IH]; intros ss data Hfuel; [lia|].
  simpl. destruct (scan_property ss data) as [s1|s1|s1 d1] eqn:E;
    try discriminate.
  destruct (0 <? size_of d1); [|discriminate].
  apply IH. apply scan_property_shrinks in E. lia.
Qed.

Lemma scan_properties_loop_more_fuel (fuel : nat) : forall ss data r,
  scan_properties_loop fuel ss data = Some r ->
  scan_properties_loop (S fuel) ss data = Some r.
Proof.
  induction fuel as [|fuel IH]; intros ss data r H; [discriminate|].
  change (scan_properties_loop (S (S fuel)) ss data) with
    (match scan_property ss data with
     | PropertyBreak ss => Some (true, ss)
     | PropertyFail ss => Some (false, ss)
     | PropertyNext ss data =>
         if 0 <? size_of data then scan_properties_loop (S fuel) ss data
         else Some (true, ss)
     end).
  simpl in H. destruct (scan_property ss data) as [s1|s1|s1 d1];
    try exact H.
  destruct (0 <? size_of d1); [|exact H]. apply IH, H.
Qed.

Lemma scan_properties_loop_enough (fuel : nat) (ss : ServiceRTMPData)
    (data : list Z) :
  (length data < fuel)%nat ->
  scan_properties_loop fuel ss data = Some (scan_properties ss data).
Proof.
  intros Hfuel. unfold scan_properties.
  assert (Hgen : forall k,
            scan_properties_loop (S (length data) + k) ss data
            = scan_properties_loop (S (length data)) ss data).
  { induction k as [|k IHk].
    - f_equal. lia.
    - replace (S (length data) + S k)%nat with (S (S (length data) + k)) by lia.
      destruct (scan_properties_loop (S (length data)) ss data) as [r|] eqn:E.
      + apply scan_properties_loop_more_fuel. exact IHk.
      + exfalso. revert E. apply scan_properties_loop_total. lia. }
  replace fuel with (S (length data) + (fuel - S (length data)))%nat by lia.
  rewrite Hgen.
  destruct (scan_properties_loop (S (length data)) ss data) as [r|] eqn:E;
    [reflexivity|].
  exfalso. revert E. apply scan_properties_loop_total. lia.
Qed.

(** The loop, one turn at a time. *)
Lemma scan_properties_unfold (ss : ServiceRTMPData) (data : list Z) :
  scan_properties ss data =
  match scan_property ss data with
  | PropertyBreak ss' => (true, ss')
  | PropertyFail ss' => (false, ss')
  | PropertyNext ss' data' =>
      if 0 <? size_of data' then scan_properties ss' data' else (true, ss')
  end.
Proof.
  pose proof (scan_properties_loop_enough (S (length data)) ss data
                (Nat.lt_succ_diag_r _)) as H.
  simpl in H.
  destruct (scan_property ss data) as [s1|s1|s1 d1] eqn:E.
  - injection H as <-. reflexivity.
  - injection H as <-. reflexivity.
  - destruct (0 <? size_of d1).
    + rewrite scan_properties_loop_enough in H
        by (apply scan_property_shrinks in E; lia).
      injection H as <-. reflexivity.
    + injection H as <-. reflexivity.
Qed.






(** ** C1: the bytes of a direction cut into packets *)

(** *** Flow data the code cannot tell apart *)

Lemma similar_refl (ss : ServiceRTMPData) : similar ss ss.
Proof. unfold similar. repeat split. Qed.

Lemma exit_similar_refl (e : LoopExit) : exit_similar e e.
Proof. destruct e; apply similar_refl. Qed.

Lemma similar_indeterminate (a b : ServiceRTMPData) :
  similar a b -> indeterminate a = indeterminate b.
Proof. unfold similar, indeterminate. intros (-> & -> & _). reflexivity. Qed.

Lemma exit_similar_classify (a b : LoopExit) :
  exit_similar a b -> classify a = classify b.
Proof.
  destruct a, b; cbn; try tauto. intros H.
  rewrite (similar_indeterminate _ _ H). reflexivity.
Qed.

(** *** The parsers look at the two strings only *)

Lemma scan_property_frame (ss0 ss : ServiceRTMPData) (data : list Z) :
  swfUrl ss0 = swfUrl ss -> pageUrl ss0 = pageUrl ss ->
  scan_property ss0 data =
  match scan_property ss data with
  | PropertyBreak s => PropertyBreak (with_handshake_of ss0 s)
  | PropertyFail s => PropertyFail (with_handshake_of ss0 s)
  | PropertyNext s d => PropertyNext (with_handshake_of ss0 s) d
  end.
Proof.
  destruct ss0 as [c0 s0 cb0 sb0 su0 pu0], ss as [c s cb sb su pu].
  cbn [swfUrl pageUrl]. intros -> ->.
  unfold scan_property, with_handshake_of. cbn [swfUrl pageUrl].
  split_branches; reflexivity.
Qed.

Lemma scan_properties_loop_frame (fuel : nat) : forall ss0 ss data,
  swfUrl ss0 = swfUrl ss -> pageUrl ss0 = pageUrl ss ->
  scan_properties_loop fuel ss0 data =
  match scan_properties_loop fuel ss data with
  | Some (r, s) => Some (r, with_handshake_of ss0 s)
  | None => None
  end.
Proof.
  induction fuel as [|fuel IH]; intros ss0 ss data Hu Hp; [reflexivity|].
  simpl. rewrite (scan_property_frame ss0 ss data Hu Hp).
  destruct (scan_property ss data) as [s1|s1|s1 d1]; try reflexivity.
  destruct (0 <? size_of d1); [|reflexivity].
  rewrite (IH (with_handshake_of ss0 s1) s1 d1) by reflexivity.
  destruct (scan_properties_loop fuel s1 d1) as [[r s2]|]; reflexivity.
Qed.

Lemma parse_command_body_frame (ss0 ss : ServiceRTMPData) (data : list Z) :
  swfUrl ss0 = swfUrl ss -> pageUrl ss0 = pageUrl ss ->
  parse_command_body ss0 data =
  let (r, s) := parse_command_body ss data in (r, with_handshake_of ss0 s).
Proof.
  intros Hu Hp.
  assert (Hself : with_handshake_of ss0 ss = ss0).
  { destruct ss0, ss. cbn in Hu, Hp. subst. reflexivity. }
  unfold parse_command_body.
  split_branches; rewrite ?Hself; try reflexivity;
    try match goal with H : (_, _) = (_, _) |- _ => injection H as <- <- end;
    rewrite ?Hself; try reflexivity.
  all: unfold scan_properties in *;
    rewrite (scan_properties_loop_frame _ ss0 ss _ Hu Hp);
    match goal with
    | H : match ?x with _ => _ end = _ |- _ => destruct x as [[r' s']|]
    end;
    match goal with H : (_, _) = (_, _) |- _ => injection H as <- <- end;
    rewrite ?Hself; reflexivity.
Qed.

Lemma parse_rtmp_message_frame (ss0 ss : ServiceRTMPData) (data : list Z) :
  swfUrl ss0 = swfUrl ss -> pageUrl ss0 = pageUrl ss ->
  parse_rtmp_message ss0 data =
  let '(r, s, d) := parse_rtmp_message ss data in
  (r, with_handshake_of ss0 s, d).
Proof.
  intros Hu Hp.
  assert (Hself : with_handshake_of ss0 ss = ss0).
  { destruct ss0, ss. cbn in Hu, Hp. subst. reflexivity. }
  unfold parse_rtmp_message.
  destruct (parse_rtmp_message_header data) as [[[[id len] ty] d1]|];
    [|rewrite Hself; reflexivity].
  destruct (negb (ty =? RTMP_AMF0_COMMAND_MESSAGE_ID));
    [rewrite Hself; reflexivity|].
  destruct (unchunk_rtmp_message_body d1 id len) as [[d2 body]|];
    [|rewrite Hself; reflexivity].
  rewrite (parse_command_body_frame ss0 ss _ Hu Hp).
  destruct (parse_command_body ss (take (wrap16 len) body)) as [r s].
  reflexivity.
Qed.

Ltac similar_fields :=
  unfold similar; fields;
  repeat split; try assumption; try reflexivity; try (intros; discriminate).

Lemma client_switch_similar (ss ss' : ServiceRTMPData) (data : list Z) :
  similar ss ss' ->
  block_similar (switch client_case (client_state ss) ss data)
                (switch client_case (client_state ss') ss' data).
Proof.
  destruct ss as [c s cb sb su pu], ss' as [c' s' cb' sb' su' pu'].
  unfold similar.
  cbn [client_state server_state client_bytes_left server_bytes_left
       swfUrl pageUrl].
  intros (<- & <- & <- & <- & Hcb & Hsb).
  destruct c; cbn [sending] in Hcb; try (specialize (Hcb eq_refl); subst cb');
    cbn;
    try rewrite (parse_rtmp_message_frame
                   (mkData RTMP_STATE_SENT_HANDSHAKE2 s cb' sb' su pu)
                   (mkData RTMP_STATE_SENT_HANDSHAKE2 s cb sb su pu)
                   data eq_refl eq_refl);
    fields; block_cases; cbn; similar_fields.
Qed.

Lemma server_switch_similar (ss ss' : ServiceRTMPData) (data : list Z) :
  similar ss ss' ->
  block_similar (switch server_case (server_state ss) ss data)
                (switch server_case (server_state ss') ss' data).
Proof.
  destruct ss as [c s cb sb su pu], ss' as [c' s' cb' sb' su' pu'].
  unfold similar.
  cbn [client_state server_state client_bytes_left server_bytes_left
       swfUrl pageUrl].
  intros (<- & <- & <- & <- & Hcb & Hsb).
  destruct s; cbn [sending] in Hsb; try (specialize (Hsb eq_refl); subst sb');
    cbn; fields; block_cases; cbn; similar_fields.
Qed.

Section SimilarLoops.

Variable block : RTMPState -> ServiceRTMPData -> list Z -> BlockExit.
Variable state : ServiceRTMPData -> RTMPState.

Hypothesis switch_similar : forall ss ss' data,
  similar ss ss' ->
  block_similar (switch block (state ss) ss data)
                (switch block (state ss') ss' data).

Lemma consume_packet_similar (fuel : nat) : forall ss ss' data,
  similar ss ss' ->
  match consume_packet block state fuel ss data,
        consume_packet block state fuel ss' data with
  | Some e, Some e' => exit_similar e e'
  | None, None => True
  | _, _ => False
  end.
Proof.
  induction fuel as [|fuel IH]; intros ss ss' data Hsim.
  - simpl. destruct (0 <? size_of data); [exact I|exact Hsim].
  - rewrite !consume_packet_S.
    destruct (0 <? size_of data); [|exact Hsim].
    pose proof (switch_similar ss ss' data Hsim) as Hb.
    destruct (switch block (state ss) ss data) as [s1 d1|s1 d1|s1],
             (switch block (state ss') ss' data) as [s2 d2|s2 d2|s2];
      cbn in Hb; try contradiction.
    + destruct Hb as [Hs <-]. apply IH, Hs.
    + destruct Hb as [Hs <-]. apply IH, Hs.
    + exact Hb.
Qed.

Lemma consume_similar (ss ss' : ServiceRTMPData) (data : list Z) :
  similar ss ss' ->
  exit_similar (consume block state ss data) (consume block state ss' data).
Proof.
  intros Hsim. unfold consume.
  pose proof (consume_packet_similar packet_fuel ss ss' data Hsim) as H.
  destruct (consume_packet block state packet_fuel ss data),
           (consume_packet block state packet_fuel ss' data);
    try contradiction; [exact H|exact Hsim].
Qed.

End SimilarLoops.

Lemma consume_client_similar (ss ss' : ServiceRTMPData) (data : list Z) :
  similar ss ss' ->
  exit_similar (consume_client ss data) (consume_client ss' data).
Proof. exact (consume_similar _ _ client_switch_similar ss ss' data). Qed.

Lemma consume_server_similar (ss ss' : ServiceRTMPData) (data : list Z) :
  similar ss ss' ->
  exit_similar (consume_server ss data) (consume_server ss' data).
Proof. exact (consume_similar _ _ server_switch_similar ss ss' data). Qed.

(** *** The loops, state by state *)

Arguments consume : simpl never.
Arguments consume_client : simpl never.
Arguments consume_server : simpl never.

Lemma app_not_nil (a b : list Z) : a <> [] -> a ++ b <> [].
Proof. destruct a; [contradiction|discriminate]. Qed.

Ltac client_step Hne Hst :=
  rewrite consume_client_unfold, (size_of_pos _ Hne), Hst;
  cbn; fields; block_cases; try reflexivity.

Ltac server_step Hne Hst :=
  rewrite consume_server_unfold, (size_of_pos _ Hne), Hst;
  cbn; fields; block_cases; try reflexivity.

Lemma consume_client_init (ss : ServiceRTMPData) (data : list Z) :
  data <> [] -> client_state ss = RTMP_STATE_INIT ->
  consume_client ss data =
  if negb (byte_at data 0 =? RTMP_VER_3) then Failed ss
  else consume_client (set_client_state ss RTMP_STATE_SENT_HANDSHAKE0)
                      (advance 1 data).
Proof. intros Hne Hst. client_step Hne Hst. Qed.

Lemma consume_client_sending (ss : ServiceRTMPData) (data : list Z)
    (sent : RTMPState) :
  data <> [] ->
  (client_state ss = RTMP_STATE_SENDING_HANDSHAKE1 /\
   sent = RTMP_STATE_SENT_HANDSHAKE1) \/
  (client_state ss = RTMP_STATE_SENDING_HANDSHAKE2 /\
   sent = RTMP_STATE_SENT_HANDSHAKE2) ->
  consume_client ss data =
  if size_of data <? client_bytes_left ss then
    Consumed (set_client_bytes_left ss (client_bytes_left ss - size_of data))
  else consume_client (set_client_state ss sent)
                      (advance (client_bytes_left ss) data).
Proof.
  intros Hne [[Hst ->] | [Hst ->]]; client_step Hne Hst;
    try (rewrite consume_client_unfold; reflexivity).
Qed.

Lemma consume_client_sent0 (ss : ServiceRTMPData) (data : list Z) :
  data <> [] -> client_state ss = RTMP_STATE_SENT_HANDSHAKE0 ->
  consume_client ss data =
  consume_client
    (set_client_bytes_left
       (set_client_state ss RTMP_STATE_SENDING_HANDSHAKE1)
       RTMP_HANDSHAKE1_SIZE)
    data.
Proof.
  intros Hne Hst.
  rewrite (consume_client_unfold ss), (consume_client_unfold (set_client_bytes_left _ _)).
  rewrite (size_of_pos _ Hne), Hst. reflexivity.
Qed.

Lemma consume_client_sent1 (ss : ServiceRTMPData) (data : list Z) :
  data <> [] -> client_state ss = RTMP_STATE_SENT_HANDSHAKE1 ->
  consume_client ss data =
  if state_ltb (server_state ss) RTMP_STATE_SENT_HANDSHAKE1 then Failed ss
  else consume_client
         (set_client_bytes_left
            (set_client_state ss RTMP_STATE_SENDING_HANDSHAKE2)
            RTMP_HANDSHAKE2_SIZE)
         data.
Proof.
  intros Hne Hst.
  rewrite (consume_client_unfold ss), (consume_client_unfold (set_client_bytes_left _ _)).
  rewrite (size_of_pos _ Hne), Hst. cbn.
  destruct (state_ltb (server_state ss) RTMP_STATE_SENT_HANDSHAKE1);
    reflexivity.
Qed.

Lemma consume_client_sent2 (ss : ServiceRTMPData) (data : list Z) :
  data <> [] -> client_state ss = RTMP_STATE_SENT_HANDSHAKE2 ->
  consume_client ss data =
  match parse_rtmp_message ss data with
  | (true, ss', _) => Consumed (set_client_state ss' RTMP_STATE_DONE)
  | (false, ss', _) => Failed ss'
  end.
Proof.
  intros Hne Hst.
  rewrite consume_client_unfold, (size_of_pos _ Hne), Hst. cbn.
  destruct (parse_rtmp_message ss data) as [[[] s'] d']; cbn;
    [apply consume_nil; exact client_progress|reflexivity].
Qed.

Lemma consume_client_done (ss : ServiceRTMPData) (data : list Z) :
  client_state ss = RTMP_STATE_DONE -> consume_client ss data = Consumed ss.
Proof.
  intros Hst. rewrite consume_client_unfold.
  destruct (0 <? size_of data); [|reflexivity].
  rewrite Hst. cbn. apply consume_nil. exact client_progress.
Qed.

Lemma consume_server_done (ss : ServiceRTMPData) (data : list Z) :
  server_state ss = RTMP_STATE_DONE -> consume_server ss data = Consumed ss.
Proof.
  intros Hst. rewrite consume_server_unfold.
  destruct (0 <? size_of data); [|reflexivity].
  rewrite Hst. cbn. apply consume_nil. exact server_progress.
Qed.

Lemma consume_server_init (ss : ServiceRTMPData) (data : list Z) :
  data <> [] -> server_state ss = RTMP_STATE_INIT ->
  consume_server ss data =
  if state_ltb (client_state ss) RTMP_STATE_SENT_HANDSHAKE0 then Failed ss
  else if negb (byte_at data 0 =? RTMP_VER_3) then Failed ss
  else consume_server (set_server_state ss RTMP_STATE_SENT_HANDSHAKE0)
                      (advance 1 data).
Proof. intros Hne Hst. server_step Hne Hst. Qed.

Lemma consume_server_sent0 (ss : ServiceRTMPData) (data : list Z) :
  data <> [] -> server_state ss = RTMP_STATE_SENT_HANDSHAKE0 ->
  consume_server ss data =
  consume_server
    (set_server_bytes_left
       (set_server_state ss RTMP_STATE_SENDING_HANDSHAKE1)
       RTMP_HANDSHAKE1_SIZE)
    data.
Proof.
  intros Hne Hst.
  rewrite (consume_server_unfold ss), (consume_server_unfold (set_server_bytes_left _ _)).
  rewrite (size_of_pos _ Hne), Hst. reflexivity.
Qed.

Lemma consume_server_sending1 (ss : ServiceRTMPData) (data : list Z) :
  data <> [] -> server_state ss = RTMP_STATE_SENDING_HANDSHAKE1 ->
  consume_server ss data =
  if size_of data <? server_bytes_left ss then
    Consumed (set_server_bytes_left ss (server_bytes_left ss - size_of data))
  else consume_server (set_server_state ss RTMP_STATE_SENT_HANDSHAKE1)
                      (advance (server_bytes_left ss) data).
Proof.
  intros Hne Hst. server_step Hne Hst;
    try (rewrite consume_server_unfold; reflexivity).
Qed.

Lemma consume_server_sent1 (ss : ServiceRTMPData) (data : list Z) :
  data <> [] -> server_state ss = RTMP_STATE_SENT_HANDSHAKE1 ->
  consume_server ss data =
  if state_ltb (client_state ss) RTMP_STATE_SENT_HANDSHAKE1 then Failed ss
  else consume_server
         (set_server_bytes_left
            (set_server_state ss RTMP_STATE_SENDING_HANDSHAKE2)
            RTMP_HANDSHAKE2_SIZE)
         data.
Proof.
  intros Hne Hst.
  rewrite (consume_server_unfold ss), (consume_server_unfold (set_server_bytes_left _ _)).
  rewrite (size_of_pos _ Hne), Hst. cbn.
  destruct (state_ltb (client_state ss) RTMP_STATE_SENT_HANDSHAKE1);
    reflexivity.
Qed.

(** Once the budget of S2 is met the switch runs on through
    SentHandshake2 into Done, whatever is left of the packet. *)
Lemma consume_server_sending2 (ss : ServiceRTMPData) (data : list Z) :
  data <> [] -> server_state ss = RTMP_STATE_SENDING_HANDSHAKE2 ->
  consume_server ss data =
  if size_of data <? server_bytes_left ss then
    Consumed (set_server_bytes_left ss (server_bytes_left ss - size_of data))
  else Consumed (set_server_state
                   (set_server_state ss RTMP_STATE_SENT_HANDSHAKE2)
                   RTMP_STATE_DONE).
Proof.
  intros Hne Hst. server_step Hne Hst;
    try (rewrite consume_server_unfold; reflexivity).
Qed.

Lemma consume_server_sent2 (ss : ServiceRTMPData) (data : list Z) :
  data <> [] -> server_state ss = RTMP_STATE_SENT_HANDSHAKE2 ->
  consume_server ss data = Consumed (set_server_state ss RTMP_STATE_DONE).
Proof.
  intros Hne Hst. server_step Hne Hst;
    try (rewrite consume_server_unfold; reflexivity).
Qed.

(** *** A message that parses still parses with more bytes after it *)

(** The header reader without its log. *)
Lemma basic_header_eq (data : list Z) :
  basic_header data =
  if size_of data <? 1 then None
  else
    let format := Z.shiftr (Z.land (byte_at data 0) 0xC0) 6 in
    let id := Z.land (byte_at data 0) 0x3F in
    if id =? 0 then
      if size_of data <? 2 then None
      else Some (format, byte_at data 1 + 64, advance 2 data)
    else if id =? 1 then
      if size_of data <? 3 then None
      else Some (format, byte_at data 2 * 256 + byte_at data 1 + 64,
                 advance 3 data)
    else Some (format, id, advance 1 data).
Proof.
  unfold basic_header, parse_rtmp_chunk_basic_header.
  destruct (size_of data <? 1); [reflexivity|].
  cbn [read and_then done snd fst]. cbv zeta.
  destruct (Z.land (byte_at data 0) 63 =? 0).
  - destruct (size_of data <? 2); reflexivity.
  - destruct (Z.land (byte_at data 0) 63 =? 1); [|reflexivity].
    destruct (size_of data <? 3); reflexivity.
Qed.

Lemma basic_header_app (a b : list Z) (h : BasicHeader) :
  basic_header a = Some h ->
  basic_header (a ++ b)
  = Some (fst (fst h), snd (fst h), snd h ++ b).
Proof.
  rewrite !basic_header_eq, size_of_app. cbv zeta.
  pose proof (size_of_nonneg b) as Hb.
  destruct (size_of a <? 1) eqn:E1; [discriminate|].
  apply Z.ltb_ge in E1.
  replace (size_of a + size_of b <? 1) with false
    by (symmetry; apply Z.ltb_ge; lia).
  rewrite (byte_at_app a b 0) by (cbn; lia).
  destruct (Z.land (byte_at a 0) 63 =? 0).
  - destruct (size_of a <? 2) eqn:E2; [discriminate|].
    apply Z.ltb_ge in E2.
    replace (size_of a + size_of b <? 2) with false
      by (symmetry; apply Z.ltb_ge; lia).
    intros H. injection H as <-. cbn [fst snd].
    rewrite (byte_at_app a b 1) by (cbn; lia).
    rewrite advance_app by lia. reflexivity.
  - destruct (Z.land (byte_at a 0) 63 =? 1).
    + destruct (size_of a <? 3) eqn:E3; [discriminate|].
      apply Z.ltb_ge in E3.
      replace (size_of a + size_of b <? 3) with false
        by (symmetry; apply Z.ltb_ge; lia).
      intros H. injection H as <-. cbn [fst snd].
      rewrite (byte_at_app a b 1), (byte_at_app a b 2) by (cbn; lia).
      rewrite advance_app by lia. reflexivity.
    + intros H. injection H as <-. cbn [fst snd].
      rewrite advance_app by lia. reflexivity.
Qed.

Lemma parse_rtmp_message_header_app (a b : list Z) (id len ty : Z)
    (d : list Z) :
  parse_rtmp_message_header a = Some (id, len, ty, d) ->
  parse_rtmp_message_header (a ++ b) = Some (id, len, ty, d ++ b).
Proof.
  unfold parse_rtmp_message_header.
  destruct (basic_header a) as [[[fmt csid] d1]|] eqn:Eh; [|discriminate].
  rewrite (basic_header_app a b _ Eh). cbn [fst snd].
  pose proof (size_of_nonneg b) as Hb.
  assert (Hgen : forall n,
            0 <= n -> 7 <= n ->
            (if size_of d1 <? n then None
             else Some (csid,
                        wrap32 (Z.shiftl (byte_at d1 3) 16
                                + Z.shiftl (byte_at d1 4) 8 + byte_at d1 5),
                        byte_at d1 6, advance n d1))
            = Some (id, len, ty, d) ->
            (if size_of (d1 ++ b) <? n then None
             else Some (csid,
                        wrap32 (Z.shiftl (byte_at (d1 ++ b) 3) 16
                                + Z.shiftl (byte_at (d1 ++ b) 4) 8
                                + byte_at (d1 ++ b) 5),
                        byte_at (d1 ++ b) 6, advance n (d1 ++ b)))
            = Some (id, len, ty, d ++ b)).
  { intros n Hn0 Hn7. rewrite size_of_app.
    destruct (size_of d1 <? n) eqn:E; [discriminate|].
    apply Z.ltb_ge in E.
    replace (size_of d1 + size_of b <? n) with false
      by (symmetry; apply Z.ltb_ge; lia).
    rewrite !byte_at_app by (cbn; lia).
    rewrite advance_app by lia.
    intros H. injection H as <- <- <- <-. reflexivity. }
  destruct (fmt =? 0); [apply Hgen; lia|].
  destruct (fmt =? 1); [apply Hgen; lia|discriminate].
Qed.

Lemma unchunk_loop_app (b : list Z) (fuel : nat) :
  forall a id len body d bd,
    unchunk_loop fuel a id len body = Some (Some (d, bd)) ->
    unchunk_loop fuel (a ++ b) id len body = Some (Some (d ++ b, bd)).
Proof.
  pose proof (size_of_nonneg b) as Hb.
  induction fuel as [|fuel IH]; intros a id len body d bd H.
  - simpl in *. destruct (0 <? len); [discriminate|].
    injection H as <- <-. reflexivity.
  - simpl in *. destruct (0 <? len) eqn:Elen;
      [|injection H as <- <-; reflexivity].
    apply Z.ltb_lt in Elen.
    set (chunk_len := if RTMP_CHUNK_SIZE <? len then RTMP_CHUNK_SIZE else len)
      in *.
    assert (Hchunk : 0 < chunk_len).
    { subst chunk_len. destruct (RTMP_CHUNK_SIZE <? len);
        [reflexivity|exact Elen]. }
    rewrite size_of_app.
    destruct (size_of a <? chunk_len) eqn:Esize; [discriminate|].
    apply Z.ltb_ge in Esize.
    replace (size_of a + size_of b <? chunk_len) with false
      by (symmetry; apply Z.ltb_ge; lia).
    rewrite take_app, advance_app by lia.
    destruct (0 <? len - chunk_len).
    + destruct (basic_header (advance chunk_len a)) as [[[fmt csid] d1]|] eqn:Eh;
        [|discriminate].
      rewrite (basic_header_app _ b _ Eh). cbn [fst snd].
      destruct (negb (fmt =? 3)); [discriminate|].
      destruct (negb (csid =? id)); [discriminate|].
      apply IH, H.
    + apply IH, H.
Qed.

Lemma unchunk_loop_more_fuel (fuel : nat) : forall a id len body r,
  unchunk_loop fuel a id len body = Some r ->
  unchunk_loop (S fuel) a id len body = Some r.
Proof.
  induction fuel as [|fuel IH]; intros a id len body r H.
  - simpl in *. destruct (0 <? len); [discriminate|exact H].
  - remember (S fuel) as fuel1 eqn:Ef. simpl. rewrite Ef in H. simpl in H.
    destruct (0 <? len); [|exact H].
    destruct (size_of a <?
              (if RTMP_CHUNK_SIZE <? len then RTMP_CHUNK_SIZE else len));
      [exact H|].
    destruct (0 <? len -
              (if RTMP_CHUNK_SIZE <? len then RTMP_CHUNK_SIZE else len)).
    + destruct (basic_header _) as [[[fmt csid] d1]|]; [|exact H].
      destruct (negb (fmt =? 3)); [exact H|].
      destruct (negb (csid =? id)); [exact H|].
      apply IH, H.
    + apply IH, H.
Qed.

Lemma unchunk_loop_fuel_le (fuel fuel' : nat) (a : list Z) (id len : Z)
    (body : list Z) (r : option (list Z * list Z)) :
  (fuel <= fuel')%nat ->
  unchunk_loop fuel a id len body = Some r ->
  unchunk_loop fuel' a id len body = Some r.
Proof.
  induction 1 as [|fuel' _ IH]; intros H; [exact H|].
  apply unchunk_loop_more_fuel, IH, H.
Qed.

(** The fuel of the reassembly is never used up. *)
Lemma unchunk_loop_total (fuel : nat) : forall a id len body,
  (length a < fuel)%nat -> unchunk_loop fuel a id len body <> None.
Proof.
  induction fuel as [|fuel IH]; intros a id len body Hfuel; [lia|].
  simpl. destruct (0 <? len) eqn:Elen; [|discriminate].
  apply Z.ltb_lt in Elen.
  set (chunk_len := if RTMP_CHUNK_SIZE <? len then RTMP_CHUNK_SIZE else len).
  assert (Hchunk : 0 < chunk_len).
  { subst chunk_len. destruct (RTMP_CHUNK_SIZE <? len);
      [reflexivity|exact Elen]. }
  destruct (size_of a <? chunk_len) eqn:Esize; [discriminate|].
  apply Z.ltb_ge in Esize.
  assert (Hshort : (length (advance chunk_len a) < fuel)%nat).
  { unfold advance. rewrite length_skipn. unfold size_of in Esize. lia. }
  destruct (0 <? len - chunk_len).
  - destruct (basic_header (advance chunk_len a)) as [[[fmt csid] d1]|] eqn:Eh;
      [|discriminate].
    destruct (negb (fmt =? 3)); [discriminate|].
    destruct (negb (csid =? id)); [discriminate|].
    apply IH.
    assert (Hd1 : (length d1 <= length (advance chunk_len a))%nat).
    { rewrite basic_header_eq in Eh. cbv zeta in Eh.
      revert Eh. split_branches; intros Eh; try discriminate;
        injection Eh as _ _ <-; apply length_advance_le. }
    lia.
  - apply IH. exact Hshort.
Qed.

Lemma unchunk_rtmp_message_body_app (a b : list Z) (id len : Z)
    (d body : list Z) :
  unchunk_rtmp_message_body a id len = Some (d, body) ->
  unchunk_rtmp_message_body (a ++ b) id len = Some (d ++ b, body).
Proof.
  unfold unchunk_rtmp_message_body.
  destruct (unchunk_loop (S (length a)) a id len []) as [r|] eqn:E;
    [|discriminate].
  intros ->.
  apply (unchunk_loop_app b) in E.
  rewrite (unchunk_loop_fuel_le (S (length a)) (S (length (a ++ b))) _ _ _ _ _
             ltac:(rewrite length_app; lia) E).
  reflexivity.
Qed.

Lemma parse_rtmp_message_app (ss : ServiceRTMPData) (a b : list Z)
    (ss' : ServiceRTMPData) (d : list Z) :
  parse_rtmp_message ss a = (true, ss', d) ->
  parse_rtmp_message ss (a ++ b) = (true, ss', d ++ b).
Proof.
  unfold parse_rtmp_message.
  destruct (parse_rtmp_message_header a) as [[[[id len] ty] d1]|] eqn:Eh;
    [|discriminate].
  rewrite (parse_rtmp_message_header_app a b _ _ _ _ Eh).
  destruct (negb (ty =? RTMP_AMF0_COMMAND_MESSAGE_ID)); [discriminate|].
  destruct (unchunk_rtmp_message_body d1 id len) as [[d2 body]|] eqn:Eu;
    [|discriminate].
  rewrite (unchunk_rtmp_message_body_app d1 b _ _ _ _ Eu).
  destruct (parse_command_body ss (take (wrap16 len) body)) as [r s].
  intros H. injection H as -> -> ->. reflexivity.
Qed.

(** *** A loop over two packets and over their bytes in one *)

Lemma wrap16_small (z : Z) : 0 <= z < 65536 -> wrap16 z = z.
Proof. unfold wrap16. intros H. apply Z.mod_small. exact H. Qed.

Lemma wrap16_range (z : Z) : 0 <= wrap16 z < 65536.
Proof. unfold wrap16. apply Z.mod_pos_bound. reflexivity. Qed.

Lemma consume_client_nil (ss : ServiceRTMPData) :
  consume_client ss [] = Consumed ss.
Proof. rewrite consume_client_unfold. reflexivity. Qed.

Lemma consume_server_nil (ss : ServiceRTMPData) :
  consume_server ss [] = Consumed ss.
Proof. rewrite consume_server_unfold. reflexivity. Qed.

Lemma set_client_bytes_left_twice (ss : ServiceRTMPData) (x y : Z) :
  set_client_bytes_left (set_client_bytes_left ss x) y
  = set_client_bytes_left ss y.
Proof. reflexivity. Qed.

Lemma set_server_bytes_left_twice (ss : ServiceRTMPData) (x y : Z) :
  set_server_bytes_left (set_server_bytes_left ss x) y
  = set_server_bytes_left ss y.
Proof. reflexivity. Qed.

(** The client counting a budget down: part of the budget in [a], or all
    of it and then on with what follows. *)
Lemma client_sending_app (b : list Z) (ss : ServiceRTMPData) (a : list Z)
    (sent : RTMPState) :
  a <> [] ->
  (client_state ss = RTMP_STATE_SENDING_HANDSHAKE1 /\
   sent = RTMP_STATE_SENT_HANDSHAKE1) \/
  (client_state ss = RTMP_STATE_SENDING_HANDSHAKE2 /\
   sent = RTMP_STATE_SENT_HANDSHAKE2) ->
  uint16_fields ss ->
  (forall a', splits_well in_command consume_client
                (set_client_state ss sent) a' b) ->
  splits_well in_command consume_client ss a b.
Proof.
  intros Hne Hphase [Hcb _] IH. unfold splits_well.
  pose proof (app_not_nil a b Hne) as Hne'.
  rewrite (consume_client_sending ss a sent Hne Hphase).
  rewrite (consume_client_sending ss (a ++ b) sent Hne' Hphase).
  rewrite size_of_app.
  pose proof (size_of_nonneg a) as Ha. pose proof (size_of_nonneg b) as Hb.
  destruct (size_of a <? client_bytes_left ss) eqn:E1.
  - apply Z.ltb_lt in E1.
    set (ss1 := set_client_bytes_left ss (client_bytes_left ss - size_of a)).
    assert (Hleft : client_bytes_left ss1 = client_bytes_left ss - size_of a).
    { subst ss1. cbn. apply wrap16_small. lia. }
    assert (Hphase1 :
              (client_state ss1 = RTMP_STATE_SENDING_HANDSHAKE1 /\
               sent = RTMP_STATE_SENT_HANDSHAKE1) \/
              (client_state ss1 = RTMP_STATE_SENDING_HANDSHAKE2 /\
               sent = RTMP_STATE_SENT_HANDSHAKE2)) by exact Hphase.
    destruct b as [|y b'].
    + rewrite consume_client_nil.
      replace (size_of a + size_of [] <? client_bytes_left ss) with true
        by (symmetry; apply Z.ltb_lt; cbn; lia).
      replace (client_bytes_left ss - (size_of a + size_of []))
        with (client_bytes_left ss - size_of a) by (cbn; lia).
      apply similar_refl.
    + assert (Hbne : y :: b' <> []) by discriminate.
      rewrite (consume_client_sending ss1 _ sent Hbne Hphase1), Hleft.
      destruct (size_of a + size_of (y :: b') <? client_bytes_left ss) eqn:E2.
      * apply Z.ltb_lt in E2.
        replace (size_of (y :: b') <? client_bytes_left ss - size_of a)
          with true by (symmetry; apply Z.ltb_lt; lia).
        subst ss1. rewrite set_client_bytes_left_twice.
        replace (client_bytes_left ss - size_of a - size_of (y :: b'))
          with (client_bytes_left ss - (size_of a + size_of (y :: b')))
          by lia.
        apply similar_refl.
      * apply Z.ltb_ge in E2.
        replace (size_of (y :: b') <? client_bytes_left ss - size_of a)
          with false by (symmetry; apply Z.ltb_ge; lia).
        rewrite advance_app_past by lia.
        apply consume_client_similar.
        subst ss1. destruct Hphase as [[_ ->] | [_ ->]]; similar_fields.
  - apply Z.ltb_ge in E1.
    replace (size_of a + size_of b <? client_bytes_left ss) with false
      by (symmetry; apply Z.ltb_ge; lia).
    rewrite advance_app by lia.
    apply IH.
Qed.

Lemma uint16_fields_client_bytes_left (ss : ServiceRTMPData) (n : Z) :
  uint16_fields ss -> uint16_fields (set_client_bytes_left ss n).
Proof. intros [_ H]. split; [apply wrap16_range|exact H]. Qed.

Lemma uint16_fields_server_bytes_left (ss : ServiceRTMPData) (n : Z) :
  uint16_fields ss -> uint16_fields (set_server_bytes_left ss n).
Proof. intros [H _]. split; [exact H|apply wrap16_range]. Qed.

Lemma consume_client_app (b : list Z) (n : nat) : forall ss a,
  6 - state_value (client_state ss) < Z.of_nat n ->
  uint16_fields ss ->
  splits_well in_command consume_client ss a b.
Proof.
  induction n as [|n IH]; intros ss a Hn Hwf.
  { pose proof (state_value_range (client_state ss)). lia. }
  destruct a as [|x a'].
  { unfold splits_well. rewrite consume_client_nil. apply exit_similar_refl. }
  assert (Hne : x :: a' <> []) by discriminate.
  pose proof (app_not_nil _ b Hne) as Hne'.
  destruct (client_state ss) eqn:Hst.
  - (* Init *)
    unfold splits_well.
    rewrite (consume_client_init ss _ Hne Hst).
    rewrite (consume_client_init ss _ Hne' Hst).
    change (byte_at ((x :: a') ++ b) 0) with x.
    change (byte_at (x :: a') 0) with x.
    destruct (negb (x =? RTMP_VER_3)).
    + right. apply similar_refl.
    + change (advance 1 (x :: a')) with a'.
      change (advance 1 ((x :: a') ++ b)) with (a' ++ b).
      apply IH; [cbn; cbn in Hn; lia|exact Hwf].
  - (* SentHandshake0 *)
    unfold splits_well.
    rewrite (consume_client_sent0 ss _ Hne Hst).
    rewrite (consume_client_sent0 ss _ Hne' Hst).
    apply IH; [cbn; cbn in Hn; lia|].
    apply uint16_fields_client_bytes_left, Hwf.
  - (* SendingHandshake1 *)
    apply (client_sending_app b ss _ RTMP_STATE_SENT_HANDSHAKE1 Hne);
      [left; split; [exact Hst|reflexivity]|exact Hwf|].
    intros a0. apply IH; [cbn; cbn in Hn; lia|exact Hwf].
  - (* SentHandshake1 *)
    unfold splits_well.
    rewrite (consume_client_sent1 ss _ Hne Hst).
    rewrite (consume_client_sent1 ss _ Hne' Hst).
    destruct (state_ltb (server_state ss) RTMP_STATE_SENT_HANDSHAKE1).
    + right. apply similar_refl.
    + apply IH; [cbn; cbn in Hn; lia|].
      apply uint16_fields_client_bytes_left, Hwf.
  - (* SendingHandshake2 *)
    apply (client_sending_app b ss _ RTMP_STATE_SENT_HANDSHAKE2 Hne);
      [right; split; [exact Hst|reflexivity]|exact Hwf|].
    intros a0. apply IH; [cbn; cbn in Hn; lia|exact Hwf].
  - (* SentHandshake2 *)
    unfold splits_well.
    rewrite (consume_client_sent2 ss _ Hne Hst).
    rewrite (consume_client_sent2 ss _ Hne' Hst).
    pose proof (parse_rtmp_message_handshake ss (x :: a')) as Hkept.
    destruct (parse_rtmp_message ss (x :: a')) as [[[] s'] d'] eqn:Ep.
    + rewrite (parse_rtmp_message_app ss _ b _ _ Ep).
      rewrite consume_client_done by reflexivity. apply similar_refl.
    + left. unfold in_command. cbn in Hkept. destruct Hkept as (Hc & _).
      rewrite Hc. exact Hst.
  - (* Done *)
    unfold splits_well.
    rewrite !consume_client_done by exact Hst. apply similar_refl.
Qed.

(** The server counting the budget of S1 down. *)
Lemma server_sending1_app (b : list Z) (ss : ServiceRTMPData) (a : list Z) :
  a <> [] ->
  server_state ss = RTMP_STATE_SENDING_HANDSHAKE1 ->
  uint16_fields ss ->
  (forall a', splits_well never_excused consume_server
                (set_server_state ss RTMP_STATE_SENT_HANDSHAKE1) a' b) ->
  splits_well never_excused consume_server ss a b.
Proof.
  intros Hne Hst [_ Hsb] IH. unfold splits_well.
  pose proof (app_not_nil a b Hne) as Hne'.
  rewrite (consume_server_sending1 ss a Hne Hst).
  rewrite (consume_server_sending1 ss (a ++ b) Hne' Hst).
  rewrite size_of_app.
  pose proof (size_of_nonneg a) as Ha. pose proof (size_of_nonneg b) as Hb.
  destruct (size_of a <? server_bytes_left ss) eqn:E1.
  - apply Z.ltb_lt in E1.
    set (ss1 := set_server_bytes_left ss (server_bytes_left ss - size_of a)).
    assert (Hleft : server_bytes_left ss1 = server_bytes_left ss - size_of a).
    { subst ss1. cbn. apply wrap16_small. lia. }
    assert (Hst1 : server_state ss1 = RTMP_STATE_SENDING_HANDSHAKE1)
      by exact Hst.
    destruct b as [|y b'].
    + rewrite consume_server_nil.
      replace (size_of a + size_of [] <? server_bytes_left ss) with true
        by (symmetry; apply Z.ltb_lt; cbn; lia).
      replace (server_bytes_left ss - (size_of a + size_of []))
        with (server_bytes_left ss - size_of a) by (cbn; lia).
      apply similar_refl.
    + assert (Hbne : y :: b' <> []) by discriminate.
      rewrite (consume_server_sending1 ss1 _ Hbne Hst1), Hleft.
      destruct (size_of a + size_of (y :: b') <? server_bytes_left ss) eqn:E2.
      * apply Z.ltb_lt in E2.
        replace (size_of (y :: b') <? server_bytes_left ss - size_of a)
          with true by (symmetry; apply Z.ltb_lt; lia).
        subst ss1. rewrite set_server_bytes_left_twice.
        replace (server_bytes_left ss - size_of a - size_of (y :: b'))
          with (server_bytes_left ss - (size_of a + size_of (y :: b')))
          by lia.
        apply similar_refl.
      * apply Z.ltb_ge in E2.
        replace (size_of (y :: b') <? server_bytes_left ss - size_of a)
          with false by (symmetry; apply Z.ltb_ge; lia).
        rewrite advance_app_past by lia.
        apply consume_server_similar.
        subst ss1. similar_fields.
  - apply Z.ltb_ge in E1.
    replace (size_of a + size_of b <? server_bytes_left ss) with false
      by (symmetry; apply Z.ltb_ge; lia).
    rewrite advance_app by lia.
    apply IH.
Qed.

(** The server counting the budget of S2 down: once it is met the loop is
    over, in Done. *)
Lemma server_sending2_app (b : list Z) (ss : ServiceRTMPData) (a : list Z) :
  a <> [] ->
  server_state ss = RTMP_STATE_SENDING_HANDSHAKE2 ->
  uint16_fields ss ->
  splits_well never_excused consume_server ss a b.
Proof.
  intros Hne Hst [_ Hsb]. unfold splits_well.
  pose proof (app_not_nil a b Hne) as Hne'.
  rewrite (consume_server_sending2 ss a Hne Hst).
  rewrite (consume_server_sending2 ss (a ++ b) Hne' Hst).
  rewrite size_of_app.
  pose proof (size_of_nonneg a) as Ha. pose proof (size_of_nonneg b) as Hb.
  destruct (size_of a <? server_bytes_left ss) eqn:E1.
  - apply Z.ltb_lt in E1.
    set (ss1 := set_server_bytes_left ss (server_bytes_left ss - size_of a)).
    assert (Hleft : server_bytes_left ss1 = server_bytes_left ss - size_of a).
    { subst ss1. cbn. apply wrap16_small. lia. }
    assert (Hst1 : server_state ss1 = RTMP_STATE_SENDING_HANDSHAKE2)
      by exact Hst.
    destruct b as [|y b'].
    + rewrite consume_server_nil.
      replace (size_of a + size_of [] <? server_bytes_left ss) with true
        by (symmetry; apply Z.ltb_lt; cbn; lia).
      replace (server_bytes_left ss - (size_of a + size_of []))
        with (server_bytes_left ss - size_of a) by (cbn; lia).
      apply similar_refl.
    + assert (Hbne : y :: b' <> []) by discriminate.
      rewrite (consume_server_sending2 ss1 _ Hbne Hst1), Hleft.
      destruct (size_of a + size_of (y :: b') <? server_bytes_left ss) eqn:E2.
      * apply Z.ltb_lt in E2.
        replace (size_of (y :: b') <? server_bytes_left ss - size_of a)
          with true by (symmetry; apply Z.ltb_lt; lia).
        subst ss1. rewrite set_server_bytes_left_twice.
        replace (server_bytes_left ss - size_of a - size_of (y :: b'))
          with (server_bytes_left ss - (size_of a + size_of (y :: b')))
          by lia.
        apply similar_refl.
      * apply Z.ltb_ge in E2.
        replace (size_of (y :: b') <? server_bytes_left ss - size_of a)
          with false by (symmetry; apply Z.ltb_ge; lia).
        subst ss1. similar_fields.
  - apply Z.ltb_ge in E1.
    replace (size_of a + size_of b <? server_bytes_left ss) with false
      by (symmetry; apply Z.ltb_ge; lia).
    rewrite consume_server_done by reflexivity. apply similar_refl.
Qed.

Lemma consume_server_app (b : list Z) (n : nat) : forall ss a,
  6 - state_value (server_state ss) < Z.of_nat n ->
  uint16_fields ss ->
  splits_well never_excused consume_server ss a b.
Proof.
  induction n as [|n IH]; intros ss a Hn Hwf.
  { pose proof (state_value_range (server_state ss)). lia. }
  destruct a as [|x a'].
  { unfold splits_well. rewrite consume_server_nil. apply exit_similar_refl. }
  assert (Hne : x :: a' <> []) by discriminate.
  pose proof (app_not_nil _ b Hne) as Hne'.
  destruct (server_state ss) eqn:Hst.
  - (* Init *)
    unfold splits_well.
    rewrite (consume_server_init ss _ Hne Hst).
    rewrite (consume_server_init ss _ Hne' Hst).
    change (byte_at ((x :: a') ++ b) 0) with x.
    change (byte_at (x :: a') 0) with x.
    destruct (state_ltb (client_state ss) RTMP_STATE_SENT_HANDSHAKE0).
    { right. apply similar_refl. }
    destruct (negb (x =? RTMP_VER_3)).
    + right. apply similar_refl.
    + change (advance 1 (x :: a')) with a'.
      change (advance 1 ((x :: a') ++ b)) with (a' ++ b).
      apply IH; [cbn; cbn in Hn; lia|exact Hwf].
  - (* SentHandshake0 *)
    unfold splits_well.
    rewrite (consume_server_sent0 ss _ Hne Hst).
    rewrite (consume_server_sent0 ss _ Hne' Hst).
    apply IH; [cbn; cbn in Hn; lia|].
    apply uint16_fields_server_bytes_left, Hwf.
  - (* SendingHandshake1 *)
    apply (server_sending1_app b ss _ Hne Hst Hwf).
    intros a0. apply IH; [cbn; cbn in Hn; lia|exact Hwf].
  - (* SentHandshake1 *)
    unfold splits_well.
    rewrite (consume_server_sent1 ss _ Hne Hst).
    rewrite (consume_server_sent1 ss _ Hne' Hst).
    destruct (state_ltb (client_state ss) RTMP_STATE_SENT_HANDSHAKE1).
    + right. apply similar_refl.
    + apply IH; [cbn; cbn in Hn; lia|].
      apply uint16_fields_server_bytes_left, Hwf.
  - (* SendingHandshake2 *)
    exact (server_sending2_app b ss _ Hne Hst Hwf).
  - (* SentHandshake2 *)
    unfold splits_well.
    rewrite (consume_server_sent2 ss _ Hne Hst).
    rewrite (consume_server_sent2 ss _ Hne' Hst).
    rewrite consume_server_done by reflexivity. apply similar_refl.
  - (* Done *)
    unfold splits_well.
    rewrite !consume_server_done by exact Hst. apply similar_refl.
Qed.

(** *** From the loops to the calls *)

Lemma consume_dir_nil (dir : Direction) (ss : ServiceRTMPData) :
  consume_dir dir ss [] = Consumed ss.
Proof.
  destruct dir; cbn;
    [apply consume_client_nil|apply consume_server_nil|reflexivity].
Qed.

Lemma consume_dir_app (dir : Direction) (ss : ServiceRTMPData) (a b : list Z) :
  uint16_fields ss ->
  splits_well (cut_in dir) (consume_dir dir) ss a b.
Proof.
  intros Hwf. destruct dir; unfold splits_well; cbn [consume_dir].
  - pose proof (consume_client_app b 7 ss a) as H.
    unfold splits_well in H.
    destruct (consume_client ss a) as [ss1|ss1].
    + apply H; [|exact Hwf].
      pose proof (state_value_range (client_state ss)). lia.
    + destruct H as [H | H]; [| |left; split; [reflexivity|exact H]
                                   |right; exact H];
        [|exact Hwf].
      pose proof (state_value_range (client_state ss)). lia.
  - pose proof (consume_server_app b 7 ss a) as H.
    unfold splits_well in H.
    destruct (consume_server ss a) as [ss1|ss1].
    + apply H; [|exact Hwf].
      pose proof (state_value_range (server_state ss)). lia.
    + destruct H as [H | H]; [| |contradiction|right; exact H];
        [|exact Hwf].
      pose proof (state_value_range (server_state ss)). lia.
  - apply similar_refl.
Qed.

(** A side in Done takes whatever comes. *)
Lemma consume_dir_done (dir : Direction) (ss : ServiceRTMPData)
    (data : list Z) :
  indeterminate ss = false -> consume_dir dir ss data = Consumed ss.
Proof.
  unfold indeterminate, state_eqb. intros H.
  apply negb_false_iff, andb_true_iff in H. destruct H as [Hc Hs].
  apply Z.eqb_eq, state_value_inj in Hc.
  apply Z.eqb_eq, state_value_inj in Hs.
  destruct dir; cbn;
    [apply consume_client_done, Hc|apply consume_server_done, Hs|reflexivity].
Qed.

(** What a call with payload returns below the ceiling, and the flow data
    it leaves when it returns in-process. *)
Lemma rtmp_validate_classify (flag : Z) (cfg : AppIdModuleConfig)
    (asd : AppIdSession) (dir : Direction) (data : list Z) :
  data <> [] ->
  session_packet_count asd < rtmp_max_packets cfg ->
  let r := rtmp_validate flag cfg asd dir data in
  let e := consume_dir dir (flow_state asd) data in
  ret r = classify e /\
  (ret r = SERVICE_INPROCESS -> flow_state (asd_out r) = exit_data e) /\
  (ret r = SERVICE_NOMATCH ->
   client_state (flow_state (asd_out r)) = client_state (exit_data e)).
Proof.
  intros Hne Hcount. cbn zeta.
  rewrite (rtmp_validate_cases _ _ _ _ _ Hne).
  fold (consume_dir dir (flow_state asd) data).
  destruct (consume_dir dir (flow_state asd) data) as [ss|ss]; cbn [classify].
  - destruct (indeterminate ss).
    + replace (rtmp_max_packets cfg <=? session_packet_count asd) with false
        by (symmetry; apply Z.leb_gt; exact Hcount).
      repeat split; intros H; try discriminate H; reflexivity.
    + rewrite ret_success. repeat split; intros H; discriminate H.
  - repeat split; intros H; try discriminate H; reflexivity.
Qed.

Lemma client_switch_uint16 (ss : ServiceRTMPData) (data : list Z) :
  match switch client_case (client_state ss) ss data with
  | Break ss' _ | FallThrough ss' _ | GotoFail ss' =>
      uint16_fields ss -> uint16_fields ss'
  end.
Proof.
  destruct ss as [cs sv cb sb su pu]; destruct cs; cbn;
    block_cases; cbn; unfold uint16_fields; cbn;
    intros [H1 H2]; (split; [|exact H2]);
    first [exact H1 | apply wrap16_range].
Qed.

Lemma server_switch_uint16 (ss : ServiceRTMPData) (data : list Z) :
  match switch server_case (server_state ss) ss data with
  | Break ss' _ | FallThrough ss' _ | GotoFail ss' =>
      uint16_fields ss -> uint16_fields ss'
  end.
Proof.
  destruct ss as [cs sv cb sb su pu]; destruct sv; cbn;
    block_cases; cbn; unfold uint16_fields; cbn;
    intros [H1 H2]; (split; [exact H1|]);
    first [exact H2 | apply wrap16_range].
Qed.

Lemma consume_dir_uint16 (dir : Direction) (ss : ServiceRTMPData)
    (data : list Z) :
  uint16_fields ss -> uint16_fields (exit_data (consume_dir dir ss data)).
Proof.
  destruct dir; cbn [consume_dir].
  - exact (consume_invariant client_case client_state
             (fun a b => uint16_fields a -> uint16_fields b)
             (fun _ H => H) (fun _ _ _ H1 H2 H => H2 (H1 H))
             client_switch_uint16 _ _).
  - exact (consume_invariant server_case server_state
             (fun a b => uint16_fields a -> uint16_fields b)
             (fun _ H => H) (fun _ _ _ H1 H2 H => H2 (H1 H))
             server_switch_uint16 _ _).
  - exact (fun H => H).
Qed.

Lemma set_packet_count_twice (asd : AppIdSession) (n m : Z) :
  set_packet_count (set_packet_count asd n) m = set_packet_count asd m.
Proof. reflexivity. Qed.

Lemma command_cut_rest (flag : Z) (cfg : AppIdModuleConfig) (dir : Direction)
    (asd : AppIdSession) (count : Z) (data : list Z) (rest : list Packet) :
  command_cut flag cfg dir asd ((count, data) :: rest) = false ->
  ret (rtmp_validate flag cfg (set_packet_count asd count) dir data)
  = SERVICE_INPROCESS ->
  command_cut flag cfg dir
    (asd_out (rtmp_validate flag cfg (set_packet_count asd count) dir data))
    rest = false.
Proof.
  intros Hcut Hret. destruct rest as [|p rest]; [reflexivity|].
  cbn [command_cut] in Hcut. rewrite Hret in Hcut. exact Hcut.
Qed.

Lemma deliver_cons (flag : Z) (cfg : AppIdModuleConfig) (dir : Direction)
    (asd : AppIdSession) (count : Z) (data : list Z) (rest : list Packet) :
  deliver flag cfg dir asd ((count, data) :: rest) =
  let r := rtmp_validate flag cfg (set_packet_count asd count) dir data in
  match ret r with
  | SERVICE_INPROCESS => deliver flag cfg dir (asd_out r) rest
  | code => code
  end.
Proof. reflexivity. Qed.

(** Only the client's packets can end inside the command message. *)
Lemma command_cut_other_dir (flag : Z) (cfg : AppIdModuleConfig)
    (dir : Direction) (packets : list Packet) :
  dir <> APP_ID_FROM_INITIATOR ->
  forall asd, command_cut flag cfg dir asd packets = false.
Proof.
  intros Hdir.
  induction packets as [|[c a] rest IH]; intros asd; [reflexivity|].
  destruct rest as [|p rest]; [reflexivity|].
  cbn [command_cut].
  destruct (ret (rtmp_validate flag cfg (set_packet_count asd c) dir a)).
  - reflexivity.
  - apply IH.
  - destruct dir; [contradiction|reflexivity|reflexivity].
Qed.

(** C1, as the code has it: the packets of one direction delivered one by
    one and their bytes delivered in one call are classified alike, the
    ceiling being met in neither run, for the server's direction always and
    for the client's direction when no packet but the last ends inside the
    command message.  (The client's C0, C1 and C2 can be cut anywhere; the
    command message is parsed from what one call brings, since nothing is
    kept of a message that is not yet complete.) *)
Theorem chunking_outside_command (flag : Z) (cfg : AppIdModuleConfig)
    (dir : Direction) (packets : list Packet) :
  forall (asd : AppIdSession) (count : Z),
    uint16_fields (flow_state asd) ->
    below_ceiling cfg packets ->
    count < rtmp_max_packets cfg ->
    dir <> APP_ID_FROM_INITIATOR \/
    command_cut flag cfg dir asd packets = false ->
    deliver flag cfg dir asd packets
    = ret (rtmp_validate flag cfg (set_packet_count asd count) dir
             (payload packets)).
Proof.
  intros asd count Hwf Hbelow Hcount Hor.
  assert (Hcut : command_cut flag cfg dir asd packets = false).
  { destruct Hor as [Hdir | Hcut]; [|exact Hcut].
    apply command_cut_other_dir, Hdir. }
  clear Hor. revert asd count Hwf Hbelow Hcount Hcut.
  induction packets as [|[c1 a] rest IH]; intros asd count Hwf Hbelow Hcount Hcut.
  { reflexivity. }
  inversion Hbelow as [|p ps Hc1 Hrest]; subst. cbn [fst] in Hc1.
  rewrite deliver_cons. cbn zeta.
  change (payload ((c1, a) :: rest)) with (a ++ payload rest).
  set (asd1 := set_packet_count asd c1) in *.
  set (r1 := rtmp_validate flag cfg asd1 dir a) in *.
  destruct a as [|x a'].
  - (* nothing in the first packet *)
    change (ret r1) with SERVICE_INPROCESS. cbv iota.
    change (asd_out r1) with asd1.
    rewrite (IH asd1 count Hwf Hrest Hcount).
    + subst asd1. rewrite set_packet_count_twice. reflexivity.
    + exact (command_cut_rest flag cfg dir asd c1 [] rest Hcut eq_refl).
  - assert (Hne : x :: a' <> []) by discriminate.
    destruct (rtmp_validate_classify flag cfg asd1 dir (x :: a') Hne Hc1)
      as (Hret & Hflow & Hfail).
    fold r1 in Hret, Hflow, Hfail.
    change (flow_state asd1) with (flow_state asd) in Hret, Hflow, Hfail.
    pose proof (consume_dir_app dir (flow_state asd) (x :: a') (payload rest)
                  Hwf) as Hsplit.
    unfold splits_well in Hsplit.
    pose proof (consume_dir_uint16 dir (flow_state asd) (x :: a') Hwf) as Hwf1.
    destruct (rtmp_validate_classify flag cfg (set_packet_count asd count) dir
                ((x :: a') ++ payload rest) (app_not_nil _ _ Hne) Hcount)
      as (Hone & _ & _).
    change (flow_state (set_packet_count asd count)) with (flow_state asd)
      in Hone.
    rewrite Hone.
    destruct (consume_dir dir (flow_state asd) (x :: a')) as [ss1|ss1] eqn:E1;
      cbn [classify exit_data] in *.
    + destruct (indeterminate ss1) eqn:Eind.
      * (* in process: on with the rest *)
        rewrite Hret. specialize (Hflow Hret).
        rewrite (IH (asd_out r1) count); try assumption.
        -- destruct (payload rest) as [|y p] eqn:Ep.
           ++ rewrite consume_dir_nil in Hsplit.
              rewrite (exit_similar_classify _ _ Hsplit). cbn.
              rewrite Eind. reflexivity.
           ++ assert (Hpne : y :: p <> []) by discriminate.
              destruct (rtmp_validate_classify flag cfg
                          (set_packet_count (asd_out r1) count) dir
                          (y :: p) Hpne Hcount) as (Hrt & _ & _).
              change (flow_state (set_packet_count (asd_out r1) count))
                with (flow_state (asd_out r1)) in Hrt.
              rewrite Hrt, Hflow.
              symmetry. apply exit_similar_classify, Hsplit.
        -- rewrite Hflow. exact Hwf1.
        -- exact (command_cut_rest flag cfg dir asd c1 _ rest Hcut Hret).
      * (* success: the rest changes nothing *)
        rewrite Hret.
        rewrite (consume_dir_done dir ss1 (payload rest) Eind) in Hsplit.
        rewrite (exit_similar_classify _ _ Hsplit). cbn.
        rewrite Eind. reflexivity.
    + (* failure *)
      rewrite Hret. specialize (Hfail Hret).
      destruct rest as [|p rest'].
      * change (payload []) with (@nil Z). rewrite app_nil_r, E1. reflexivity.
      * destruct Hsplit as [[Hdir Hin] | Hsim].
        -- exfalso. cbn [command_cut] in Hcut. fold asd1 in Hcut.
           fold r1 in Hcut. rewrite Hret, Hdir in Hcut.
           unfold in_command in Hin. rewrite Hfail, Hin in Hcut.
           discriminate Hcut.
        -- rewrite (exit_similar_classify _ _ Hsim). reflexivity.
Qed.

Lemma chunking_outside_command_witness :
  (* C2 cut in two, the command whole in the second packet *)
  let asd := mkSession
               (Some (mkData RTMP_STATE_SENT_HANDSHAKE1 RTMP_STATE_DONE 0 0
                             None None))
               None 0 3 in
  let packets := [ (4, repeat 0 1000);
                   (5, repeat 0 536 ++ connect_message) ] in
  deliver 4 example_config APP_ID_FROM_INITIATOR asd packets
  = ret (rtmp_validate 4 example_config (set_packet_count asd 4)
           APP_ID_FROM_INITIATOR (payload packets)).
Proof.
  intros asd packets.
  apply (chunking_outside_command 4 example_config APP_ID_FROM_INITIATOR
           packets asd 4).
  - unfold uint16_fields. cbn. lia.
  - repeat constructor.
  - reflexivity.
  - right. vm_compute. reflexivity.
Defined.

(** C1 as stated fails: after the handshake the client's command message
    delivered whole is a success, and the same bytes in two packets, the
    first ending inside the message, are a failure. *)
Lemma chunking_breaks_inside_command :
  ~ chunking_invariant 4 example_config APP_ID_FROM_INITIATOR after_handshake
      [ (4, firstn 10 connect_message); (5, skipn 10 connect_message) ] 4.
Proof.
  unfold chunking_invariant. intros H.
  assert (Hbelow : below_ceiling example_config
                     [ (4, firstn 10 connect_message);
                       (5, skipn 10 connect_message) ])
    by (repeat constructor).
  specialize (H Hbelow eq_refl).
  vm_compute in H. discriminate H.
Qed.

(** ** Further properties *)

(** The two packet loops end within their fuel, for every flow data and
    every packet. *)
Theorem packet_loops_terminate (ss : ServiceRTMPData) (data : list Z) :
  consume_packet client_case client_state packet_fuel ss data <> None /\
  consume_packet server_case server_state packet_fuel ss data <> None.
Proof.
  rewrite consume_client_fuel, consume_server_fuel. split; discriminate.
Qed.



(** An AMF0 string of 1 to 65535 bytes is read back as it was written,
    with a NUL after it and the cursor on what follows; an empty string is
    refused. *)
Theorem amf0_string_round_trip (content rest : list Z) :
  (0 < size_of content < 65536 ->
   duplicate_string (amf0_string content ++ rest)
   = Some (content ++ [0], rest))
  /\ duplicate_string (amf0_string [] ++ rest) = None.
Proof.
  split.
  2:{ unfold duplicate_string, amf0_string. cbn [app].
      replace (size_of (AMF0_TYPE_STRING :: size_of [] / 256
                        :: size_of [] mod 256 :: rest) <? 1 + 2) with false.
      2:{ symmetry. apply Z.ltb_ge. unfold size_of. cbn [length]. lia. }
      reflexivity. }
  intros Hsize. unfold duplicate_string, amf0_string.
  cbn [app]. set (n := size_of content) in *.
  assert (Hlen : wrap16 (Z.shiftl (n / 256) 8 + n mod 256) = n).
  { rewrite Z.shiftl_mul_pow2 by lia. change (2 ^ 8) with 256.
    rewrite Z.mul_comm, <- Z.div_mod by lia. apply wrap16_small. lia. }
  replace (size_of (AMF0_TYPE_STRING :: n / 256 :: n mod 256 :: content ++ rest)
           <? 1 + 2) with false.
  2:{ symmetry. apply Z.ltb_ge. unfold size_of. cbn [length]. lia. }
  change (byte_at (AMF0_TYPE_STRING :: n / 256 :: n mod 256 :: content ++ rest) 0)
    with AMF0_TYPE_STRING.
  change (byte_at (AMF0_TYPE_STRING :: n / 256 :: n mod 256 :: content ++ rest) 1)
    with (n / 256).
  change (byte_at (AMF0_TYPE_STRING :: n / 256 :: n mod 256 :: content ++ rest) 2)
    with (n mod 256).
  rewrite Hlen, Z.eqb_refl. cbn [negb].
  replace (n =? 0) with false by (symmetry; apply Z.eqb_neq; lia).
  change (advance (1 + 2)
            (AMF0_TYPE_STRING :: n / 256 :: n mod 256 :: content ++ rest))
    with (content ++ rest).
  rewrite size_of_app.
  replace (size_of content + size_of rest <? n) with false.
  2:{ symmetry. apply Z.ltb_ge. pose proof (size_of_nonneg rest).
      subst n. lia. }
  rewrite take_app by (subst n; lia).
  rewrite advance_app by (subst n; lia).
  subst n. unfold take, advance, size_of. rewrite Nat2Z.id.
  rewrite firstn_all, skipn_all. reflexivity.
Qed.

Lemma amf0_string_round_trip_witness :
  duplicate_string (amf0_string (text "http://x/") ++ [0; 0; 9])
  = Some (text "http://x/" ++ [0], [0; 0; 9]).
Proof.
  apply (proj1 (amf0_string_round_trip (text "http://x/") [0; 0; 9])).
  cbn. lia.
Defined.


(** * The parsers against the writers *)

Lemma size_of_cons (x : Z) (data : list Z) :
  size_of (x :: data) = 1 + size_of data.
Proof. unfold size_of. cbn [length]. lia. Qed.

Lemma size_of_nil : size_of [] = 0.
Proof. reflexivity. Qed.

Lemma take_all (data : list Z) : take (size_of data) data = data.
Proof. unfold take, size_of. rewrite Nat2Z.id. apply firstn_all. Qed.

Lemma take_exact (a b : list Z) : take (size_of a) (a ++ b) = a.
Proof. rewrite take_app by lia. apply take_all. Qed.

Lemma advance_exact (a b : list Z) : advance (size_of a) (a ++ b) = b.
Proof.
  unfold advance, size_of. rewrite Nat2Z.id, skipn_app, skipn_all.
  rewrite Nat.sub_diag. reflexivity.
Qed.

Lemma take_advance (n : Z) (data : list Z) :
  take n data ++ advance n data = data.
Proof. unfold take, advance. apply firstn_skipn. Qed.

Lemma size_of_take (n : Z) (data : list Z) :
  0 <= n <= size_of data -> size_of (take n data) = n.
Proof. unfold size_of, take. intros H. rewrite length_firstn. lia. Qed.

(** ** The basic header *)

Lemma low_six_bits (fmt id : Z) :
  0 <= fmt -> 0 <= id < 64 -> Z.land (fmt * 64 + id) 0x3F = id.
Proof.
  intros Hf Hid. change 0x3F with (Z.ones 6).
  rewrite Z.land_ones by lia. change (2 ^ 6) with 64.
  rewrite Z.add_comm, Z.mod_add by lia. apply Z.mod_small. lia.
Qed.

Lemma high_two_bits (fmt id : Z) :
  0 <= fmt < 4 -> 0 <= id < 64 ->
  Z.shiftr (Z.land (fmt * 64 + id) 0xC0) 6 = fmt.
Proof.
  intros Hf Hid. rewrite Z.shiftr_land.
  change (Z.shiftr 0xC0 6) with (Z.ones 2).
  rewrite Z.land_ones by lia. rewrite Z.shiftr_div_pow2 by lia.
  change (2 ^ 6) with 64. change (2 ^ 2) with 4.
  rewrite Z.add_comm, Z.div_add by lia.
  rewrite (Z.div_small id 64) by lia. apply Z.mod_small. lia.
Qed.

Lemma basic_header_written (fmt csid : Z) (rest : list Z) :
  0 <= fmt < 4 -> 2 <= csid < 65600 ->
  basic_header (basic_header_bytes fmt csid ++ rest) = Some (fmt, csid, rest).
Proof.
  intros Hf Hid. rewrite basic_header_eq. unfold basic_header_bytes.
  destruct (csid <? 64) eqn:E1; [|destruct (csid <? 320) eqn:E2].
  - apply Z.ltb_lt in E1. cbn [app]. rewrite size_of_cons.
    pose proof (size_of_nonneg rest) as Hr.
    replace (1 + size_of rest <? 1) with false
      by (symmetry; apply Z.ltb_ge; lia).
    cbv zeta. change (byte_at ((fmt * 64 + csid) :: rest) 0)
      with (fmt * 64 + csid).
    rewrite low_six_bits, high_two_bits by lia.
    replace (csid =? 0) with false by (symmetry; apply Z.eqb_neq; lia).
    replace (csid =? 1) with false by (symmetry; apply Z.eqb_neq; lia).
    reflexivity.
  - apply Z.ltb_ge in E1. apply Z.ltb_lt in E2. cbn [app].
    rewrite !size_of_cons. pose proof (size_of_nonneg rest) as Hr.
    replace (1 + (1 + size_of rest) <? 1) with false
      by (symmetry; apply Z.ltb_ge; lia).
    replace (1 + (1 + size_of rest) <? 2) with false
      by (symmetry; apply Z.ltb_ge; lia).
    cbv zeta. change (byte_at (fmt * 64 :: csid - 64 :: rest) 0)
      with (fmt * 64).
    change (byte_at (fmt * 64 :: csid - 64 :: rest) 1) with (csid - 64).
    replace (fmt * 64) with (fmt * 64 + 0) by lia.
    rewrite low_six_bits, high_two_bits by lia.
    cbn [Z.eqb]. change (advance 2 ((fmt * 64 + 0) :: csid - 64 :: rest))
      with rest.
    repeat f_equal. lia.
  - apply Z.ltb_ge in E1. apply Z.ltb_ge in E2. cbn [app].
    rewrite !size_of_cons. pose proof (size_of_nonneg rest) as Hr.
    replace (1 + (1 + (1 + size_of rest)) <? 1) with false
      by (symmetry; apply Z.ltb_ge; lia).
    replace (1 + (1 + (1 + size_of rest)) <? 3) with false
      by (symmetry; apply Z.ltb_ge; lia).
    cbv zeta.
    set (lo := (csid - 64) mod 256). set (hi := (csid - 64) / 256).
    change (byte_at ((fmt * 64 + 1) :: lo :: hi :: rest) 0)
      with (fmt * 64 + 1).
    change (byte_at ((fmt * 64 + 1) :: lo :: hi :: rest) 1) with lo.
    change (byte_at ((fmt * 64 + 1) :: lo :: hi :: rest) 2) with hi.
    rewrite low_six_bits, high_two_bits by lia.
    cbn [Z.eqb Pos.eqb].
    change (advance 3 ((fmt * 64 + 1) :: lo :: hi :: rest)) with rest.
    repeat f_equal. subst lo hi.
    pose proof (Z.div_mod (csid - 64) 256 ltac:(lia)). lia.
Qed.

Lemma basic_header_reads_eq (data : list Z) :
  basic_header_reads data =
  if size_of data <? 1 then @nil nat
  else if Z.land (byte_at data 0) 0x3F =? 0 then
    if size_of data <? 2 then [0; 0]%nat else [0; 0; 1]%nat
  else if Z.land (byte_at data 0) 0x3F =? 1 then [0; 0; 2; 1]%nat
  else [0; 0]%nat.
Proof.
  unfold basic_header_reads, parse_rtmp_chunk_basic_header.
  destruct (size_of data <? 1); [reflexivity|].
  cbn [read and_then fst].
  destruct (Z.land (byte_at data 0) 0x3F =? 0).
  - destruct (size_of data <? 2); reflexivity.
  - destruct (Z.land (byte_at data 0) 0x3F =? 1); [|reflexivity].
    cbn [read and_then fst]. destruct (size_of data <? 3); reflexivity.
Qed.

(** A basic header written in its shortest form is read back: the format,
    the chunk stream id, and the cursor right after the header; and the
    reader looks at no byte behind the header it was given. *)
Theorem basic_header_round_trip (fmt csid : Z) (rest : list Z) :
  0 <= fmt < 4 -> 2 <= csid < 65600 ->
  basic_header (basic_header_bytes fmt csid ++ rest) = Some (fmt, csid, rest)
  /\ Forall (fun i => (i < length (basic_header_bytes fmt csid))%nat)
       (basic_header_reads (basic_header_bytes fmt csid ++ rest)).
Proof.
  intros Hf Hid. split; [apply basic_header_written; assumption|].
  rewrite basic_header_reads_eq. unfold basic_header_bytes.
  pose proof (size_of_nonneg rest) as Hr.
  destruct (csid <? 64) eqn:E1; [|destruct (csid <? 320) eqn:E2].
  - apply Z.ltb_lt in E1. cbn [app]. rewrite size_of_cons.
    replace (1 + size_of rest <? 1) with false
      by (symmetry; apply Z.ltb_ge; lia).
    change (byte_at ((fmt * 64 + csid) :: rest) 0) with (fmt * 64 + csid).
    rewrite low_six_bits by lia.
    replace (csid =? 0) with false by (symmetry; apply Z.eqb_neq; lia).
    replace (csid =? 1) with false by (symmetry; apply Z.eqb_neq; lia).
    repeat constructor.
  - cbn [app]. rewrite !size_of_cons.
    replace (1 + (1 + size_of rest) <? 1) with false
      by (symmetry; apply Z.ltb_ge; lia).
    replace (1 + (1 + size_of rest) <? 2) with false
      by (symmetry; apply Z.ltb_ge; lia).
    change (byte_at (fmt * 64 :: csid - 64 :: rest) 0) with (fmt * 64).
    replace (fmt * 64) with (fmt * 64 + 0) by lia.
    rewrite low_six_bits by lia. cbn [Z.eqb length].
    repeat constructor.
  - cbn [app]. rewrite !size_of_cons.
    replace (1 + (1 + (1 + size_of rest)) <? 1) with false
      by (symmetry; apply Z.ltb_ge; lia).
    set (lo := (csid - 64) mod 256). set (hi := (csid - 64) / 256).
    change (byte_at ((fmt * 64 + 1) :: lo :: hi :: rest) 0)
      with (fmt * 64 + 1).
    rewrite low_six_bits by lia. cbn [Z.eqb Pos.eqb length].
    repeat constructor.
Qed.

Lemma basic_header_round_trip_witness :
  basic_header (basic_header_bytes 3 300 ++ [7; 8]) = Some (3, 300, [7; 8])
  /\ Forall (fun i => (i < length (basic_header_bytes 3 300))%nat)
       (basic_header_reads (basic_header_bytes 3 300 ++ [7; 8])).
Proof. apply (basic_header_round_trip 3 300 [7; 8]); lia. Defined.

(** The reader looks past the bytes it was given in one case only: the
    first byte announces the three-byte form and fewer than three bytes
    are there.  In every other case, all the bytes it reads are inside
    the slice. *)
Theorem basic_header_over_read_exactly (data : list Z) :
  Exists (fun i => (length data <= i)%nat) (basic_header_reads data)
  <-> (1 <= length data < 3)%nat /\ Z.land (byte_at data 0) 0x3F = 1.
Proof.
  rewrite basic_header_reads_eq. unfold size_of.
  destruct (Z.of_nat (length data) <? 1) eqn:E1.
  { apply Z.ltb_lt in E1. split.
    - intros H. inversion H.
    - intros [H _]. lia. }
  apply Z.ltb_ge in E1.
  destruct (Z.land (byte_at data 0) 0x3F =? 0) eqn:E0.
  { apply Z.eqb_eq in E0. rewrite E0. split.
    - destruct (Z.of_nat (length data) <? 2) eqn:E2;
        [apply Z.ltb_lt in E2 | apply Z.ltb_ge in E2];
        intros H; rewrite !Exists_cons, Exists_nil in H; lia.
    - intros [_ H]. discriminate H. }
  destruct (Z.land (byte_at data 0) 0x3F =? 1) eqn:E2.
  - apply Z.eqb_eq in E2. split.
    + intros H. rewrite !Exists_cons, Exists_nil in H. lia.
    + intros [H _]. rewrite !Exists_cons. lia.
  - apply Z.eqb_neq in E2. split.
    + intros H. rewrite !Exists_cons, Exists_nil in H. lia.
    + intros [_ H]. contradiction.
Qed.

Lemma byte_at_range (data : list Z) (i : nat) :
  bytes_ok data -> 0 <= byte_at data i < 256.
Proof.
  unfold bytes_ok, byte_at. intros H.
  destruct (Nat.lt_ge_cases i (length data)) as [Hi | Hi].
  - rewrite Forall_forall in H. apply H, nth_In, Hi.
  - rewrite nth_overflow by exact Hi. lia.
Qed.

Lemma bytes_ok_advance (n : Z) (data : list Z) :
  bytes_ok data -> bytes_ok (advance n data).
Proof.
  unfold bytes_ok, advance. rewrite !Forall_forall.
  intros H x Hx. apply H. revert Hx.
  generalize (Z.to_nat n). intros k. revert data H.
  induction k as [|k IH]; intros data H Hx; [exact Hx|].
  destruct data as [|y data]; [exact Hx|].
  right. apply (IH data); [intros z Hz; apply H; right; exact Hz|exact Hx].
Qed.

(** What the reader can return on bytes: a format of two bits, a chunk
    stream id from 2 to 65599, and a header of one, two or three bytes. *)
Theorem basic_header_ranges (data : list Z) (fmt csid : Z) (rest : list Z) :
  bytes_ok data ->
  basic_header data = Some (fmt, csid, rest) ->
  0 <= fmt < 4 /\ 2 <= csid < 65600 /\
  exists k, 1 <= k <= 3 /\ rest = advance k data /\
            size_of rest = size_of data - k.
Proof.
  intros Hok. rewrite basic_header_eq. cbv zeta.
  pose proof (byte_at_range data 0 Hok) as H0.
  pose proof (byte_at_range data 1 Hok) as H1.
  pose proof (byte_at_range data 2 Hok) as H2.
  assert (Hfmt : 0 <= Z.shiftr (Z.land (byte_at data 0) 0xC0) 6 < 4).
  { rewrite Z.shiftr_land. change (Z.shiftr 0xC0 6) with (Z.ones 2).
    rewrite Z.land_ones by lia. apply Z.mod_pos_bound. reflexivity. }
  assert (Hid : 0 <= Z.land (byte_at data 0) 0x3F < 64).
  { change 0x3F with (Z.ones 6). rewrite Z.land_ones by lia.
    apply Z.mod_pos_bound. reflexivity. }
  destruct (size_of data <? 1) eqn:E1; [discriminate|].
  apply Z.ltb_ge in E1.
  destruct (Z.land (byte_at data 0) 63 =? 0) eqn:Ea.
  - destruct (size_of data <? 2) eqn:E2; [discriminate|].
    apply Z.ltb_ge in E2. intros H. injection H as <- <- <-.
    repeat split; try lia. exists 2. repeat split; try lia.
    apply size_of_advance. lia.
  - apply Z.eqb_neq in Ea.
    destruct (Z.land (byte_at data 0) 63 =? 1) eqn:Eb.
    + destruct (size_of data <? 3) eqn:E3; [discriminate|].
      apply Z.ltb_ge in E3. intros H. injection H as <- <- <-.
      repeat split; try lia. exists 3. repeat split; try lia.
      apply size_of_advance. lia.
    + apply Z.eqb_neq in Eb. intros H. injection H as <- <- <-.
      change 63 with 0x3F in Ea, Eb.
      repeat split; try lia. exists 1. repeat split; try lia.
      apply size_of_advance. lia.
Qed.

Lemma basic_header_ranges_witness :
  0 <= 3 < 4 /\ 2 <= 300 < 65600 /\
  exists k, 1 <= k <= 3 /\ [7; 8] = advance k [192; 236; 7; 8] /\
            size_of [7; 8] = size_of [192; 236; 7; 8] - k.
Proof.
  apply (basic_header_ranges [192; 236; 7; 8] 3 300 [7; 8]).
  - repeat constructor; lia.
  - reflexivity.
Defined.

(** ** The message header *)

Lemma big_endian_24 (len : Z) :
  0 <= len < 16777216 ->
  wrap32 (Z.shiftl (len / 65536) 16 + Z.shiftl ((len / 256) mod 256) 8
          + len mod 256) = len.
Proof.
  intros H. rewrite !Z.shiftl_mul_pow2 by lia.
  change (2 ^ 16) with 65536. change (2 ^ 8) with 256.
  unfold wrap32.
  assert (E : len / 65536 * 65536 + (len / 256) mod 256 * 256 + len mod 256
              = len).
  { pose proof (Z.div_mod len 256 ltac:(lia)).
    pose proof (Z.div_mod (len / 256) 256 ltac:(lia)).
    rewrite Z.div_div in * by lia. change (256 * 256) with 65536 in *. lia. }
  rewrite E. apply Z.mod_small. lia.
Qed.

Lemma size_three (l : list Z) :
  size_of l = 3 -> exists a b c, l = [a; b; c].
Proof.
  unfold size_of. destruct l as [|a [|b [|c [|d l]]]]; cbn [length];
    intros H; try lia. exists a, b, c. reflexivity.
Qed.

Lemma size_four (l : list Z) :
  size_of l = 4 -> exists a b c d, l = [a; b; c; d].
Proof.
  unfold size_of. destruct l as [|a [|b [|c [|d [|e l]]]]]; cbn [length];
    intros H; try lia. exists a, b, c, d. reflexivity.
Qed.

Lemma message_header_written (fmt csid : Z) (timestamp : list Z)
    (len ty : Z) (stream_id rest : list Z) :
  2 <= csid < 65600 ->
  fmt = 0 \/ fmt = 1 ->
  size_of timestamp = 3 -> size_of stream_id = 4 ->
  0 <= len < 16777216 ->
  parse_rtmp_message_header
    (message_header_bytes fmt csid timestamp len ty stream_id ++ rest)
  = Some (csid, len, ty, rest).
Proof.
  intros Hid Hfmt Hts Hsid Hlen.
  unfold parse_rtmp_message_header, message_header_bytes.
  rewrite <- app_assoc.
  rewrite basic_header_written by (destruct Hfmt; lia).
  destruct (size_three _ Hts) as (t0 & t1 & t2 & ->).
  destruct (size_four _ Hsid) as (s0 & s1 & s2 & s3 & ->).
  pose proof (size_of_nonneg rest) as Hr.
  destruct Hfmt as [-> | ->]; cbn [Z.eqb Pos.eqb].
  + cbn [app]. rewrite !size_of_cons.
    replace (1 + (1 + (1 + (1 + (1 + (1 + (1 + (1 + (1 + (1 + (1 +
               size_of rest)))))))))) <? 11) with false
      by (symmetry; apply Z.ltb_ge; lia).
    cbn [byte_at nth]. rewrite big_endian_24 by exact Hlen. reflexivity.
  + cbn [app]. rewrite !size_of_cons.
    replace (1 + (1 + (1 + (1 + (1 + (1 + (1 + size_of rest)))))) <? 7)
      with false by (symmetry; apply Z.ltb_ge; lia).
    cbn [byte_at nth]. rewrite big_endian_24 by exact Hlen. reflexivity.
Qed.

(** A message header of format 0 or 1 is read back: the chunk stream id,
    the message length, the message type, and the cursor on the body; the
    timestamp and the message stream id are passed over.  A first chunk of
    format 2 or 3 is refused, whatever follows. *)
Theorem message_header_round_trip (fmt csid : Z) (timestamp : list Z)
    (len ty : Z) (stream_id rest : list Z) :
  2 <= csid < 65600 ->
  (fmt = 0 \/ fmt = 1 ->
   size_of timestamp = 3 -> size_of stream_id = 4 ->
   0 <= len < 16777216 ->
   parse_rtmp_message_header
     (message_header_bytes fmt csid timestamp len ty stream_id ++ rest)
   = Some (csid, len, ty, rest)) /\
  (fmt = 2 \/ fmt = 3 ->
   parse_rtmp_message_header (basic_header_bytes fmt csid ++ rest) = None).
Proof.
  intros Hid. split.
  - intros Hfmt Hts Hsid Hlen. apply message_header_written; assumption.
  - intros Hfmt. unfold parse_rtmp_message_header.
    rewrite basic_header_written by (destruct Hfmt; lia).
    destruct Hfmt as [-> | ->]; reflexivity.
Qed.

Lemma message_header_round_trip_witness :
  parse_rtmp_message_header
    (message_header_bytes 1 3 [0; 0; 1] 300 20 [0; 0; 0; 0] ++ [9; 9])
  = Some (3, 300, 20, [9; 9]) /\
  parse_rtmp_message_header (basic_header_bytes 3 3 ++ [9; 9]) = None.
Proof.
  pose proof (message_header_round_trip 1 3 [0; 0; 1] 300 20 [0; 0; 0; 0]
                [9; 9] ltac:(lia)) as [H1 _].
  pose proof (message_header_round_trip 3 3 [0; 0; 1] 300 20 [0; 0; 0; 0]
                [9; 9] ltac:(lia)) as [_ H2].
  split.
  - apply H1; [right; reflexivity|reflexivity|reflexivity|lia].
  - apply H2. right. reflexivity.
Defined.

(** ** The reassembly of a message body *)

Lemma unchunk_loop_zero (fuel : nat) (data : list Z) (id : Z) (body : list Z) :
  unchunk_loop fuel data id 0 body = Some (Some (data, body)).
Proof. destruct fuel; reflexivity. Qed.

Lemma unchunk_loop_S (fuel : nat) (data : list Z) (id len : Z)
    (body : list Z) :
  unchunk_loop (S fuel) data id len body =
  if 0 <? len then
    let chunk_len :=
      if RTMP_CHUNK_SIZE <? len then RTMP_CHUNK_SIZE else len in
    if size_of data <? chunk_len then Some None
    else
      if 0 <? len - chunk_len then
        match basic_header (advance chunk_len data) with
        | None => Some None
        | Some (fmt, id', data') =>
            if negb (fmt =? 3) then Some None
            else if negb (id' =? id) then Some None
            else unchunk_loop fuel data' id (len - chunk_len)
                   (body ++ take chunk_len data)
        end
      else unchunk_loop fuel (advance chunk_len data) id (len - chunk_len)
             (body ++ take chunk_len data)
  else Some (Some (data, body)).
Proof. reflexivity. Qed.

Lemma unchunk_chunks (csid : Z) (rest : list Z) (n : nat) :
  2 <= csid < 65600 ->
  forall body acc,
    (length body <= n)%nat ->
    unchunk_loop n (chunks n (basic_header_bytes 3 csid) body ++ rest)
      csid (size_of body) acc
    = Some (Some (rest, acc ++ body)).
Proof.
  intros Hid. induction n as [|n IH]; intros body acc Hlen.
  - destruct body; [|cbn in Hlen; lia].
    cbn. rewrite app_nil_r. reflexivity.
  - rewrite unchunk_loop_S. cbn [chunks]. cbv zeta.
    pose proof (size_of_nonneg body) as Hb.
    pose proof (size_of_nonneg rest) as Hr.
    destruct (0 <? size_of body) eqn:Epos.
    2:{ apply Z.ltb_ge in Epos.
        assert (body = []) as -> by (apply size_of_nil_iff; lia).
        cbn. rewrite app_nil_r. reflexivity. }
    apply Z.ltb_lt in Epos.
    destruct (size_of body <=? RTMP_CHUNK_SIZE) eqn:Esmall.
    + apply Z.leb_le in Esmall.
      replace (RTMP_CHUNK_SIZE <? size_of body) with false
        by (symmetry; apply Z.ltb_ge; exact Esmall).
      rewrite size_of_app.
      replace (size_of body + size_of rest <? size_of body) with false
        by (symmetry; apply Z.ltb_ge; lia).
      rewrite Z.sub_diag. cbn [Z.ltb Z.compare].
      rewrite take_exact, advance_exact. apply unchunk_loop_zero.
    + apply Z.leb_gt in Esmall.
      replace (RTMP_CHUNK_SIZE <? size_of body) with true
        by (symmetry; apply Z.ltb_lt; exact Esmall).
      assert (Htake : size_of (take RTMP_CHUNK_SIZE body) = RTMP_CHUNK_SIZE).
      { apply size_of_take. unfold RTMP_CHUNK_SIZE in *. lia. }
      set (tail := basic_header_bytes 3 csid
                   ++ chunks n (basic_header_bytes 3 csid)
                        (advance RTMP_CHUNK_SIZE body)).
      rewrite <- !app_assoc.
      change (basic_header_bytes 3 csid
              ++ chunks n (basic_header_bytes 3 csid)
                   (advance RTMP_CHUNK_SIZE body) ++ rest)
        with ((basic_header_bytes 3 csid
               ++ chunks n (basic_header_bytes 3 csid)
                    (advance RTMP_CHUNK_SIZE body)) ++ rest).
      fold tail.
      assert (Hadv : advance RTMP_CHUNK_SIZE
                       (take RTMP_CHUNK_SIZE body ++ tail ++ rest)
                     = tail ++ rest).
      { rewrite <- Htake at 1. apply advance_exact. }
      assert (Htk : take RTMP_CHUNK_SIZE
                      (take RTMP_CHUNK_SIZE body ++ tail ++ rest)
                    = take RTMP_CHUNK_SIZE body).
      { rewrite <- Htake at 1. apply take_exact. }
      rewrite Hadv, Htk, size_of_app, Htake.
      replace (RTMP_CHUNK_SIZE + size_of (tail ++ rest) <? RTMP_CHUNK_SIZE)
        with false
        by (symmetry; apply Z.ltb_ge;
            pose proof (size_of_nonneg (tail ++ rest)); lia).
      replace (0 <? size_of body - RTMP_CHUNK_SIZE) with true
        by (symmetry; apply Z.ltb_lt; lia).
      subst tail. rewrite <- app_assoc.
      rewrite basic_header_written by lia.
      rewrite !Z.eqb_refl. cbn [negb].
      assert (Hsize : size_of (advance RTMP_CHUNK_SIZE body)
                      = size_of body - RTMP_CHUNK_SIZE).
      { apply size_of_advance. unfold RTMP_CHUNK_SIZE in *. lia. }
      rewrite <- Hsize. rewrite IH.
      * rewrite <- app_assoc, take_advance. reflexivity.
      * unfold advance. rewrite length_skipn.
        unfold size_of, RTMP_CHUNK_SIZE in *. lia.
Qed.

Lemma unchunk_chunked (csid : Z) (body rest : list Z) :
  2 <= csid < 65600 ->
  unchunk_rtmp_message_body (chunked csid body ++ rest) csid (size_of body)
  = Some (rest, body).
Proof.
  intros Hid. unfold unchunk_rtmp_message_body, chunked.
  pose proof (unchunk_chunks csid rest (length body) Hid body []
                (Nat.le_refl _)) as H.
  cbn [app] in H.
  assert (Hfuel : (length body
                   <= S (length (chunks (length body)
                                   (basic_header_bytes 3 csid) body ++ rest)))%nat).
  { enough (Hge : forall n cont b,
               (length b <= length (chunks n cont b))%nat).
    { pose proof (Hge (length body) (basic_header_bytes 3 csid) body).
      rewrite length_app. lia. }
    induction n as [|n IHn]; intros cont b; cbn [chunks]; [lia|].
    destruct (size_of b <=? RTMP_CHUNK_SIZE); [lia|].
    rewrite !length_app.
    pose proof (IHn cont (advance RTMP_CHUNK_SIZE b)) as Hrec.
    rewrite <- (take_advance RTMP_CHUNK_SIZE b) at 1.
    rewrite length_app. lia. }
  rewrite (unchunk_loop_fuel_le _ _ _ _ _ _ _ Hfuel H). reflexivity.
Qed.

(** A body cut into chunks of 128 bytes, each chunk after the first behind
    a basic header of format 3 on the same chunk stream, is put together
    again as it was, and the cursor is left on what follows the last
    chunk.  A body of at most 128 bytes is one chunk, with no header
    inside. *)
Theorem unchunk_round_trip (csid : Z) (body rest : list Z) :
  2 <= csid < 65600 ->
  unchunk_rtmp_message_body (chunked csid body ++ rest) csid (size_of body)
  = Some (rest, body)
  /\ (size_of body <= RTMP_CHUNK_SIZE -> chunked csid body = body).
Proof.
  intros Hid. split; [apply unchunk_chunked; exact Hid|].
  intros Hsmall. unfold chunked. destruct (length body); [reflexivity|].
  cbn [chunks]. apply Z.leb_le in Hsmall. rewrite Hsmall. reflexivity.
Qed.

Lemma unchunk_round_trip_witness :
  unchunk_rtmp_message_body (chunked 3 (repeat 5 300) ++ [1; 2]) 3
    (size_of (repeat 5 300))
  = Some ([1; 2], repeat 5 300)
  /\ (size_of (repeat 5 300) <= RTMP_CHUNK_SIZE ->
      chunked 3 (repeat 5 300) = repeat 5 300).
Proof. apply (unchunk_round_trip 3 (repeat 5 300) [1; 2]). lia. Defined.

Lemma basic_header_shrinks (data : list Z) (fmt id : Z) (rest : list Z) :
  basic_header data = Some (fmt, id, rest) -> size_of rest < size_of data.
Proof.
  rewrite basic_header_eq. cbv zeta.
  split_branches; intros H; try discriminate; injection H as _ _ <-;
    rewrite size_of_advance; lia.
Qed.

Lemma unchunk_loop_sizes (fuel : nat) :
  forall data id len acc rest body,
    0 <= len ->
    unchunk_loop fuel data id len acc = Some (Some (rest, body)) ->
    exists got, body = acc ++ got /\ size_of got = len /\
                size_of rest + len <= size_of data.
Proof.
  induction fuel as [|fuel IH]; intros data id len acc rest body Hlen H.
  - cbn in H. destruct (0 <? len) eqn:E; [discriminate|].
    apply Z.ltb_ge in E. injection H as <- <-.
    exists []. rewrite app_nil_r. repeat split; [cbn; lia | lia].
  - rewrite unchunk_loop_S in H. cbv zeta in H.
    destruct (0 <? len) eqn:E.
    2:{ apply Z.ltb_ge in E. injection H as <- <-.
        exists []. rewrite app_nil_r. repeat split; [cbn; lia | lia]. }
    apply Z.ltb_lt in E.
    set (chunk_len := if RTMP_CHUNK_SIZE <? len then RTMP_CHUNK_SIZE else len)
      in *.
    assert (Hchunk : 0 < chunk_len <= len).
    { subst chunk_len. destruct (RTMP_CHUNK_SIZE <? len) eqn:Ec;
        [apply Z.ltb_lt in Ec; unfold RTMP_CHUNK_SIZE in *; lia | lia]. }
    destruct (size_of data <? chunk_len) eqn:Es; [discriminate|].
    apply Z.ltb_ge in Es.
    assert (Htake : size_of (take chunk_len data) = chunk_len)
      by (apply size_of_take; lia).
    assert (Hadv : size_of (advance chunk_len data) = size_of data - chunk_len)
      by (apply size_of_advance; lia).
    assert (Hend : forall d,
               size_of d <= size_of (advance chunk_len data) ->
               unchunk_loop fuel d id (len - chunk_len)
                 (acc ++ take chunk_len data) = Some (Some (rest, body)) ->
               exists got, body = acc ++ got /\ size_of got = len /\
                           size_of rest + len <= size_of data).
    { intros d Hd Hrec.
      assert (Hleft : 0 <= len - chunk_len) by lia.
      destruct (IH _ _ _ _ _ _ Hleft Hrec) as (got & -> & Hgot & Hrest).
      exists (take chunk_len data ++ got). rewrite app_assoc.
      split; [reflexivity|]. rewrite size_of_app. lia. }
    destruct (0 <? len - chunk_len).
    + destruct (basic_header (advance chunk_len data))
        as [[[fmt id'] d]|] eqn:Eh; [|discriminate].
      destruct (negb (fmt =? 3)); [discriminate|].
      destruct (negb (id' =? id)); [discriminate|].
      apply (Hend d); [|exact H].
      pose proof (basic_header_shrinks _ _ _ _ Eh). lia.
    + apply (Hend _ (Z.le_refl _) H).
Qed.

(** When the reassembly succeeds, the buffer allocated with the announced
    length is filled exactly, the bytes come out of the packet, and, the
    packet being shorter than 65536 bytes, the 16-bit size the body is then
    walked with is the whole length: no byte of the body is cut off. *)
Theorem unchunk_fills_buffer (data : list Z) (csid len : Z)
    (rest body : list Z) :
  0 <= len ->
  unchunk_rtmp_message_body data csid len = Some (rest, body) ->
  size_of body = len /\
  size_of rest + len <= size_of data /\
  (size_of data < 65536 -> take (wrap16 len) body = body).
Proof.
  intros Hlen H. unfold unchunk_rtmp_message_body in H.
  destruct (unchunk_loop (S (length data)) data csid len []) as [r|] eqn:E;
    [|discriminate].
  subst r.
  destruct (unchunk_loop_sizes _ _ _ _ _ _ _ Hlen E) as (got & Hb & Hgot & Hr).
  cbn [app] in Hb. subst got.
  repeat split; [exact Hgot | exact Hr |].
  intros Hsize. pose proof (size_of_nonneg rest).
  rewrite wrap16_small by lia. rewrite <- Hgot. apply take_all.
Qed.

Lemma unchunk_fills_buffer_witness :
  size_of [1; 2; 3] = 3 /\
  size_of [9] + 3 <= size_of [1; 2; 3; 9] /\
  (size_of [1; 2; 3; 9] < 65536 -> take (wrap16 3) [1; 2; 3] = [1; 2; 3]).
Proof.
  apply (unchunk_fills_buffer [1; 2; 3; 9] 3 3 [9] [1; 2; 3]).
  - lia.
  - reflexivity.
Defined.

(** The reassembly refuses a packet that holds fewer bytes than the
    announced length, and a message longer than one chunk whose second
    chunk does not start with a basic header of format 3 on the chunk
    stream of the first. *)
Theorem unchunk_refuses (data : list Z) (csid len : Z) :
  0 <= len ->
  size_of data < len \/
  (RTMP_CHUNK_SIZE < len /\
   exists fmt id d,
     basic_header (advance RTMP_CHUNK_SIZE data) = Some (fmt, id, d) /\
     (fmt <> 3 \/ id <> csid)) ->
  unchunk_rtmp_message_body data csid len = None.
Proof.
  intros Hlen [Hshort | (Hlong & fmt & id & d & Eh & Hbad)].
  - destruct (unchunk_rtmp_message_body data csid len) as [[rest body]|] eqn:E;
      [|reflexivity].
    unfold unchunk_rtmp_message_body in E.
    destruct (unchunk_loop (S (length data)) data csid len []) as [r|] eqn:El;
      [|discriminate].
    subst r.
    destruct (unchunk_loop_sizes _ _ _ _ _ _ _ Hlen El) as (_ & _ & _ & Hr).
    pose proof (size_of_nonneg rest). lia.
  - unfold unchunk_rtmp_message_body. rewrite unchunk_loop_S. cbv zeta.
    replace (0 <? len) with true
      by (symmetry; apply Z.ltb_lt; unfold RTMP_CHUNK_SIZE in *; lia).
    replace (RTMP_CHUNK_SIZE <? len) with true
      by (symmetry; apply Z.ltb_lt; exact Hlong).
    destruct (size_of data <? RTMP_CHUNK_SIZE); [reflexivity|].
    replace (0 <? len - RTMP_CHUNK_SIZE) with true
      by (symmetry; apply Z.ltb_lt; lia).
    rewrite Eh.
    destruct Hbad as [Hf | Hi].
    + replace (fmt =? 3) with false by (symmetry; apply Z.eqb_neq; exact Hf).
      reflexivity.
    + destruct (negb (fmt =? 3)); [reflexivity|].
      replace (id =? csid) with false by (symmetry; apply Z.eqb_neq; exact Hi).
      reflexivity.
Qed.

Lemma unchunk_refuses_witness :
  unchunk_rtmp_message_body [1; 2] 3 5 = None.
Proof. apply (unchunk_refuses [1; 2] 3 5); [lia | left; cbn; lia]. Defined.

(** ** The values of the command object *)

Lemma big_endian_16 (n : Z) :
  0 <= n < 65536 -> wrap16 (Z.shiftl (n / 256) 8 + n mod 256) = n.
Proof.
  intros Hn. rewrite Z.shiftl_mul_pow2 by lia. change (2 ^ 8) with 256.
  rewrite Z.mul_comm, <- Z.div_mod by lia. apply wrap16_small. lia.
Qed.

Lemma duplicate_string_written (content rest : list Z) :
  size_of content < 65536 ->
  duplicate_string (amf0_string content ++ rest)
  = if size_of content =? 0 then None else Some (content ++ [0], rest).
Proof.
  intros Hsize. pose proof (size_of_nonneg content) as Hc.
  pose proof (size_of_nonneg rest) as Hr.
  unfold duplicate_string, amf0_string. cbn [app].
  set (n := size_of content) in *.
  rewrite !size_of_cons.
  replace (1 + (1 + (1 + size_of (content ++ rest))) <? 1 + 2) with false
    by (symmetry; apply Z.ltb_ge;
        pose proof (size_of_nonneg (content ++ rest)); lia).
  change (byte_at (AMF0_TYPE_STRING :: n / 256 :: n mod 256 :: content ++ rest) 0)
    with AMF0_TYPE_STRING.
  change (byte_at (AMF0_TYPE_STRING :: n / 256 :: n mod 256 :: content ++ rest) 1)
    with (n / 256).
  change (byte_at (AMF0_TYPE_STRING :: n / 256 :: n mod 256 :: content ++ rest) 2)
    with (n mod 256).
  rewrite big_endian_16 by lia. rewrite Z.eqb_refl. cbn [negb].
  destruct (n =? 0); [reflexivity|].
  change (advance (1 + 2)
            (AMF0_TYPE_STRING :: n / 256 :: n mod 256 :: content ++ rest))
    with (content ++ rest).
  rewrite size_of_app.
  replace (size_of content + size_of rest <? n) with false
    by (symmetry; apply Z.ltb_ge; subst n; lia).
  subst n. rewrite take_exact, advance_exact. reflexivity.
Qed.

Lemma duplicate_string_other (tag : Z) (data : list Z) :
  tag <> AMF0_TYPE_STRING -> duplicate_string (tag :: data) = None.
Proof.
  intros Htag. unfold duplicate_string.
  destruct (size_of (tag :: data) <? 1 + 2); [reflexivity|].
  change (byte_at (tag :: data) 0) with tag.
  replace (tag =? AMF0_TYPE_STRING) with false
    by (symmetry; apply Z.eqb_neq; exact Htag).
  reflexivity.
Qed.

Lemma skip_written (v : Amf0Value) (rest : list Z) :
  value_ok v -> skip_property_value (amf0_value v ++ rest) = Some rest.
Proof.
  pose proof (size_of_nonneg rest) as Hr.
  destruct v as [bytes | b | content]; cbn [value_ok amf0_value]; intros Hok.
  - unfold skip_property_value. cbn [app]. rewrite size_of_cons.
    replace (1 + size_of (bytes ++ rest) <? 1) with false
      by (symmetry; apply Z.ltb_ge;
          pose proof (size_of_nonneg (bytes ++ rest)); lia).
    cbv zeta. change (byte_at (AMF0_TYPE_NUMBER :: bytes ++ rest) 0)
      with AMF0_TYPE_NUMBER.
    change (advance 1 (AMF0_TYPE_NUMBER :: bytes ++ rest)) with (bytes ++ rest).
    rewrite Z.eqb_refl, size_of_app.
    replace (size_of bytes + size_of rest <? 8) with false
      by (symmetry; apply Z.ltb_ge; lia).
    rewrite <- Hok. rewrite advance_exact. reflexivity.
  - unfold skip_property_value. cbn [app]. rewrite !size_of_cons.
    replace (1 + (1 + size_of rest) <? 1) with false
      by (symmetry; apply Z.ltb_ge; lia).
    cbv zeta. change (byte_at (AMF0_TYPE_BOOLEAN :: b :: rest) 0)
      with AMF0_TYPE_BOOLEAN.
    change (advance 1 (AMF0_TYPE_BOOLEAN :: b :: rest)) with (b :: rest).
    change (AMF0_TYPE_BOOLEAN =? AMF0_TYPE_NUMBER) with false.
    rewrite Z.eqb_refl, size_of_cons.
    replace (1 + size_of rest <? 1) with false
      by (symmetry; apply Z.ltb_ge; lia).
    reflexivity.
  - pose proof (size_of_nonneg content) as Hc.
    unfold skip_property_value, amf0_string. cbn [app].
    set (n := size_of content) in *. rewrite !size_of_cons.
    replace (1 + (1 + (1 + size_of (content ++ rest))) <? 1) with false
      by (symmetry; apply Z.ltb_ge;
          pose proof (size_of_nonneg (content ++ rest)); lia).
    cbv zeta.
    change (byte_at (AMF0_TYPE_STRING :: n / 256 :: n mod 256 :: content ++ rest) 0)
      with AMF0_TYPE_STRING.
    change (advance 1
              (AMF0_TYPE_STRING :: n / 256 :: n mod 256 :: content ++ rest))
      with (n / 256 :: n mod 256 :: content ++ rest).
    change (AMF0_TYPE_STRING =? AMF0_TYPE_NUMBER) with false.
    change (AMF0_TYPE_STRING =? AMF0_TYPE_BOOLEAN) with false.
    rewrite Z.eqb_refl, !size_of_cons.
    replace (1 + (1 + size_of (content ++ rest)) <? 2) with false
      by (symmetry; apply Z.ltb_ge;
          pose proof (size_of_nonneg (content ++ rest)); lia).
    change (byte_at (n / 256 :: n mod 256 :: content ++ rest) 0) with (n / 256).
    change (byte_at (n / 256 :: n mod 256 :: content ++ rest) 1)
      with (n mod 256).
    change (advance 2 (n / 256 :: n mod 256 :: content ++ rest))
      with (content ++ rest).
    rewrite big_endian_16 by lia. rewrite size_of_app.
    replace (size_of content + size_of rest <? n) with false
      by (symmetry; apply Z.ltb_ge; subst n; lia).
    subst n. rewrite advance_exact. reflexivity.
Qed.

(** A number, a boolean or a string value, the empty string included, is
    stepped over whole; a value of any other type (an object, null, an
    array, ...) is not, whatever follows its tag, and neither is a value
    that the packet cuts short. *)
Theorem skip_property_value_types (v : Amf0Value) (rest : list Z) :
  value_ok v ->
  skip_property_value (amf0_value v ++ rest) = Some rest /\
  (forall tag data,
     tag <> AMF0_TYPE_NUMBER -> tag <> AMF0_TYPE_BOOLEAN ->
     tag <> AMF0_TYPE_STRING -> skip_property_value (tag :: data) = None) /\
  (forall n, 0 < n < size_of (amf0_value v) ->
     skip_property_value (take n (amf0_value v)) = None).
Proof.
  intros Hok. split; [apply skip_written; exact Hok|]. split.
  - intros tag data Hn Hb Hs. unfold skip_property_value.
    destruct (size_of (tag :: data) <? 1); [reflexivity|].
    cbv zeta. change (byte_at (tag :: data) 0) with tag.
    replace (tag =? AMF0_TYPE_NUMBER) with false
      by (symmetry; apply Z.eqb_neq; exact Hn).
    replace (tag =? AMF0_TYPE_BOOLEAN) with false
      by (symmetry; apply Z.eqb_neq; exact Hb).
    replace (tag =? AMF0_TYPE_STRING) with false
      by (symmetry; apply Z.eqb_neq; exact Hs).
    reflexivity.
  - intros n Hn.
    destruct (skip_property_value (take n (amf0_value v))) as [d|] eqn:E;
      [exfalso|reflexivity].
    assert (Hsz : size_of (take n (amf0_value v)) = n)
      by (apply size_of_take; lia).
    assert (Hcut : amf0_value v
                   = take n (amf0_value v) ++ advance n (amf0_value v))
      by (symmetry; apply take_advance).
    assert (Hlost : 0 < size_of (advance n (amf0_value v)))
      by (rewrite size_of_advance; lia).
    revert E Hsz Hcut Hlost.
    generalize (advance n (amf0_value v)) as back.
    generalize (take n (amf0_value v)) as front.
    intros front back E Hsz Hcut Hlost.
    destruct v as [bytes | b | content]; cbn [value_ok amf0_value] in *.
    + destruct front as [|tag front]; [cbn in Hsz; lia|].
      cbn [app] in Hcut. injection Hcut as <- Hbytes.
      unfold skip_property_value in E.
      destruct (size_of (AMF0_TYPE_NUMBER :: front) <? 1); [discriminate|].
      cbv zeta in E.
      change (byte_at (AMF0_TYPE_NUMBER :: front) 0) with AMF0_TYPE_NUMBER in E.
      change (advance 1 (AMF0_TYPE_NUMBER :: front)) with front in E.
      rewrite Z.eqb_refl in E.
      destruct (size_of front <? 8) eqn:E8; [discriminate|].
      apply Z.ltb_ge in E8. rewrite Hbytes, size_of_app in Hok. lia.
    + destruct front as [|tag front]; [cbn in Hsz; lia|].
      cbn [app] in Hcut. injection Hcut as <- Hb.
      unfold skip_property_value in E.
      destruct (size_of (AMF0_TYPE_BOOLEAN :: front) <? 1); [discriminate|].
      cbv zeta in E.
      change (byte_at (AMF0_TYPE_BOOLEAN :: front) 0)
        with AMF0_TYPE_BOOLEAN in E.
      change (advance 1 (AMF0_TYPE_BOOLEAN :: front)) with front in E.
      change (AMF0_TYPE_BOOLEAN =? AMF0_TYPE_NUMBER) with false in E.
      rewrite Z.eqb_refl in E.
      destruct (size_of front <? 1) eqn:E1; [discriminate|].
      apply Z.ltb_ge in E1.
      assert (Hone : size_of (front ++ back) = 1) by (rewrite <- Hb; reflexivity).
      rewrite size_of_app in Hone. lia.
    + pose proof (size_of_nonneg content) as Hc.
      unfold amf0_string in Hcut. cbn [app] in Hcut.
      destruct front as [|tag front]; [cbn in Hsz; lia|].
      cbn [app] in Hcut. injection Hcut as <- Hfront.
      unfold skip_property_value in E.
      destruct (size_of (AMF0_TYPE_STRING :: front) <? 1); [discriminate|].
      cbv zeta in E.
      change (byte_at (AMF0_TYPE_STRING :: front) 0) with AMF0_TYPE_STRING in E.
      change (advance 1 (AMF0_TYPE_STRING :: front)) with front in E.
      change (AMF0_TYPE_STRING =? AMF0_TYPE_NUMBER) with false in E.
      change (AMF0_TYPE_STRING =? AMF0_TYPE_BOOLEAN) with false in E.
      rewrite Z.eqb_refl in E.
      destruct (size_of front <? 2) eqn:E2; [discriminate|].
      apply Z.ltb_ge in E2.
      destruct front as [|h [|l front]];
        [cbn in E2; lia | cbn in E2; lia |].
      cbn [app] in Hfront. injection Hfront as <- <- Hcontent.
      change (byte_at (size_of content / 256 :: size_of content mod 256
                       :: front) 0) with (size_of content / 256) in E.
      change (byte_at (size_of content / 256 :: size_of content mod 256
                       :: front) 1) with (size_of content mod 256) in E.
      change (advance 2 (size_of content / 256 :: size_of content mod 256
                         :: front)) with front in E.
      rewrite big_endian_16 in E by lia.
      destruct (size_of front <? size_of content) eqn:Ef; [discriminate|].
      apply Z.ltb_ge in Ef.
      rewrite Hcontent, size_of_app in Ef. lia.
Qed.

Lemma skip_property_value_types_witness :
  skip_property_value (amf0_value (Amf0Boolean 1) ++ [0; 0; 9])
  = Some [0; 0; 9] /\
  (forall tag data,
     tag <> AMF0_TYPE_NUMBER -> tag <> AMF0_TYPE_BOOLEAN ->
     tag <> AMF0_TYPE_STRING -> skip_property_value (tag :: data) = None) /\
  (forall n, 0 < n < size_of (amf0_value (Amf0Boolean 1)) ->
     skip_property_value (take n (amf0_value (Amf0Boolean 1))) = None).
Proof. apply (skip_property_value_types (Amf0Boolean 1) [0; 0; 9]). exact I. Defined.

(** ** The walk over the command object *)

Lemma same_bytes_true (a b : list Z) : same_bytes a b = true <-> a = b.
Proof.
  unfold same_bytes. destruct (list_eq_dec Z.eq_dec a b); split;
    intros H; try reflexivity; try assumption; try discriminate; contradiction.
Qed.

Lemma same_bytes_cons (x : Z) (a b : list Z) :
  same_bytes (x :: a) (x :: b) = same_bytes a b.
Proof.
  destruct (same_bytes a b) eqn:E.
  - apply same_bytes_true. apply same_bytes_true in E. congruence.
  - destruct (same_bytes (x :: a) (x :: b)) eqn:E'; [|reflexivity].
    apply same_bytes_true in E'. injection E' as E'.
    apply same_bytes_true in E'. congruence.
Qed.

Lemma same_bytes_false (a b : list Z) : a <> b -> same_bytes a b = false.
Proof.
  intros H. destruct (same_bytes a b) eqn:E; [|reflexivity].
  apply same_bytes_true in E. contradiction.
Qed.

(** [strncmp] against a literal, over as many bytes as the literal has. *)
Lemma strncmp_literal (lit : list Z) :
  Forall (fun c => c <> 0) lit ->
  forall k t,
    length k = length lit ->
    (strncmp (k ++ t) (lit ++ [0]) (length lit) =? 0) = same_bytes k lit.
Proof.
  induction 1 as [|c lit Hc _ IH]; intros k t Hlen.
  - destruct k; [reflexivity|discriminate].
  - destruct k as [|x k]; [discriminate|].
    cbn [app length strncmp hd tl]. cbv zeta.
    destruct (x =? c) eqn:E; cbn [negb].
    + apply Z.eqb_eq in E. subst x.
      replace (c =? 0) with false by (symmetry; apply Z.eqb_neq; exact Hc).
      rewrite same_bytes_cons. apply IH. cbn in Hlen. lia.
    + apply Z.eqb_neq in E.
      rewrite same_bytes_false by congruence.
      apply Z.eqb_neq. lia.
Qed.

Lemma key_matches (lit : list Z) (k t : list Z) :
  Forall (fun c => c <> 0) lit ->
  (size_of k =? size_of lit)
  && (strncmp (k ++ t) (lit ++ [0]) (length lit) =? 0)
  = same_bytes k lit.
Proof.
  intros Hlit. destruct (size_of k =? size_of lit) eqn:E; cbn [andb].
  - apply Z.eqb_eq in E. apply strncmp_literal; [exact Hlit|].
    unfold size_of in E. lia.
  - apply Z.eqb_neq in E. symmetry. apply same_bytes_false.
    intros ->. contradiction.
Qed.

Lemma swfUrl_key (k t : list Z) :
  (size_of k =? RTMP_PROPERTY_KEY_SWFURL_LEN)
  && (strncmp (k ++ t) RTMP_PROPERTY_KEY_SWFURL
        (Z.to_nat RTMP_PROPERTY_KEY_SWFURL_LEN) =? 0)
  = same_bytes k (text "swfUrl").
Proof.
  apply (key_matches (text "swfUrl") k t).
  repeat constructor; discriminate.
Qed.

Lemma pageUrl_key (k t : list Z) :
  (size_of k =? RTMP_PROPERTY_KEY_PAGEURL_LEN)
  && (strncmp (k ++ t) RTMP_PROPERTY_KEY_PAGEURL
        (Z.to_nat RTMP_PROPERTY_KEY_PAGEURL_LEN) =? 0)
  = same_bytes k (text "pageUrl").
Proof.
  apply (key_matches (text "pageUrl") k t).
  repeat constructor; discriminate.
Qed.

Lemma duplicate_value (v : Amf0Value) (tail : list Z) :
  value_ok v ->
  duplicate_string (amf0_value v ++ tail)
  = match captured_string v with
    | Some s => Some (s, tail)
    | None => None
    end.
Proof.
  destruct v as [bytes | b | content]; cbn [value_ok amf0_value captured_string];
    intros Hok.
  - apply duplicate_string_other. discriminate.
  - apply duplicate_string_other. discriminate.
  - rewrite duplicate_string_written by exact Hok.
    destruct (size_of content =? 0); reflexivity.
Qed.

Lemma set_swfUrl_null (ss : ServiceRTMPData) :
  is_null (swfUrl ss) = true -> set_swfUrl ss None = ss.
Proof. destruct ss as [? ? ? ? [s|] ?]; [discriminate|reflexivity]. Qed.

Lemma set_pageUrl_null (ss : ServiceRTMPData) :
  is_null (pageUrl ss) = true -> set_pageUrl ss None = ss.
Proof. destruct ss as [? ? ? ? ? [s|]]; [discriminate|reflexivity]. Qed.

(** One turn of the loop over a written pair. *)
Lemma scan_property_written (ss : ServiceRTMPData) (p : Property)
    (tail : list Z) :
  property_ok p ->
  scan_property ss (property_bytes p ++ tail)
  = match capture_property ss p with
    | Some ss' => PropertyNext ss' tail
    | None => PropertyFail ss
    end.
Proof.
  destruct p as [k v]. unfold property_ok, property_bytes, amf0_key.
  cbn [fst snd]. intros [Hk Hv].
  rewrite <- !app_assoc. cbn [app].
  set (n := size_of k) in *.
  set (after := amf0_value v ++ tail).
  unfold scan_property. rewrite !size_of_cons, size_of_app. fold n.
  pose proof (size_of_nonneg after) as Ha.
  replace (1 + (1 + (n + size_of after)) <? 3) with false
    by (symmetry; apply Z.ltb_ge; lia).
  change (byte_at (n / 256 :: n mod 256 :: k ++ after) 0) with (n / 256).
  change (byte_at (n / 256 :: n mod 256 :: k ++ after) 1) with (n mod 256).
  change (advance 2 (n / 256 :: n mod 256 :: k ++ after)) with (k ++ after).
  rewrite big_endian_16 by lia. cbv zeta.
  replace (n =? 0) with false by (symmetry; apply Z.eqb_neq; lia).
  rewrite size_of_app. fold n.
  replace (n + size_of after <? n) with false
    by (symmetry; apply Z.ltb_ge; lia).
  fold (is_null (swfUrl ss)). fold (is_null (pageUrl ss)).
  rewrite <- !andb_assoc. subst n.
  rewrite swfUrl_key, pageUrl_key, advance_exact.
  subst after. rewrite (duplicate_value v tail Hv).
  unfold capture_property. cbn [fst snd].
  destruct (is_null (swfUrl ss) && same_bytes k (text "swfUrl")) eqn:Eswf.
  { destruct (captured_string v); [reflexivity|].
    apply andb_prop in Eswf. rewrite set_swfUrl_null by apply Eswf.
    reflexivity. }
  destruct (is_null (pageUrl ss) && same_bytes k (text "pageUrl")) eqn:Epage.
  { destruct (captured_string v); [reflexivity|].
    apply andb_prop in Epage. rewrite set_pageUrl_null by apply Epage.
    reflexivity. }
  rewrite (skip_written v tail Hv). reflexivity.
Qed.

Lemma scan_properties_end (ss : ServiceRTMPData) (rest : list Z) :
  scan_properties ss (amf0_object_end ++ rest) = (true, ss).
Proof.
  rewrite scan_properties_unfold. unfold scan_property, amf0_object_end.
  cbn [app]. rewrite !size_of_cons.
  pose proof (size_of_nonneg rest).
  replace (1 + (1 + (1 + size_of rest)) <? 3) with false
    by (symmetry; apply Z.ltb_ge; lia).
  reflexivity.
Qed.

Lemma property_bytes_size (p : Property) :
  property_ok p -> 3 <= size_of (property_bytes p).
Proof.
  destruct p as [k v]. unfold property_ok, property_bytes, amf0_key.
  cbn [fst snd]. intros [Hk _].
  rewrite !size_of_app, !size_of_cons, size_of_nil.
  pose proof (size_of_nonneg (amf0_value v)). lia.
Qed.

Lemma app_not_nil_r (a b : list Z) : b <> [] -> a ++ b <> [].
Proof. destruct a; [trivial|discriminate]. Qed.

Lemma properties_bytes_cons (p : Property) (props : list Property) :
  properties_bytes (p :: props) = property_bytes p ++ properties_bytes props.
Proof. reflexivity. Qed.

(** The walk over written pairs followed by [tail], where the walk over
    [tail] alone stops at once. *)
Lemma scan_properties_written (tail : list Z) :
  tail <> [] ->
  (forall ss, scan_properties ss tail = (true, ss)) ->
  forall props ss,
    Forall property_ok props ->
    scan_properties ss (properties_bytes props ++ tail) = capture ss props.
Proof.
  intros Hne Htail. induction props as [|p props IH]; intros ss Hok.
  - apply Htail.
  - inversion Hok as [|? ? Hp Hrest]; subst.
    rewrite properties_bytes_cons, <- app_assoc, scan_properties_unfold.
    rewrite (scan_property_written ss p _ Hp). cbn [capture].
    destruct (capture_property ss p) as [ss'|]; [|reflexivity].
    rewrite size_of_pos by (apply app_not_nil_r; exact Hne).
    apply IH. exact Hrest.
Qed.

(** The walk over written pairs that the body ends after. *)
Lemma scan_properties_exhausted (props : list Property) :
  forall ss,
    Forall property_ok props -> props <> [] ->
    scan_properties ss (properties_bytes props) = capture ss props.
Proof.
  induction props as [|p props IH]; intros ss Hok Hne; [contradiction|].
  inversion Hok as [|? ? Hp Hrest]; subst.
  rewrite properties_bytes_cons, scan_properties_unfold.
  rewrite (scan_property_written ss p _ Hp). cbn [capture].
  destruct (capture_property ss p) as [ss'|]; [|reflexivity].
  destruct props as [|q props]; [reflexivity|].
  rewrite size_of_pos; [apply IH; [exact Hrest|discriminate]|].
  rewrite properties_bytes_cons. apply app_not_nil.
  inversion Hrest as [|? ? Hq _]; subst.
  pose proof (property_bytes_size q Hq) as Hsize.
  intros E. rewrite E in Hsize. cbn in Hsize. lia.
Qed.

(** Over a command object written pair by pair (keys of 1 to 65535 bytes,
    values numbers, booleans or strings) the loop computes what [capture]
    does: the first [swfUrl] and the first [pageUrl] string are copied,
    every other pair is stepped over, and a [swfUrl] or [pageUrl] that is
    not a non-empty string, met while that string is still missing, ends
    the walk in failure.  The object may end in the end-of-object marker,
    after which nothing is looked at, or with the body. *)
Theorem property_walk_is_capture (ss : ServiceRTMPData)
    (props : list Property) (rest : list Z) :
  Forall property_ok props ->
  scan_properties ss (properties_bytes props ++ amf0_object_end ++ rest)
  = capture ss props
  /\ (props <> [] ->
      scan_properties ss (properties_bytes props) = capture ss props).
Proof.
  intros Hok. split.
  - apply scan_properties_written; [discriminate | | exact Hok].
    intros ss'. apply scan_properties_end.
  - intros Hne. apply scan_properties_exhausted; assumption.
Qed.

Lemma property_walk_is_capture_witness :
  let props := [ (text "app", Amf0String (text "vod"));
                 (text "swfUrl", Amf0String (text "http://x/y.swf"));
                 (text "fpad", Amf0Boolean 0);
                 (text "swfUrl", Amf0String (text "http://z/")) ] in
  scan_properties fresh_data (properties_bytes props ++ amf0_object_end ++ [7])
  = capture fresh_data props
  /\ (props <> [] ->
      scan_properties fresh_data (properties_bytes props)
      = capture fresh_data props).
Proof.
  apply (property_walk_is_capture fresh_data _ [7]).
  repeat constructor; cbn; lia.
Defined.

Lemma capture_app (a b : list Property) :
  forall ss,
    capture ss (a ++ b)
    = match capture ss a with
      | (true, ss') => capture ss' b
      | (false, ss') => (false, ss')
      end.
Proof.
  induction a as [|p a IH]; intros ss; [reflexivity|].
  cbn [app capture]. destruct (capture_property ss p); [apply IH|reflexivity].
Qed.

Lemma capture_property_keeps (ss ss' : ServiceRTMPData) (p : Property) :
  capture_property ss p = Some ss' -> keeps_strings ss ss'.
Proof.
  unfold capture_property, keeps_strings.
  destruct ss as [cs sst cb sb [swf|] [page|]]; cbn [swfUrl pageUrl is_null andb];
    split_branches; intros H; try discriminate; injection H as <-;
    cbn [swfUrl pageUrl set_swfUrl set_pageUrl]; split; intros s Hs;
    try discriminate; exact Hs.
Qed.

Lemma capture_keeps (props : list Property) :
  forall ss r ss', capture ss props = (r, ss') -> keeps_strings ss ss'.
Proof.
  induction props as [|p props IH]; intros ss r ss' H; cbn [capture] in H.
  - injection H as _ <-. apply keeps_strings_refl.
  - destruct (capture_property ss p) as [ss1|] eqn:E.
    + apply (keeps_strings_trans _ ss1).
      * apply (capture_property_keeps _ _ _ E).
      * apply (IH _ _ _ H).
    + injection H as _ <-. apply keeps_strings_refl.
Qed.

Lemma capture_property_other (ss : ServiceRTMPData) (p : Property) :
  (is_null (swfUrl ss) = true -> fst p <> text "swfUrl") ->
  (is_null (pageUrl ss) = true -> fst p <> text "pageUrl") ->
  capture_property ss p = Some ss.
Proof.
  intros Hswf Hpage. unfold capture_property.
  destruct (is_null (swfUrl ss)); cbn [andb].
  - rewrite same_bytes_false by (apply Hswf; reflexivity).
    destruct (is_null (pageUrl ss)); cbn [andb]; [|reflexivity].
    rewrite same_bytes_false by (apply Hpage; reflexivity). reflexivity.
  - destruct (is_null (pageUrl ss)); cbn [andb]; [|reflexivity].
    rewrite same_bytes_false by (apply Hpage; reflexivity). reflexivity.
Qed.

Lemma capture_swfUrl_absent (props : list Property) :
  Forall (fun p => fst p <> text "swfUrl") props ->
  forall ss r ss',
    swfUrl ss = None -> capture ss props = (r, ss') -> swfUrl ss' = None.
Proof.
  induction 1 as [|p props Hp _ IH]; intros ss r ss' Hnone H;
    cbn [capture] in H.
  - injection H as _ <-. exact Hnone.
  - destruct (capture_property ss p) as [ss1|] eqn:E.
    + apply (IH ss1 r ss'); [|exact H].
      unfold capture_property in E. rewrite Hnone in E. cbn [is_null andb] in E.
      rewrite same_bytes_false in E by exact Hp.
      revert E. split_branches; intros E; try discriminate;
        injection E as <-; exact Hnone.
    + injection H as _ <-. exact Hnone.
Qed.

Lemma capture_pageUrl_absent (props : list Property) :
  Forall (fun p => fst p <> text "pageUrl") props ->
  forall ss r ss',
    pageUrl ss = None -> capture ss props = (r, ss') -> pageUrl ss' = None.
Proof.
  induction 1 as [|p props Hp _ IH]; intros ss r ss' Hnone H;
    cbn [capture] in H.
  - injection H as _ <-. exact Hnone.
  - destruct (capture_property ss p) as [ss1|] eqn:E.
    + apply (IH ss1 r ss'); [|exact H].
      unfold capture_property in E. rewrite Hnone in E.
      cbn [is_null andb] in E.
      rewrite (same_bytes_false (fst p) (text "pageUrl")) in E by exact Hp.
      try rewrite andb_false_r in E.
      revert E. split_branches; intros E; try discriminate;
        injection E as <-; exact Hnone.
    + injection H as _ <-. exact Hnone.
Qed.

(** Of several [swfUrl] properties in a command object that is walked to
    its end, the flow keeps the string of the first; and so for
    [pageUrl]. *)
Theorem first_occurrence_wins (which : UrlKey) (ss ss' : ServiceRTMPData)
    (before after : list Property) (value rest : list Z) :
  Forall property_ok (before ++ after) ->
  0 < size_of value < 65536 ->
  held which ss = None ->
  Forall (fun p => fst p <> key_text which) before ->
  scan_properties ss
    (properties_bytes (before ++ (key_text which, Amf0String value) :: after)
     ++ amf0_object_end ++ rest) = (true, ss') ->
  held which ss' = Some (value ++ [0]).
Proof.
  intros Hok Hvalue Hnone Hbefore Hwalk.
  assert (Hall :
            Forall property_ok
              (before ++ (key_text which, Amf0String value) :: after)).
  { apply Forall_app in Hok as [Hb Ha].
    apply Forall_app. split; [exact Hb|].
    constructor; [|exact Ha]. split; [destruct which; cbn; lia|]. cbn. lia. }
  assert (Hcaptured : captured_string (Amf0String value) = Some (value ++ [0])).
  { cbn. replace (size_of value =? 0) with false
      by (symmetry; apply Z.eqb_neq; lia). reflexivity. }
  rewrite scan_properties_written in Hwalk;
    [ | discriminate | intros s; apply scan_properties_end | exact Hall ].
  rewrite capture_app in Hwalk.
  destruct (capture ss before) as [[] ss1] eqn:E1; [|discriminate].
  destruct which; cbn [held key_text] in *.
  - pose proof (capture_swfUrl_absent _ Hbefore _ _ _ Hnone E1) as Hnone1.
    cbn [capture] in Hwalk. unfold capture_property in Hwalk.
    rewrite Hnone1 in Hwalk. cbn [fst snd is_null andb] in Hwalk.
    rewrite (proj2 (same_bytes_true _ _) eq_refl), Hcaptured in Hwalk.
    apply capture_keeps in Hwalk. apply Hwalk. reflexivity.
  - pose proof (capture_pageUrl_absent _ Hbefore _ _ _ Hnone E1) as Hnone1.
    cbn [capture] in Hwalk. unfold capture_property in Hwalk.
    rewrite Hnone1 in Hwalk. cbn [fst snd is_null] in Hwalk.
    rewrite (same_bytes_false (text "pageUrl") (text "swfUrl")) in Hwalk
      by discriminate.
    rewrite andb_false_r in Hwalk. cbn [andb] in Hwalk.
    rewrite (proj2 (same_bytes_true _ _) eq_refl), Hcaptured in Hwalk.
    apply capture_keeps in Hwalk. apply Hwalk. reflexivity.
Qed.

Lemma first_occurrence_wins_witness :
  held SwfUrlKey
    (set_swfUrl fresh_data (Some (text "http://x/y.swf" ++ [0])))
  = Some (text "http://x/y.swf" ++ [0]).
Proof.
  apply (first_occurrence_wins SwfUrlKey fresh_data _
           [ (text "app", Amf0String (text "vod")) ]
           [ (text "swfUrl", Amf0String (text "http://z/")) ]
           (text "http://x/y.swf") [7]).
  - repeat constructor; cbn; lia.
  - cbn. lia.
  - reflexivity.
  - repeat constructor; discriminate.
  - vm_compute. reflexivity.
Defined.

(** A command object none of whose keys is [swfUrl] or [pageUrl] is walked
    to its end and leaves the flow data as it was. *)
Theorem other_properties_ignored (ss : ServiceRTMPData)
    (props : list Property) (rest : list Z) :
  Forall property_ok props ->
  Forall (fun p => fst p <> text "swfUrl" /\ fst p <> text "pageUrl") props ->
  scan_properties ss (properties_bytes props ++ amf0_object_end ++ rest)
  = (true, ss).
Proof.
  intros Hok Hother.
  rewrite scan_properties_written;
    [ | discriminate | intros s; apply scan_properties_end | exact Hok ].
  clear Hok. induction Hother as [|p props [Hswf Hpage] _ IH];
    [reflexivity|].
  cbn [capture]. rewrite capture_property_other by auto. exact IH.
Qed.

Lemma other_properties_ignored_witness :
  scan_properties fresh_data
    (properties_bytes [ (text "app", Amf0String (text "vod"));
                        (text "fpad", Amf0Boolean 0) ]
     ++ amf0_object_end ++ [7])
  = (true, fresh_data).
Proof.
  apply (other_properties_ignored fresh_data
           [ (text "app", Amf0String (text "vod"));
             (text "fpad", Amf0Boolean 0) ] [7]).
  - repeat constructor; cbn; lia.
  - repeat constructor; discriminate.
Defined.

(** ** The byte counters of the handshake *)

Lemma client_switch_budget (ss : ServiceRTMPData) (data : list Z) :
  match switch client_case (client_state ss) ss data with
  | Break ss' _ | FallThrough ss' _ | GotoFail ss' =>
      budget_ok ss -> budget_ok ss'
  end.
Proof.
  pose proof (size_of_nonneg data) as Hd.
  destruct ss as [cs sv cb sb su pu]; destruct cs; cbn;
    block_cases; cbn; unfold budget_ok; cbn;
    unfold RTMP_HANDSHAKE1_SIZE, RTMP_HANDSHAKE2_SIZE in *;
    intros (Hc & Hs & Hcs & Hss);
    change (wrap16 1536) with 1536 in *;
    repeat match goal with
           | H : (_ <? _) = true |- _ => apply Z.ltb_lt in H
           | H : (_ <? _) = false |- _ => apply Z.ltb_ge in H
           end;
    try (specialize (Hcs eq_refl));
    try rewrite wrap16_small by lia;
    (split; [lia | split; [lia | split]]);
    first [exact Hss | exact Hcs | discriminate | intros _; lia].
Qed.

Lemma server_switch_budget (ss : ServiceRTMPData) (data : list Z) :
  match switch server_case (server_state ss) ss data with
  | Break ss' _ | FallThrough ss' _ | GotoFail ss' =>
      budget_ok ss -> budget_ok ss'
  end.
Proof.
  pose proof (size_of_nonneg data) as Hd.
  destruct ss as [cs sv cb sb su pu]; destruct sv; cbn;
    block_cases; cbn; unfold budget_ok; cbn;
    unfold RTMP_HANDSHAKE1_SIZE, RTMP_HANDSHAKE2_SIZE in *;
    intros (Hc & Hs & Hcs & Hss);
    change (wrap16 1536) with 1536 in *;
    repeat match goal with
           | H : (_ <? _) = true |- _ => apply Z.ltb_lt in H
           | H : (_ <? _) = false |- _ => apply Z.ltb_ge in H
           end;
    try (specialize (Hss eq_refl));
    try rewrite wrap16_small by lia;
    (split; [lia | split; [lia | split]]);
    first [exact Hss | exact Hcs | discriminate | intros _; lia].
Qed.

Lemma budget_ok_same_handshake (ss ss' : ServiceRTMPData) :
  same_handshake ss ss' -> budget_ok ss -> budget_ok ss'.
Proof.
  unfold same_handshake, budget_ok. intros (-> & -> & -> & ->) H. exact H.
Qed.

Lemma after_packet_budget (asd : AppIdSession) (dir : Direction)
    (data : list Z) :
  budget_ok (flow_state asd) -> budget_ok (after_packet asd dir data).
Proof.
  unfold after_packet. destruct dir.
  - exact (consume_invariant client_case client_state
             (fun a b => budget_ok a -> budget_ok b)
             (fun _ H => H) (fun _ _ _ H1 H2 H => H2 (H1 H))
             client_switch_budget _ _).
  - exact (consume_invariant server_case server_state
             (fun a b => budget_ok a -> budget_ok b)
             (fun _ H => H) (fun _ _ _ H1 H2 H => H2 (H1 H))
             server_switch_budget _ _).
  - exact (fun H => H).
Qed.

Lemma rtmp_validate_budget (flag : Z) (cfg : AppIdModuleConfig)
    (asd : AppIdSession) (dir : Direction) (data : list Z) :
  budget_ok (flow_state asd) ->
  budget_ok (flow_state (asd_out (rtmp_validate flag cfg asd dir data))).
Proof.
  intros H. destruct data as [|x data]; [exact H|].
  apply (budget_ok_same_handshake (after_packet asd dir (x :: data))).
  - apply rtmp_validate_handshake. discriminate.
  - apply after_packet_budget, H.
Qed.

(** Through every sequence of calls on a flow that starts without flow
    data, each counter stays between 0 and 1536, and a side that is in one
    of the two sending states has at least one byte left to wait for: the
    16-bit subtraction of lines 497, 524, 593 and 620 never wraps, and the
    counter read there is never one left over from an earlier phase. *)
Theorem budget_never_wraps (flag : Z) (asd : AppIdSession)
    (calls : list Call) :
  flow_data asd = None ->
  budget_ok (flow_state (run_calls flag asd calls)).
Proof.
  intros Hfresh.
  assert (H0 : budget_ok (flow_state asd)).
  { unfold flow_state. rewrite Hfresh. unfold budget_ok, fresh_data. cbn.
    unfold RTMP_HANDSHAKE1_SIZE. repeat split; try lia; discriminate. }
  clear Hfresh. revert asd H0.
  induction calls as [|c calls IH]; intros asd H0; [exact H0|].
  cbn [run_calls]. apply IH. apply rtmp_validate_budget.
  destruct asd as [fd hs fl n]. exact H0.
Qed.

Lemma budget_never_wraps_witness :
  budget_ok
    (flow_state
       (run_calls 4 (mkSession None None 0 0)
          [ mkCall example_config 1 APP_ID_FROM_INITIATOR (3 :: repeat 0 100);
            mkCall example_config 2 APP_ID_FROM_RESPONDER (3 :: repeat 0 2000) ])).
Proof.
  apply (budget_never_wraps 4 (mkSession None None 0 0)). reflexivity.
Defined.

(** ** Whole calls *)

Lemma ret_ceiling (cfg : AppIdModuleConfig) (asd : AppIdSession)
    (ss : ServiceRTMPData) :
  ret (if rtmp_max_packets cfg <=? session_packet_count asd
       then fail asd ss else inprocess (set_flow_data asd ss))
  = if rtmp_max_packets cfg <=? session_packet_count asd
    then SERVICE_NOMATCH else SERVICE_INPROCESS.
Proof. destruct (rtmp_max_packets cfg <=? session_packet_count asd); reflexivity. Qed.

(** The first packet of a flow, in full: from the server it is refused;
    from the client it is refused unless it starts with the version byte 3
    and holds no more than C0 and C1 (1537 bytes), the client not being
    allowed into C2 before S1; what is not refused is in process, unless
    the packet count has reached the ceiling.  No first packet is
    answered with success. *)
Theorem first_packet (flag : Z) (cfg : AppIdModuleConfig)
    (asd : AppIdSession) (dir : Direction) (data : list Z) :
  flow_data asd = None ->
  data <> [] ->
  ret (rtmp_validate flag cfg asd dir data)
  = first_packet_verdict cfg (session_packet_count asd) dir data.
Proof.
  intros Hfresh Hne. rewrite (rtmp_validate_cases _ _ _ _ _ Hne).
  unfold flow_state. rewrite Hfresh. unfold first_packet_verdict.
  destruct dir.
  - rewrite consume_client_init by (exact Hne || reflexivity).
    destruct (negb (byte_at data 0 =? RTMP_VER_3)); [reflexivity|].
    set (ss0 := set_client_state fresh_data RTMP_STATE_SENT_HANDSHAKE0).
    assert (Hsize : 1 <= size_of data).
    { destruct data; [contradiction|]. rewrite size_of_cons.
      pose proof (size_of_nonneg data). lia. }
    assert (Hd1 : size_of (advance 1 data) = size_of data - 1)
      by (apply size_of_advance; lia).
    destruct (advance 1 data) as [|x d1] eqn:E1.
    { rewrite consume_client_nil. cbn [indeterminate].
      change (size_of []) with 0 in Hd1.
      replace (1 + RTMP_HANDSHAKE1_SIZE <? size_of data) with false
        by (symmetry; apply Z.ltb_ge; unfold RTMP_HANDSHAKE1_SIZE; lia).
      apply ret_ceiling. }
    assert (Hne1 : x :: d1 <> []) by discriminate.
    rewrite consume_client_sent0 by (exact Hne1 || reflexivity).
    rewrite (consume_client_sending _ _ RTMP_STATE_SENT_HANDSHAKE1 Hne1)
      by (left; split; reflexivity).
    cbn [client_bytes_left set_client_bytes_left set_client_state ss0
         fresh_data].
    change (wrap16 RTMP_HANDSHAKE1_SIZE) with RTMP_HANDSHAKE1_SIZE.
    destruct (size_of (x :: d1) <? RTMP_HANDSHAKE1_SIZE) eqn:Eshort.
    { apply Z.ltb_lt in Eshort.
      replace (1 + RTMP_HANDSHAKE1_SIZE <? size_of data) with false
        by (symmetry; apply Z.ltb_ge; lia).
      apply ret_ceiling. }
    apply Z.ltb_ge in Eshort.
    assert (Hd2 : size_of (advance RTMP_HANDSHAKE1_SIZE (x :: d1))
                  = size_of (x :: d1) - RTMP_HANDSHAKE1_SIZE)
      by (apply size_of_advance; unfold RTMP_HANDSHAKE1_SIZE in *; lia).
    destruct (advance RTMP_HANDSHAKE1_SIZE (x :: d1)) as [|y d2] eqn:E2.
    { rewrite consume_client_nil. cbn [indeterminate].
      change (size_of []) with 0 in Hd2.
      replace (1 + RTMP_HANDSHAKE1_SIZE <? size_of data) with false
        by (symmetry; apply Z.ltb_ge; lia).
      apply ret_ceiling. }
    rewrite consume_client_sent1 by (discriminate || reflexivity).
    rewrite size_of_cons in Hd2. pose proof (size_of_nonneg d2).
    replace (1 + RTMP_HANDSHAKE1_SIZE <? size_of data) with true
      by (symmetry; apply Z.ltb_lt; lia).
    reflexivity.
  - rewrite consume_server_init by (exact Hne || reflexivity). reflexivity.
  - cbn [indeterminate]. apply ret_ceiling.
Qed.

Lemma first_packet_witness :
  ret (rtmp_validate 4 example_config (mkSession None None 0 1)
         APP_ID_FROM_INITIATOR (3 :: repeat 0 1537))
  = first_packet_verdict example_config 1 APP_ID_FROM_INITIATOR
      (3 :: repeat 0 1537).
Proof.
  apply (first_packet 4 example_config (mkSession None None 0 1)
           APP_ID_FROM_INITIATOR (3 :: repeat 0 1537)).
  - reflexivity.
  - discriminate.
Defined.

Lemma success_settled (flag : Z) (cfg : AppIdModuleConfig)
    (asd : AppIdSession) (ss : ServiceRTMPData) :
  swfUrl ss = None -> pageUrl ss = None ->
  success flag cfg asd ss = mkOutcome SERVICE_SUCCESS (set_flow_data asd ss) [].
Proof.
  intros Hswf Hpage. unfold success, hand_over_swfUrl, hand_over_pageUrl.
  rewrite Hswf, Hpage. reflexivity.
Qed.

Lemma success_flow_data (flag : Z) (cfg : AppIdModuleConfig)
    (asd : AppIdSession) (ss : ServiceRTMPData) :
  flow_data (asd_out (success flag cfg asd ss))
  = Some (set_pageUrl (set_swfUrl ss None) None).
Proof.
  destruct ss as [cs sv cb sb su pu]. destruct asd as [fd hs fl n].
  destruct cfg as [mx dis].
  unfold success, hand_over_swfUrl, hand_over_pageUrl.
  destruct su as [s|], pu as [p|], hs as [[[u|] [rf|]]|], dis; reflexivity.
Qed.

Lemma ret_success_done (flag : Z) (cfg : AppIdModuleConfig)
    (asd : AppIdSession) (dir : Direction) (data : list Z) :
  ret (rtmp_validate flag cfg asd dir data) = SERVICE_SUCCESS ->
  data <> [] /\
  indeterminate (after_packet asd dir data) = false /\
  rtmp_validate flag cfg asd dir data
  = success flag cfg asd (after_packet asd dir data).
Proof.
  intros Hret. destruct data as [|x data]; [discriminate Hret|].
  assert (Hne : x :: data <> []) by discriminate.
  split; [exact Hne|].
  rewrite (rtmp_validate_cases _ _ _ _ _ Hne) in *. unfold after_packet.
  destruct (match dir with
            | APP_ID_FROM_INITIATOR =>
                consume_client (flow_state asd) (x :: data)
            | APP_ID_FROM_RESPONDER =>
                consume_server (flow_state asd) (x :: data)
            | APP_ID_DIRECTION_OTHER => Consumed (flow_state asd)
            end) as [ss|ss]; [|discriminate Hret].
  cbn [exit_data]. destruct (indeterminate ss); [|split; reflexivity].
  destruct (rtmp_max_packets cfg <=? session_packet_count asd);
    discriminate Hret.
Qed.

(** Once a call has returned success, every later call with payload, in
    whatever direction, with whatever bytes, configuration and packet
    count, returns success again, leaves the session as it is and frees
    nothing: the strings handed over at the first success are not touched
    again, and the ceiling no longer applies. *)
Theorem success_is_final (flag : Z) (cfg cfg' : AppIdModuleConfig)
    (asd : AppIdSession) (dir dir' : Direction) (data data' : list Z)
    (count : Z) :
  ret (rtmp_validate flag cfg asd dir data) = SERVICE_SUCCESS ->
  data' <> [] ->
  let asd' := set_packet_count
                (asd_out (rtmp_validate flag cfg asd dir data)) count in
  rtmp_validate flag cfg' asd' dir' data'
  = mkOutcome SERVICE_SUCCESS asd' [].
Proof.
  intros Hret Hne' asd'.
  destruct (ret_success_done _ _ _ _ _ Hret) as (Hne & Hdone & Hr).
  set (ss := after_packet asd dir data) in *.
  set (ss2 := set_pageUrl (set_swfUrl ss None) None).
  assert (Hflow : flow_data asd' = Some ss2).
  { subst asd'. cbn [set_packet_count flow_data]. rewrite Hr.
    apply success_flow_data. }
  assert (Hdone2 : indeterminate ss2 = false) by exact Hdone.
  rewrite (rtmp_validate_cases _ _ _ _ _ Hne').
  fold (consume_dir dir' (flow_state asd') data').
  unfold flow_state. rewrite Hflow.
  rewrite (consume_dir_done _ _ _ Hdone2), Hdone2.
  rewrite success_settled by reflexivity.
  f_equal. destruct asd' as [fd hs fl n]. cbn in Hflow. subst fd. reflexivity.
Qed.

Lemma success_is_final_witness :
  let asd := mkSession
               (Some (mkData RTMP_STATE_SENT_HANDSHAKE2 RTMP_STATE_DONE 0 0
                             None None))
               None 0 1 in
  let r := rtmp_validate 4 example_config asd APP_ID_FROM_INITIATOR
             connect_message in
  let asd' := set_packet_count (asd_out r) 200 in
  rtmp_validate 4 example_config asd' APP_ID_FROM_RESPONDER [1; 2; 3]
  = mkOutcome SERVICE_SUCCESS asd' [].
Proof.
  apply (success_is_final 4 example_config example_config
           (mkSession
              (Some (mkData RTMP_STATE_SENT_HANDSHAKE2 RTMP_STATE_DONE 0 0
                            None None))
              None 0 1)
           APP_ID_FROM_INITIATOR APP_ID_FROM_RESPONDER
           connect_message [1; 2; 3] 200).
  - vm_compute. reflexivity.
  - discriminate.
Defined.

(** A call never writes the packet count, and it writes the session record
    and the scan flags at a success only: the record is allocated and the
    flag set nowhere else. *)
Theorem session_written_at_success_only (flag : Z) (cfg : AppIdModuleConfig)
    (asd : AppIdSession) (dir : Direction) (data : list Z) :
  let r := rtmp_validate flag cfg asd dir data in
  session_packet_count (asd_out r) = session_packet_count asd /\
  (ret r <> SERVICE_SUCCESS ->
   hsession (asd_out r) = hsession asd /\
   scan_flags (asd_out r) = scan_flags asd) /\
  (scan_flags (asd_out r) = scan_flags asd \/
   scan_flags (asd_out r) = Z.lor (scan_flags asd) flag /\
   url_of asd = None /\ url_of (asd_out r) <> None).
Proof.
  cbn zeta. destruct data as [|x data].
  { repeat split. left. reflexivity. }
  assert (Hne : x :: data <> []) by discriminate.
  destruct (rtmp_validate_after_packet flag cfg asd dir _ Hne)
    as [H | [H | H]]; rewrite H; clear H.
  - repeat split. left. reflexivity.
  - generalize (after_packet asd dir (x :: data)) as ss. intros ss.
    split; [|split].
    + destruct ss as [cs sv cb sb su pu]. destruct asd as [fd hs fl n].
      destruct cfg as [mx dis].
      unfold success, hand_over_swfUrl, hand_over_pageUrl.
      destruct su as [s|], pu as [p|], hs as [[[u|] [rf|]]|], dis; reflexivity.
    + rewrite ret_success. intros Hbad. contradiction.
    + destruct ss as [cs sv cb sb su pu]. destruct asd as [fd hs fl n].
      destruct cfg as [mx dis].
      unfold success, hand_over_swfUrl, hand_over_pageUrl, url_of.
      destruct su as [s|], pu as [p|], hs as [[[u|] [rf|]]|], dis; cbn;
        first [left; reflexivity
              | right; repeat split; discriminate].
  - repeat split. left. reflexivity.
Qed.


(** ** A connect command, from the bytes to the verdict *)

Lemma parse_command_body_connect (ss : ServiceRTMPData)
    (properties : list Z) :
  parse_command_body ss (command_body (text "connect") properties)
  = scan_properties ss (properties ++ amf0_object_end).
Proof.
  set (tail := properties ++ amf0_object_end).
  pose proof (size_of_nonneg tail) as Ht.
  change (command_body (text "connect") properties)
    with ([AMF0_TYPE_STRING; 0; 7] ++ text "connect"
          ++ (AMF0_TYPE_NUMBER :: repeat 0 8) ++ AMF0_TYPE_OBJECT :: tail).
  set (after_name := (AMF0_TYPE_NUMBER :: repeat 0 8)
                     ++ AMF0_TYPE_OBJECT :: tail).
  assert (Hafter : size_of after_name = 10 + size_of tail).
  { subst after_name. rewrite size_of_app.
    change (size_of (AMF0_TYPE_NUMBER :: repeat 0 8)) with 9.
    rewrite size_of_cons. lia. }
  unfold parse_command_body.
  rewrite size_of_app, size_of_app.
  change (size_of [AMF0_TYPE_STRING; 0; 7]) with 3.
  change (size_of (text "connect")) with 7.
  replace (3 + (7 + size_of after_name) <? 1 + 2) with false
    by (symmetry; apply Z.ltb_ge; lia).
  change (byte_at ([AMF0_TYPE_STRING; 0; 7] ++ text "connect" ++ after_name) 0)
    with AMF0_TYPE_STRING.
  change (byte_at ([AMF0_TYPE_STRING; 0; 7] ++ text "connect" ++ after_name) 1)
    with 0.
  change (byte_at ([AMF0_TYPE_STRING; 0; 7] ++ text "connect" ++ after_name) 2)
    with 7.
  change (advance (1 + 2)
            ([AMF0_TYPE_STRING; 0; 7] ++ text "connect" ++ after_name))
    with (text "connect" ++ after_name).
  change (wrap16 (Z.shiftl 0 8 + 7)) with 7.
  change (AMF0_TYPE_STRING =? AMF0_TYPE_STRING) with true.
  cbn [negb]. change (7 =? 0) with false. cbv iota.
  rewrite size_of_app. change (size_of (text "connect")) with 7.
  replace (7 + size_of after_name <? 7) with false
    by (symmetry; apply Z.ltb_ge; lia).
  change (Z.to_nat 7) with (length (text "connect")).
  change RTMP_COMMAND_TYPE_CONNECT with (text "connect" ++ [0]).
  rewrite strncmp_literal;
    [ | repeat constructor; discriminate | reflexivity ].
  rewrite (proj2 (same_bytes_true _ _) eq_refl). cbn [negb].
  change (advance 7 (text "connect" ++ after_name)) with after_name.
  rewrite Hafter.
  replace (10 + size_of tail <? 1 + 8) with false
    by (symmetry; apply Z.ltb_ge; lia).
  subst after_name.
  change (byte_at ((AMF0_TYPE_NUMBER :: repeat 0 8)
                   ++ AMF0_TYPE_OBJECT :: tail) 0) with AMF0_TYPE_NUMBER.
  change (AMF0_TYPE_NUMBER =? AMF0_TYPE_NUMBER) with true. cbn [negb].
  change (advance (1 + 8)
            ((AMF0_TYPE_NUMBER :: repeat 0 8) ++ AMF0_TYPE_OBJECT :: tail))
    with (AMF0_TYPE_OBJECT :: tail).
  rewrite size_of_cons.
  replace (1 + size_of tail <? 1) with false
    by (symmetry; apply Z.ltb_ge; lia).
  reflexivity.
Qed.

Lemma capture_handshake (props : list Property) :
  forall ss, same_handshake ss (snd (capture ss props)).
Proof.
  induction props as [|p props IH]; intros ss; cbn [capture];
    [apply same_handshake_refl|].
  destruct (capture_property ss p) as [ss1|] eqn:E;
    [|apply same_handshake_refl].
  apply (same_handshake_trans _ ss1); [|apply IH].
  unfold capture_property in E. revert E.
  split_branches; intros E; try discriminate; injection E as <-;
    repeat split.
Qed.

Lemma parse_connect_packet (ss : ServiceRTMPData) (fmt csid : Z)
    (timestamp stream_id : list Z) (props : list Property)
    (trailing : list Z) :
  connect_ok fmt csid timestamp stream_id props ->
  parse_rtmp_message ss
    (connect_packet fmt csid timestamp stream_id props ++ trailing)
  = (fst (capture ss props), snd (capture ss props), trailing).
Proof.
  intros (Hfmt & Hid & Hts & Hsid & Hprops & Hsize).
  pose proof (size_of_nonneg (connect_body props)) as Hbody.
  unfold parse_rtmp_message, connect_packet. rewrite <- app_assoc.
  rewrite message_header_written by (assumption || lia).
  rewrite Z.eqb_refl. cbn [negb].
  rewrite unchunk_chunked by exact Hid.
  rewrite wrap16_small by lia. rewrite take_all.
  unfold connect_body at 1. rewrite parse_command_body_connect.
  rewrite scan_properties_written;
    [ | discriminate | | exact Hprops ].
  - destruct (capture ss props) as [ok ss']. reflexivity.
  - intros s. rewrite <- (app_nil_r amf0_object_end).
    apply scan_properties_end.
Qed.

Lemma connect_packet_not_nil (fmt csid : Z) (timestamp stream_id : list Z)
    (props : list Property) (trailing : list Z) :
  connect_packet fmt csid timestamp stream_id props ++ trailing <> [].
Proof.
  apply app_not_nil. unfold connect_packet, message_header_bytes.
  apply app_not_nil, app_not_nil. unfold basic_header_bytes.
  destruct (csid <? 64); [discriminate|].
  destruct (csid <? 320); discriminate.
Qed.

Lemma consume_client_connect (ss : ServiceRTMPData) (fmt csid : Z)
    (timestamp stream_id : list Z) (props : list Property)
    (trailing : list Z) :
  client_state ss = RTMP_STATE_SENT_HANDSHAKE2 ->
  connect_ok fmt csid timestamp stream_id props ->
  consume_client ss
    (connect_packet fmt csid timestamp stream_id props ++ trailing)
  = if fst (capture ss props)
    then Consumed (set_client_state (snd (capture ss props)) RTMP_STATE_DONE)
    else Failed (snd (capture ss props)).
Proof.
  intros Hst Hok.
  rewrite consume_client_sent2
    by (apply connect_packet_not_nil || exact Hst).
  rewrite (parse_connect_packet ss _ _ _ _ _ trailing Hok).
  destruct (fst (capture ss props)); reflexivity.
Qed.

(** What a call from the client returns once its loop has ended in the
    walk over a command object. *)
Lemma verdict_of_capture (flag : Z) (cfg : AppIdModuleConfig)
    (asd : AppIdSession) (data : list Z) (ok : bool)
    (ss' : ServiceRTMPData) :
  data <> [] ->
  server_state ss' = RTMP_STATE_DONE ->
  consume_client (flow_state asd) data
  = (if ok then Consumed (set_client_state ss' RTMP_STATE_DONE)
     else Failed ss') ->
  let r := rtmp_validate flag cfg asd APP_ID_FROM_INITIATOR data in
  ret r = (if ok then SERVICE_SUCCESS else SERVICE_NOMATCH) /\
  (ok = true ->
   url_of (asd_out r)
   = match url_of asd with Some u => Some u | None => swfUrl ss' end /\
   referer_of (asd_out r)
   = match referer_of asd with
     | Some u => Some u
     | None => if referred_appId_disabled cfg then None else pageUrl ss'
     end) /\
  (ok = false -> released r = rtmp_free ss') /\
  rtmp_free (flow_state (asd_out r)) = [].
Proof.
  intros Hne Hs Hloop. cbn zeta.
  rewrite rtmp_validate_cases by exact Hne. rewrite Hloop.
  destruct ok.
  - assert (Hdone : indeterminate (set_client_state ss' RTMP_STATE_DONE)
                    = false).
    { unfold indeterminate. cbn [client_state server_state set_client_state].
      rewrite Hs. reflexivity. }
    rewrite Hdone.
    pose proof (success_hand_over flag cfg asd
                  (set_client_state ss' RTMP_STATE_DONE))
      as (Hurl & Href & _ & Hswf & Hpage).
    cbn zeta in Hurl, Href, Hswf, Hpage.
    cbn [swfUrl pageUrl set_client_state] in Hurl, Href.
    split; [apply ret_success|]. split; [|split; [discriminate|]].
    + intros _. rewrite Hurl, Href. split.
      * destruct (swfUrl ss'), (url_of asd); reflexivity.
      * destruct (pageUrl ss'), (referer_of asd),
          (referred_appId_disabled cfg); reflexivity.
    + unfold rtmp_free. rewrite Hswf, Hpage. reflexivity.
  - split; [reflexivity|]. split; [discriminate|]. split; reflexivity.
Qed.

(** A well-formed [connect] command that reaches a client in
    SentHandshake2 while the server is done decides the flow in that one
    call, whatever the packet count and whatever follows the command in
    the packet: if the walk over its properties succeeds the call returns
    success, and the session record gets the first [swfUrl] as its URL and
    the first [pageUrl] as its referer where it has none yet; if not, the
    call returns failure and frees the strings copied so far. *)
Theorem connect_command_decides (flag : Z) (cfg : AppIdModuleConfig)
    (asd : AppIdSession) (fmt csid : Z) (timestamp stream_id : list Z)
    (props : list Property) (trailing : list Z) :
  client_state (flow_state asd) = RTMP_STATE_SENT_HANDSHAKE2 ->
  server_state (flow_state asd) = RTMP_STATE_DONE ->
  connect_ok fmt csid timestamp stream_id props ->
  let r := rtmp_validate flag cfg asd APP_ID_FROM_INITIATOR
             (connect_packet fmt csid timestamp stream_id props ++ trailing) in
  let ok := fst (capture (flow_state asd) props) in
  let ss' := snd (capture (flow_state asd) props) in
  ret r = (if ok then SERVICE_SUCCESS else SERVICE_NOMATCH) /\
  (ok = true ->
   url_of (asd_out r)
   = match url_of asd with Some u => Some u | None => swfUrl ss' end /\
   referer_of (asd_out r)
   = match referer_of asd with
     | Some u => Some u
     | None => if referred_appId_disabled cfg then None else pageUrl ss'
     end) /\
  (ok = false -> released r = rtmp_free ss') /\
  rtmp_free (flow_state (asd_out r)) = [].
Proof.
  intros Hc Hs Hok.
  apply verdict_of_capture.
  - apply connect_packet_not_nil.
  - pose proof (capture_handshake props (flow_state asd)) as (_ & Hs' & _).
    rewrite Hs'. exact Hs.
  - apply consume_client_connect; assumption.
Qed.

Lemma connect_command_decides_witness :
  let asd := mkSession
               (Some (mkData RTMP_STATE_SENT_HANDSHAKE2 RTMP_STATE_DONE 0 0
                             None None))
               None 0 1 in
  let props := [ (text "app", Amf0String (text "vod"));
                 (text "swfUrl", Amf0String (repeat 97 200));
                 (text "fpad", Amf0Boolean 0);
                 (text "pageUrl", Amf0String (text "http://x/")) ] in
  let r := rtmp_validate 4 example_config asd APP_ID_FROM_INITIATOR
             (connect_packet 0 3 [0; 0; 0] [0; 0; 0; 0] props ++ [1; 2; 3]) in
  let ok := fst (capture (flow_state asd) props) in
  let ss' := snd (capture (flow_state asd) props) in
  ret r = (if ok then SERVICE_SUCCESS else SERVICE_NOMATCH) /\
  (ok = true ->
   url_of (asd_out r)
   = match url_of asd with Some u => Some u | None => swfUrl ss' end /\
   referer_of (asd_out r)
   = match referer_of asd with
     | Some u => Some u
     | None => if referred_appId_disabled example_config then None
               else pageUrl ss'
     end) /\
  (ok = false -> released r = rtmp_free ss') /\
  rtmp_free (flow_state (asd_out r)) = [].
Proof.
  apply (connect_command_decides 4 example_config
           (mkSession
              (Some (mkData RTMP_STATE_SENT_HANDSHAKE2 RTMP_STATE_DONE 0 0
                            None None))
              None 0 1)
           0 3 [0; 0; 0] [0; 0; 0; 0]
           [ (text "app", Amf0String (text "vod"));
             (text "swfUrl", Amf0String (repeat 97 200));
             (text "fpad", Amf0Boolean 0);
             (text "pageUrl", Amf0String (text "http://x/")) ]
           [1; 2; 3]).
  - reflexivity.
  - reflexivity.
  - unfold connect_ok.
    split; [left; reflexivity|]. split; [lia|].
    split; [reflexivity|]. split; [reflexivity|].
    split; [|vm_compute; reflexivity].
    repeat constructor; cbn; lia.
Defined.

(** ** A whole flow *)

Lemma client_sends_c0_c1 (c1 : list Z) :
  size_of c1 = RTMP_HANDSHAKE1_SIZE ->
  consume_client fresh_data (RTMP_VER_3 :: c1)
  = Consumed (mkData RTMP_STATE_SENT_HANDSHAKE1 RTMP_STATE_INIT
                RTMP_HANDSHAKE1_SIZE 0 None None).
Proof.
  intros Hsize.
  assert (Hne : c1 <> []).
  { intros ->. discriminate Hsize. }
  rewrite consume_client_init by (discriminate || reflexivity).
  change (byte_at (RTMP_VER_3 :: c1) 0) with RTMP_VER_3.
  change (advance 1 (RTMP_VER_3 :: c1)) with c1.
  rewrite Z.eqb_refl. cbn [negb].
  rewrite consume_client_sent0 by (exact Hne || reflexivity).
  rewrite (consume_client_sending _ _ RTMP_STATE_SENT_HANDSHAKE1 Hne)
    by (left; split; reflexivity).
  fields. change (wrap16 RTMP_HANDSHAKE1_SIZE) with RTMP_HANDSHAKE1_SIZE.
  rewrite Hsize, Z.ltb_irrefl.
  rewrite advance_all by lia. apply consume_client_nil.
Qed.

Lemma server_sends_s0_s1_s2 (ss : ServiceRTMPData) (s12 : list Z) :
  client_state ss = RTMP_STATE_SENT_HANDSHAKE1 ->
  server_state ss = RTMP_STATE_INIT ->
  size_of s12 = RTMP_HANDSHAKE1_SIZE + RTMP_HANDSHAKE2_SIZE ->
  consume_server ss (RTMP_VER_3 :: s12)
  = Consumed (mkData RTMP_STATE_SENT_HANDSHAKE1 RTMP_STATE_DONE
                (client_bytes_left ss) RTMP_HANDSHAKE2_SIZE
                (swfUrl ss) (pageUrl ss)).
Proof.
  intros Hc Hs Hsize.
  destruct ss as [cs sv cb sb su pu]. cbn in Hc, Hs. subst cs sv.
  assert (Hne : s12 <> []).
  { intros ->. discriminate Hsize. }
  rewrite consume_server_init by (discriminate || reflexivity).
  change (byte_at (RTMP_VER_3 :: s12) 0) with RTMP_VER_3.
  change (advance 1 (RTMP_VER_3 :: s12)) with s12.
  rewrite Z.eqb_refl. cbn [negb client_state state_ltb].
  change (state_value RTMP_STATE_SENT_HANDSHAKE1
          <? state_value RTMP_STATE_SENT_HANDSHAKE0) with false. cbv iota.
  rewrite consume_server_sent0 by (exact Hne || reflexivity).
  rewrite consume_server_sending1 by (exact Hne || reflexivity).
  fields. change (wrap16 RTMP_HANDSHAKE1_SIZE) with RTMP_HANDSHAKE1_SIZE.
  replace (size_of s12 <? RTMP_HANDSHAKE1_SIZE) with false
    by (symmetry; apply Z.ltb_ge; rewrite Hsize; unfold RTMP_HANDSHAKE2_SIZE; lia).
  assert (Hs2 : size_of (advance RTMP_HANDSHAKE1_SIZE s12)
                = RTMP_HANDSHAKE2_SIZE).
  { rewrite size_of_advance;
      unfold RTMP_HANDSHAKE1_SIZE, RTMP_HANDSHAKE2_SIZE in *; lia. }
  assert (Hne2 : advance RTMP_HANDSHAKE1_SIZE s12 <> []).
  { intros E. rewrite E in Hs2. discriminate Hs2. }
  rewrite consume_server_sent1 by (exact Hne2 || reflexivity).
  cbn [client_state set_server_state state_ltb].
  change (state_value RTMP_STATE_SENT_HANDSHAKE1
          <? state_value RTMP_STATE_SENT_HANDSHAKE1) with false. cbv iota.
  rewrite consume_server_sending2 by (exact Hne2 || reflexivity).
  fields. change (wrap16 RTMP_HANDSHAKE2_SIZE) with RTMP_HANDSHAKE2_SIZE.
  rewrite Hs2, Z.ltb_irrefl. reflexivity.
Qed.

Lemma client_sends_c2 (ss : ServiceRTMPData) (c2 rest : list Z) :
  client_state ss = RTMP_STATE_SENT_HANDSHAKE1 ->
  server_state ss = RTMP_STATE_DONE ->
  size_of c2 = RTMP_HANDSHAKE2_SIZE ->
  consume_client ss (c2 ++ rest)
  = consume_client
      (mkData RTMP_STATE_SENT_HANDSHAKE2 RTMP_STATE_DONE
         RTMP_HANDSHAKE2_SIZE (server_bytes_left ss) (swfUrl ss) (pageUrl ss))
      rest.
Proof.
  intros Hc Hs Hsize.
  destruct ss as [cs sv cb sb su pu]. cbn in Hc, Hs. subst cs sv.
  assert (Hne : c2 ++ rest <> []).
  { apply app_not_nil. intros ->. discriminate Hsize. }
  rewrite consume_client_sent1 by (exact Hne || reflexivity).
  cbn [server_state state_ltb].
  change (state_value RTMP_STATE_DONE
          <? state_value RTMP_STATE_SENT_HANDSHAKE1) with false. cbv iota.
  rewrite (consume_client_sending _ _ RTMP_STATE_SENT_HANDSHAKE2 Hne)
    by (right; split; reflexivity).
  fields. change (wrap16 RTMP_HANDSHAKE2_SIZE) with RTMP_HANDSHAKE2_SIZE.
  pose proof (size_of_nonneg rest).
  replace (size_of (c2 ++ rest) <? RTMP_HANDSHAKE2_SIZE) with false
    by (symmetry; apply Z.ltb_ge; rewrite size_of_app; lia).
  replace (advance RTMP_HANDSHAKE2_SIZE (c2 ++ rest)) with rest
    by (rewrite <- Hsize; symmetry; apply advance_exact).
  reflexivity.
Qed.

(** What the walk copies depends on the strings the flow holds, not on
    where the handshake is. *)
Lemma capture_strings (props : list Property) :
  forall ss ss0,
    swfUrl ss = swfUrl ss0 -> pageUrl ss = pageUrl ss0 ->
    fst (capture ss props) = fst (capture ss0 props) /\
    swfUrl (snd (capture ss props)) = swfUrl (snd (capture ss0 props)) /\
    pageUrl (snd (capture ss props)) = pageUrl (snd (capture ss0 props)).
Proof.
  induction props as [|p props IH]; intros ss ss0 Hswf Hpage; cbn [capture].
  - repeat split; assumption.
  - unfold capture_property. rewrite Hswf, Hpage.
    destruct (is_null (swfUrl ss0) && same_bytes (fst p) (text "swfUrl")).
    { destruct (captured_string (snd p)) as [s|];
        [apply IH; [reflexivity|exact Hpage] | repeat split; assumption]. }
    destruct (is_null (pageUrl ss0) && same_bytes (fst p) (text "pageUrl")).
    { destruct (captured_string (snd p)) as [s|];
        [apply IH; [exact Hswf|reflexivity] | repeat split; assumption]. }
    apply IH; assumption.
Qed.

(** A flow from its first byte: the client sends C0 and C1, the server S0,
    S1 and S2, the client C2 and, in the same packet, a well-formed
    [connect] command, whatever the contents of the handshake blocks and
    of the command object.  The third call returns success exactly when
    the walk over the properties succeeds, and then the session record
    has the first [swfUrl] as its URL and the first [pageUrl] as its
    referer, where it had none; nothing is left for [rtmp_free]. *)
Theorem whole_flow_decides (flag : Z) (cfg : AppIdModuleConfig)
    (hs : option httpSession) (fl n0 n1 n2 n3 : Z) (c1 s12 c2 : list Z)
    (fmt csid : Z) (timestamp stream_id : list Z) (props : list Property)
    (trailing : list Z) :
  size_of c1 = RTMP_HANDSHAKE1_SIZE ->
  size_of s12 = RTMP_HANDSHAKE1_SIZE + RTMP_HANDSHAKE2_SIZE ->
  size_of c2 = RTMP_HANDSHAKE2_SIZE ->
  n1 < rtmp_max_packets cfg -> n2 < rtmp_max_packets cfg ->
  connect_ok fmt csid timestamp stream_id props ->
  let asd0 := mkSession None hs fl n0 in
  let asd :=
    run_calls flag asd0
      [ mkCall cfg n1 APP_ID_FROM_INITIATOR (RTMP_VER_3 :: c1);
        mkCall cfg n2 APP_ID_FROM_RESPONDER (RTMP_VER_3 :: s12) ] in
  let r := rtmp_validate flag cfg (set_packet_count asd n3)
             APP_ID_FROM_INITIATOR
             (c2 ++ connect_packet fmt csid timestamp stream_id props
              ++ trailing) in
  let ok := fst (capture fresh_data props) in
  let ss' := snd (capture fresh_data props) in
  ret r = (if ok then SERVICE_SUCCESS else SERVICE_NOMATCH) /\
  (ok = true ->
   url_of (asd_out r)
   = match url_of asd0 with Some u => Some u | None => swfUrl ss' end /\
   referer_of (asd_out r)
   = match referer_of asd0 with
     | Some u => Some u
     | None => if referred_appId_disabled cfg then None else pageUrl ss'
     end) /\
  rtmp_free (flow_state (asd_out r)) = [].
Proof.
  intros Hc1 Hs12 Hc2 Hn1 Hn2 Hok asd0 asd r ok ss'.
  set (ss1 := mkData RTMP_STATE_SENT_HANDSHAKE1 RTMP_STATE_INIT
                RTMP_HANDSHAKE1_SIZE 0 None None).
  set (ss2 := mkData RTMP_STATE_SENT_HANDSHAKE1 RTMP_STATE_DONE
                RTMP_HANDSHAKE1_SIZE RTMP_HANDSHAKE2_SIZE None None).
  set (ss3 := mkData RTMP_STATE_SENT_HANDSHAKE2 RTMP_STATE_DONE
                RTMP_HANDSHAKE2_SIZE RTMP_HANDSHAKE2_SIZE None None).
  assert (Hasd : asd = mkSession (Some ss2) hs fl n2).
  { subst asd asd0. cbn [run_calls]. unfold validate_call.
    cbn [call_config call_packet_count call_dir call_data].
    rewrite (rtmp_validate_cases flag cfg _ APP_ID_FROM_INITIATOR
               (RTMP_VER_3 :: c1)) by discriminate.
    change (flow_state (set_packet_count (mkSession None hs fl n0) n1))
      with fresh_data.
    rewrite (client_sends_c0_c1 c1 Hc1). fold ss1.
    change (indeterminate ss1) with true. cbv iota.
    cbn [session_packet_count set_packet_count].
    replace (rtmp_max_packets cfg <=? n1) with false
      by (symmetry; apply Z.leb_gt; exact Hn1).
    cbn [inprocess asd_out set_flow_data set_packet_count flow_data hsession
         scan_flags session_packet_count].
    rewrite (rtmp_validate_cases flag cfg _ APP_ID_FROM_RESPONDER
               (RTMP_VER_3 :: s12)) by discriminate.
    match goal with
    | |- context [consume_server ?x _] => change x with ss1
    end.
    rewrite (server_sends_s0_s1_s2 ss1 s12 eq_refl eq_refl Hs12).
    change (mkData RTMP_STATE_SENT_HANDSHAKE1 RTMP_STATE_DONE
              (client_bytes_left ss1) RTMP_HANDSHAKE2_SIZE
              (swfUrl ss1) (pageUrl ss1)) with ss2.
    change (indeterminate ss2) with true. cbv iota.
    cbn [session_packet_count set_packet_count set_flow_data].
    replace (rtmp_max_packets cfg <=? n2) with false
      by (symmetry; apply Z.leb_gt; exact Hn2).
    reflexivity. }
  assert (Hne : c2 ++ connect_packet fmt csid timestamp stream_id props
                ++ trailing <> []).
  { apply app_not_nil. intros ->. discriminate Hc2. }
  destruct (capture_strings props ss3 fresh_data eq_refl eq_refl)
    as (Hfst & Hswf & Hpage).
  assert (Hloop :
            consume_client (flow_state (set_packet_count asd n3))
              (c2 ++ connect_packet fmt csid timestamp stream_id props
               ++ trailing)
            = if ok
              then Consumed (set_client_state (snd (capture ss3 props))
                               RTMP_STATE_DONE)
              else Failed (snd (capture ss3 props))).
  { rewrite Hasd.
    change (flow_state (set_packet_count (mkSession (Some ss2) hs fl n2) n3))
      with ss2.
    rewrite (client_sends_c2 ss2 c2 _ eq_refl eq_refl Hc2).
    change (mkData RTMP_STATE_SENT_HANDSHAKE2 RTMP_STATE_DONE
              RTMP_HANDSHAKE2_SIZE (server_bytes_left ss2)
              (swfUrl ss2) (pageUrl ss2)) with ss3.
    rewrite (consume_client_connect ss3 _ _ _ _ _ trailing eq_refl Hok).
    subst ok. rewrite Hfst. reflexivity. }
  assert (Hdone : server_state (snd (capture ss3 props)) = RTMP_STATE_DONE).
  { pose proof (capture_handshake props ss3) as (_ & Hs' & _).
    rewrite Hs'. reflexivity. }
  pose proof (verdict_of_capture flag cfg (set_packet_count asd n3) _ ok _
                Hne Hdone Hloop) as (Hret & Hurls & _ & Hfree).
  fold r in Hret, Hurls, Hfree.
  split; [exact Hret|]. split; [|exact Hfree].
  intros Htrue. destruct (Hurls Htrue) as [Hurl Href].
  rewrite Hurl, Href, Hswf, Hpage. rewrite Hasd. split; reflexivity.
Qed.

Lemma whole_flow_decides_witness :
  let props := [ (text "app", Amf0String (text "vod"));
                 (text "swfUrl", Amf0String (text "http://x/y.swf"));
                 (text "pageUrl", Amf0String (text "http://x/")) ] in
  let asd0 := mkSession None None 0 0 in
  let asd :=
    run_calls 4 asd0
      [ mkCall example_config 1 APP_ID_FROM_INITIATOR
          (RTMP_VER_3 :: repeat 1 1536);
        mkCall example_config 2 APP_ID_FROM_RESPONDER
          (RTMP_VER_3 :: repeat 2 3072) ] in
  let r := rtmp_validate 4 example_config (set_packet_count asd 3)
             APP_ID_FROM_INITIATOR
             (repeat 3 1536
              ++ connect_packet 0 3 [0; 0; 0] [0; 0; 0; 0] props ++ []) in
  let ok := fst (capture fresh_data props) in
  let ss' := snd (capture fresh_data props) in
  ret r = (if ok then SERVICE_SUCCESS else SERVICE_NOMATCH) /\
  (ok = true ->
   url_of (asd_out r)
   = match url_of asd0 with Some u => Some u | None => swfUrl ss' end /\
   referer_of (asd_out r)
   = match referer_of asd0 with
     | Some u => Some u
     | None => if referred_appId_disabled example_config then None
               else pageUrl ss'
     end) /\
  rtmp_free (flow_state (asd_out r)) = [].
Proof.
  apply (whole_flow_decides 4 example_config None 0 0 1 2 3
           (repeat 1 1536) (repeat 2 3072) (repeat 3 1536)
           0 3 [0; 0; 0] [0; 0; 0; 0]
           [ (text "app", Amf0String (text "vod"));
             (text "swfUrl", Amf0String (text "http://x/y.swf"));
             (text "pageUrl", Amf0String (text "http://x/")) ]
           []).
  - vm_compute. reflexivity.
  - vm_compute. reflexivity.
  - vm_compute. reflexivity.
  - cbn. lia.
  - cbn. lia.
  - unfold connect_ok.
    split; [left; reflexivity|]. split; [lia|].
    split; [reflexivity|]. split; [reflexivity|].
    split; [|vm_compute; reflexivity].
    repeat constructor; cbn; lia.
Defined.

(** A client in SentHandshake2 whose first message is well formed but is
    not an AMF0 command (its type is not 20: a chunk-size or a
    window-size message, for instance) fails the flow at once, whatever
    the message holds and whatever the packet count; the strings the flow
    holds are freed. *)
Theorem other_message_type_fails (flag : Z) (cfg : AppIdModuleConfig)
    (asd : AppIdSession) (fmt csid : Z) (timestamp : list Z) (len ty : Z)
    (stream_id rest : list Z) :
  client_state (flow_state asd) = RTMP_STATE_SENT_HANDSHAKE2 ->
  fmt = 0 \/ fmt = 1 ->
  2 <= csid < 65600 ->
  size_of timestamp = 3 -> size_of stream_id = 4 ->
  0 <= len < 16777216 ->
  ty <> RTMP_AMF0_COMMAND_MESSAGE_ID ->
  let r := rtmp_validate flag cfg asd APP_ID_FROM_INITIATOR
             (message_header_bytes fmt csid timestamp len ty stream_id
              ++ rest) in
  ret r = SERVICE_NOMATCH /\
  released r = rtmp_free (flow_state asd) /\
  rtmp_free (flow_state (asd_out r)) = [].
Proof.
  intros Hst Hfmt Hid Hts Hsid Hlen Hty. cbn zeta.
  assert (Hne : message_header_bytes fmt csid timestamp len ty stream_id
                ++ rest <> []).
  { apply app_not_nil. unfold message_header_bytes.
    apply app_not_nil. unfold basic_header_bytes.
    destruct (csid <? 64); [discriminate|].
    destruct (csid <? 320); discriminate. }
  rewrite rtmp_validate_cases by exact Hne.
  rewrite consume_client_sent2 by (exact Hne || exact Hst).
  unfold parse_rtmp_message.
  rewrite message_header_written by assumption.
  replace (ty =? RTMP_AMF0_COMMAND_MESSAGE_ID) with false
    by (symmetry; apply Z.eqb_neq; exact Hty).
  cbn [negb]. repeat split.
Qed.

Lemma other_message_type_fails_witness :
  let asd := mkSession
               (Some (mkData RTMP_STATE_SENT_HANDSHAKE2 RTMP_STATE_DONE 0 0
                             None None))
               None 0 1 in
  let r := rtmp_validate 4 example_config asd APP_ID_FROM_INITIATOR
             (message_header_bytes 0 2 [0; 0; 0] 4 1 [0; 0; 0; 0]
              ++ [0; 0; 16; 0]) in
  ret r = SERVICE_NOMATCH /\
  released r = rtmp_free (flow_state asd) /\
  rtmp_free (flow_state (asd_out r)) = [].
Proof.
  apply (other_message_type_fails 4 example_config
           (mkSession
              (Some (mkData RTMP_STATE_SENT_HANDSHAKE2 RTMP_STATE_DONE 0 0
                            None None))
              None 0 1)
           0 2 [0; 0; 0] 4 1 [0; 0; 0; 0] [0; 0; 16; 0]).
  - reflexivity.
  - left. reflexivity.
  - lia.
  - reflexivity.
  - reflexivity.
  - lia.
  - discriminate.
Defined.
